(** * GTG core: task store, tag store and datastore

    A shallow embedding of [GTG/core/tasks2.py], [GTG/core/tags2.py] and
    [GTG/core/datastore2.py].

    Python objects live in a heap indexed by object references; a method
    that mutates its receiver is a computation in a state-and-exception
    monad over that heap.  A raised exception keeps the state reached so
    far, as in Python, where the mutations made before a [raise] stay. *)

From Stdlib Require Import String Ascii ZArith Lia.
From stdpp Require Import base option list gmap sets strings pretty.

Set Warnings "-register-all,-clear-no-such-hyp".

Open Scope string_scope.

(** ** Python results and the state-and-exception monad *)

Module Py.

Inductive exn : Set :=
| KeyError
| ValueError
| AttributeError
| NameError
| RecursionError
| OSError
| FileNotFoundError
| DanglingRef.
(** [DanglingRef] is not a Python exception: it marks a reference that
    is outside the heap, which no Python state contains.  [RecursionError]
    is what Python raises when the call depth runs out. *)

#[global] Instance exn_eq_dec : EqDecision exn.
Proof. solve_decision. Defined.

Inductive result (A : Type) : Type :=
| Ok (a : A)
| Raise (e : exn).
Arguments Ok {A} a.
Arguments Raise {A} e.

(** A computation over a state [S]: the state after the call is returned
    whether the call returned or raised. *)
Definition M (S A : Type) : Type := S -> result A * S.

Definition ret {S A} (a : A) : M S A := fun s => (Ok a, s).

Definition bind {S A B} (c : M S A) (k : A -> M S B) : M S B :=
  fun s => match c s with
           | (Ok a, s') => k a s'
           | (Raise e, s') => (Raise e, s')
           end.

Definition raise {S A} (e : exn) : M S A := fun s => (Raise e, s).

Definition get {S} : M S S := fun s => (Ok s, s).

Definition put {S} (s : S) : M S unit := fun _ => (Ok tt, s).

Definition modify {S} (f : S -> S) : M S unit := fun s => (Ok tt, f s).

(** [try: c except e: handler] *)
Definition try_except {S A} (c : M S A) (e : exn) (handler : M S A) : M S A :=
  fun s => match c s with
           | (Ok a, s') => (Ok a, s')
           | (Raise e', s') => if decide (e' = e) then handler s' else (Raise e', s')
           end.

(** [for x in xs: body x], over a list that the body does not mutate. *)
Fixpoint for_each {S A} (xs : list A) (body : A -> M S unit) : M S unit :=
  match xs with
  | [] => ret tt
  | x :: xs' => bind (body x) (fun _ => for_each xs' body)
  end.

(** Run a computation through a component of a larger state. *)
Definition zoom {S T A} (proj : T -> S) (upd : S -> T -> T) (c : M S A) : M T A :=
  fun t => match c (proj t) with (r, s') => (r, upd s' t) end.

End Py.

Import Py.

Declare Scope py_scope.
Delimit Scope py_scope with py.
Notation "x <- c1 ;; c2" := (bind c1 (fun x => c2))
  (at level 100, c1 at next level, right associativity) : py_scope.
Notation "c1 ;; c2" := (bind c1 (fun _ => c2))
  (at level 100, right associativity) : py_scope.
Open Scope py_scope.

(** ** Python [str] operations *)

Module Str.

(** [strip_prefix p s] is [Some rest] when [s = p ++ rest]. *)
Fixpoint strip_prefix (p s : string) : option string :=
  match p with
  | EmptyString => Some s
  | String a p' =>
      match s with
      | EmptyString => None
      | String b s' => if Ascii.eqb a b then strip_prefix p' s' else None
      end
  end.

(** [s.startswith(p)] *)
Definition startswith (s p : string) : bool :=
  match strip_prefix p s with Some _ => true | None => false end.

(** [p in s] for strings. *)
Fixpoint str_in (p s : string) : bool :=
  match strip_prefix p s with
  | Some _ => true
  | None => match s with
            | EmptyString => false
            | String _ s' => str_in p s'
            end
  end.

(** The scan of [str.replace] for a non-empty [old]: leftmost,
    non-overlapping occurrences, left to right.  [fuel] bounds the
    number of scan steps; the length of [s] is always enough. *)
Fixpoint replace_go (fuel : nat) (old new s : string) : string :=
  match fuel with
  | O => s
  | S n =>
      match strip_prefix old s with
      | Some rest => new ++ replace_go n old new rest
      | None =>
          match s with
          | EmptyString => EmptyString
          | String c s' => String c (replace_go n old new s')
          end
      end
  end.

(** With an empty [old], Python inserts [new] before every character
    and at the end. *)
Fixpoint interleave (new s : string) : string :=
  match s with
  | EmptyString => new
  | String c s' => new ++ String c (interleave new s')
  end.

(** [s.replace(old, new)] *)
Definition str_replace (s old new : string) : string :=
  match old with
  | EmptyString => interleave new s
  | String _ _ => replace_go (String.length s) old new s
  end.

(** Every character of the string passes the test. *)
Fixpoint all_chars (P : ascii -> bool) (s : string) : bool :=
  match s with
  | EmptyString => true
  | String c s' => P c && all_chars P s'
  end.

(** [s[1:]] *)
Definition tail1 (s : string) : string :=
  match s with
  | EmptyString => EmptyString
  | String _ s' => s'
  end.

End Str.

(** ** The content element of the task document *)

Module Content.

Import Str.

(** The characters below U+0100 that an XML document may hold: the
    tab, the line feed, the carriage return, and the characters from
    the space on.  (A string of the model has one [ascii] for each
    character, so it stands for a text of characters below U+0100.) *)
Definition xml_char (c : ascii) : bool :=
  let n := nat_of_ascii c in
  Nat.eqb n 9 || Nat.eqb n 10 || Nat.eqb n 13 || Nat.leb 32 n.

Definition xml_compatible (s : string) : bool := all_chars xml_char s.

(** [lxml.etree.CDATA(text)]: lxml refuses a text that is not XML
    compatible (one with a NUL or another control character) and a
    text that holds the section terminator. *)
Definition CDATA (text : string) : result string :=
  if negb (xml_compatible text) then Raise ValueError
  else if str_in "]]>" text then Raise ValueError
  else Ok text.

(** The line ends of a document as the XML parser hands them on: a
    carriage return, with the line feed after it when there is one,
    is read as a line feed. *)
Fixpoint normalize_newlines (s : string) : string :=
  match s with
  | EmptyString => EmptyString
  | String c s' =>
      if Ascii.eqb c "013"%char then
        match s' with
        | String c' s'' =>
            if Ascii.eqb c' "010"%char
            then String "010"%char (normalize_newlines s'')
            else String "010"%char (normalize_newlines s')
        | EmptyString => String "010"%char EmptyString
        end
      else String c (normalize_newlines s')
  end.

(** What [element.find('content').text] yields for a CDATA section
    written with [text], once the document has been written and
    parsed: the text with its line ends as the parser reads them, or
    [None] for an empty element. *)
Definition parsed_text (text : string) : option string :=
  match normalize_newlines text with
  | EmptyString => None
  | t => Some t
  end.

(** [TaskStore.to_xml], the content element (tasks2.py 370-376). *)
Definition to_xml_content (content : string) : result string :=
  let text := content in
  let text := str_replace text "]]>" "]]&gt;" in
  CDATA text.

(** [TaskStore.from_xml], the content element (tasks2.py 306-309). *)
Definition from_xml_content (element_text : option string) : string :=
  let content := default "" element_text in
  let content := str_replace content "]]&gt;" "]]>" in
  content.

(** Encode a content string, then decode what the parser hands back. *)
Definition content_round_trip (content : string) : result string :=
  match to_xml_content content with
  | Ok text => Ok (from_xml_content (parsed_text text))
  | Raise e => Raise e
  end.

End Content.

(** ** Identifiers and object references *)

(** An object reference (the identity of a Python object). *)
Abbreviation ref := nat (only parsing).

(** A dictionary key of the stores: the value of [uuid4()] (a [UUID]
    object) or a [str], as [element.get('id')] gives when a document is
    loaded.  A [UUID] never equals a [str]. *)
Inductive Key : Set :=
| UUID (n : N)
| StrKey (s : string).

#[global] Instance Key_eq_dec : EqDecision Key.
Proof. solve_decision. Defined.

#[global] Instance Key_countable : Countable Key.
Proof.
  refine (inj_countable'
            (fun k => match k with UUID n => inl n | StrKey s => inr s end)
            (fun x => match x with inl n => UUID n | inr s => StrKey s end) _).
  intros []; reflexivity.
Defined.

(** Truth value of an optional key argument ([if parent:]). *)
Definition key_bool (k : option Key) : bool :=
  match k with
  | None => false
  | Some (UUID _) => true
  | Some (StrKey s) => negb (String.eqb s "")
  end.

(** ** Dates *)

Module Dates.

(** The part of [GTG.core.dates.Date] that the task code calls.  The
    module is not among the sources, so the task code is embedded over
    any implementation of this interface. *)
Class DateOps (Date : Type) : Type := {
  no_date : Date;                    (* Date.no_date() *)
  is_fuzzy : Date -> bool;           (* d.is_fuzzy() *)
  date_bool : Date -> bool;          (* truth value of d *)
  date_lt : Date -> Date -> bool;    (* d1 < d2 *)
  date_gt : Date -> Date -> bool;    (* d1 > d2 *)
}.

(** The only law of the ordering that the proofs below rely on. *)
Class DateLaws (Date : Type) `{DateOps Date} : Prop := {
  date_gt_irrefl : forall d : Date, date_gt d d = false;
}.

(** Modelled from the spec: the Date value of [GTG/core/dates.py], which
    is missing from the sources.  A date is a concrete day or one of the
    symbolic markers; the spec fixes a total order between them "per a
    fixed policy" without giving it, so one policy is chosen here: [Now]
    sorts before every concrete day, the other markers after.  The
    absent date is the only false one. *)
Inductive Fuzzy : Set := NoDate | Now | Soon | Someday.

Inductive SpecDate : Set :=
| FuzzyDate (f : Fuzzy)
| Concrete (day : Z).

Definition spec_rank (d : SpecDate) : Z * Z :=
  match d with
  | FuzzyDate Now => (0, 0)
  | Concrete day => (1, day)
  | FuzzyDate Soon => (2, 0)
  | FuzzyDate Someday => (3, 0)
  | FuzzyDate NoDate => (4, 0)
  end%Z.

Definition spec_lt (a b : SpecDate) : bool :=
  let '(ka, da) := spec_rank a in
  let '(kb, db) := spec_rank b in
  ((ka <? kb) || ((ka =? kb) && (da <? db)))%Z.

#[global] Instance SpecDate_ops : DateOps SpecDate := {
  no_date := FuzzyDate NoDate;
  is_fuzzy d := match d with FuzzyDate _ => true | Concrete _ => false end;
  date_bool d := match d with FuzzyDate NoDate => false | _ => true end;
  date_lt a b := spec_lt a b;
  date_gt a b := spec_lt b a;
}.

End Dates.

Import Dates.

(** ** Heaps of objects *)

Module Heap.

Section Objects.
Context {E : Type}.

(** Read the object behind a reference. *)
Definition deref (r : ref) : M (gmap ref E) E :=
  fun h => match h !! r with
           | Some o => (Ok o, h)
           | None => (Raise DanglingRef, h)
           end.

(** An attribute assignment [r.attr = v], as an update of the object. *)
Definition setattr (r : ref) (f : E -> E) : M (gmap ref E) unit :=
  fun h => match h !! r with
           | Some o => (Ok tt, <[r := f o]> h)
           | None => (Raise DanglingRef, h)
           end.

(** A constructor call: the new object gets a reference not in use. *)
Definition alloc (o : E) : M (gmap ref E) ref :=
  fun h => let r := fresh (dom h) in (Ok r, <[r := o]> h).
End Objects.

(** [l.remove(x)]: drops the first occurrence; [None] stands for
    [ValueError]. *)
Fixpoint list_remove_first (x : ref) (l : list ref) : option (list ref) :=
  match l with
  | [] => None
  | y :: l' =>
      if Nat.eqb x y then Some l'
      else match list_remove_first x l' with
           | Some l'' => Some (y :: l'')
           | None => None
           end
  end.

End Heap.

Import Heap.

(** ** The generic store *)

Module BaseStore.

(** Modelled from the spec: the entity kind of the generic store
    ([GTG/core/base_store.py] is missing from the sources): an entity
    has an [id], a [parent] back-reference and a [children] list. *)
Class Entity (E : Type) : Type := {
  ent_id : E -> Key;
  ent_children : E -> list ref;
  ent_set_children : list ref -> E -> E;
  ent_set_parent : option ref -> E -> E;
}.

(** The store object: [data], the top-level sequence, and [lookup]. *)
Record t : Type := mk {
  data : list ref;
  lookup : gmap Key ref;
}.

Definition empty : t := {| data := []; lookup := ∅ |}.

Definition set_data (d : list ref) (s : t) : t :=
  {| data := d; lookup := lookup s |}.

Definition set_lookup (m : gmap Key ref) (s : t) : t :=
  {| data := data s; lookup := m |}.

Section Store.
Context {E : Type} `{Entity E}.

(** The state of a store method: the store and the heap of entities. *)
Definition St : Type := (t * gmap ref E)%type.

Definition on_heap {A} (c : M (gmap ref E) A) : M St A :=
  zoom snd (fun h st => (fst st, h)) c.

Definition on_store {A} (c : M t A) : M St A :=
  zoom fst (fun s st => (s, snd st)) c.

(** [self.lookup[k]] *)
Definition lookup_getitem (k : Key) : M St ref :=
  on_store (fun s => match lookup s !! k with
                     | Some r => (Ok r, s)
                     | None => (Raise KeyError, s)
                     end).

(** [self.lookup[k] = r] *)
Definition lookup_setitem (k : Key) (r : ref) : M St unit :=
  on_store (modify (fun s => set_lookup (<[k := r]> (lookup s)) s)).

(** [self.data.append(r)] *)
Definition data_append (r : ref) : M St unit :=
  on_store (modify (fun s => set_data (data s ++ [r]) s)).

(** [self.data.remove(r)] *)
Definition data_remove (r : ref) : M St unit :=
  on_store (fun s => match list_remove_first r (data s) with
                     | Some d => (Ok tt, set_data d s)
                     | None => (Raise ValueError, s)
                     end).

(** [p.children.append(r)] *)
Definition children_append (p r : ref) : M St unit :=
  on_heap (setattr p (fun o => ent_set_children (ent_children o ++ [r]) o)).

(** Modelled from the spec: [BaseStore.add(item, parent_id)], missing
    from the sources.  Without a parent the item is appended to
    [data] and inserted into [lookup]; with one it is inserted into
    [lookup], appended to the parent's children and given the parent
    back-reference, and not appended to [data]; an unknown parent
    fails with the not-found error. *)
Definition add (item : ref) (parent_id : option Key) : M St unit :=
  o <- on_heap (deref item);;
  if key_bool parent_id then
    p <- lookup_getitem (default (ent_id o) parent_id);;
    lookup_setitem (ent_id o) item;;
    children_append p item;;
    on_heap (setattr item (ent_set_parent (Some p)))
  else
    data_append item;;
    lookup_setitem (ent_id o) item.

(** [count()]: the number of entries of [lookup]. *)
Definition count (s : t) : nat := size (lookup s).
End Store.

End BaseStore.

(** ** Tags (tags2.py) *)

Module Tag2.

(** A tag object.  [parent] is the attribute that the generic store's
    [add] sets on a child. *)
Record t : Type := mk {
  id : Key;
  name : string;
  icon : option string;
  color : option string;
  actionable : bool;
  children : list ref;
  parent : option ref;
}.

(** [Tag2.__init__] *)
Definition init (id : Key) (name : string) : t :=
  {| id := id; name := name; icon := None; color := None;
     actionable := true; children := []; parent := None |}.

Definition set_children (c : list ref) (g : t) : t :=
  {| id := id g; name := name g; icon := icon g; color := color g;
     actionable := actionable g; children := c; parent := parent g |}.

Definition set_parent (p : option ref) (g : t) : t :=
  {| id := id g; name := name g; icon := icon g; color := color g;
     actionable := actionable g; children := children g; parent := p |}.

#[global] Instance entity : BaseStore.Entity t := {
  ent_id := id;
  ent_children := children;
  ent_set_children := set_children;
  ent_set_parent := set_parent;
}.

End Tag2.

Module TagStore.

(** The tag store: the generic store with the name index and the set of
    colours in use. *)
Record t : Type := mk {
  base : BaseStore.t;
  used_colors : gset string;
  lookup_names : gmap string ref;
}.

(** [TagStore.__init__] *)
Definition init : t :=
  {| base := BaseStore.empty; used_colors := ∅; lookup_names := ∅ |}.

Definition St : Type := (t * gmap ref Tag2.t)%type.

(** A method of the generic store run on the tag store. *)
Definition on_base {A} (c : M (@BaseStore.St Tag2.t) A) : M St A :=
  zoom (fun st => (base (fst st), snd st))
       (fun b st => ({| base := fst b; used_colors := used_colors (fst st);
                        lookup_names := lookup_names (fst st) |}, snd b))
       c.

Definition on_heap {A} (c : M (gmap ref Tag2.t) A) : M St A :=
  zoom snd (fun h st => (fst st, h)) c.

(** [TagStore.find] (tags2.py 84-87) *)
Definition find (name : string) : M St ref :=
  fun st => match lookup_names (fst st) !! name with
            | Some r => (Ok r, st)
            | None => (Raise KeyError, st)
            end.

(** [TagStore.add] (tags2.py 190-193) *)
Definition add (item : ref) (parent_id : option Key) : M St unit :=
  on_base (BaseStore.add item parent_id);;
  o <- on_heap (deref item);;
  fun st => (Ok tt, ({| base := base (fst st);
                        used_colors := used_colors (fst st);
                        lookup_names := <[Tag2.name o := item]> (lookup_names (fst st)) |},
                     snd st)).

(** [TagStore.new] (tags2.py 90-107).  [uuid] is the value that the
    call of [uuid4()] returns. *)
Definition new (uuid : N) (name : string) (parent : option Key) : M St ref :=
  let name := if negb (Str.startswith name "@") then name else Str.tail1 name in
  try_except
    (on_base (BaseStore.lookup_getitem (StrKey name)))
    KeyError
    (let tid := UUID uuid in
     tag <- on_heap (alloc (Tag2.init tid name));;
     (if key_bool parent then
        add tag parent
      else
        on_base (BaseStore.data_append tag);;
        on_base (BaseStore.lookup_setitem tid tag));;
     ret tag).

(** The tags of the store that carry a given name, in [data] order. *)
Definition named (name : string) (st : St) : list ref :=
  List.filter (fun r => match snd st !! r with
                        | Some g => String.eqb (Tag2.name g) name
                        | None => false
                        end)
              (BaseStore.data (base (fst st))).

End TagStore.

(** ** Tasks (tasks2.py) *)

(** [class Status(Enum)] *)
Inductive Status : Set := ACTIVE | DONE | DISMISSED.

#[global] Instance Status_eq_dec : EqDecision Status.
Proof. solve_decision. Defined.

(** [class Filter(Enum)]: the members that the class defines. *)
Inductive Filter : Set := STATUS | TAG | PARENT | CHILDREN.

#[global] Instance Filter_eq_dec : EqDecision Filter.
Proof. solve_decision. Defined.

(** The attribute access [Filter.<name>]: an [Enum] class has its
    members and nothing else. *)
Definition Filter_attr (name : string) : result Filter :=
  if String.eqb name "STATUS" then Ok STATUS
  else if String.eqb name "TAG" then Ok TAG
  else if String.eqb name "PARENT" then Ok PARENT
  else if String.eqb name "CHILDREN" then Ok CHILDREN
  else Raise AttributeError.

Module Task2.

Section Task.
Context {Date : Type} `{DateOps Date}.

(** A task object. *)
Record t : Type := mk {
  id : Key;
  raw_title : string;
  content : string;
  tags : list ref;
  children : list ref;
  status : Status;
  parent : option ref;
  date_added : Date;
  _date_due : Date;
  date_start : Date;
  date_closed : Date;
  date_modified : Date;
}.

Definition set_content (v : string) (k : t) : t :=
  mk (id k) (raw_title k) v (tags k) (children k) (status k) (parent k)
     (date_added k) (_date_due k) (date_start k) (date_closed k) (date_modified k).

Definition set_tags (v : list ref) (k : t) : t :=
  mk (id k) (raw_title k) (content k) v (children k) (status k) (parent k)
     (date_added k) (_date_due k) (date_start k) (date_closed k) (date_modified k).

Definition set_children (v : list ref) (k : t) : t :=
  mk (id k) (raw_title k) (content k) (tags k) v (status k) (parent k)
     (date_added k) (_date_due k) (date_start k) (date_closed k) (date_modified k).

Definition set_status (v : Status) (k : t) : t :=
  mk (id k) (raw_title k) (content k) (tags k) (children k) v (parent k)
     (date_added k) (_date_due k) (date_start k) (date_closed k) (date_modified k).

Definition set_parent (v : option ref) (k : t) : t :=
  mk (id k) (raw_title k) (content k) (tags k) (children k) (status k) v
     (date_added k) (_date_due k) (date_start k) (date_closed k) (date_modified k).

Definition set__date_due (v : Date) (k : t) : t :=
  mk (id k) (raw_title k) (content k) (tags k) (children k) (status k) (parent k)
     (date_added k) v (date_start k) (date_closed k) (date_modified k).

Definition set_date_closed (v : Date) (k : t) : t :=
  mk (id k) (raw_title k) (content k) (tags k) (children k) (status k) (parent k)
     (date_added k) (_date_due k) (date_start k) v (date_modified k).

(** [title.strip('\t\n')]: tabs and newlines dropped at both ends. *)
Definition is_tab_or_newline (c : ascii) : bool :=
  Ascii.eqb c "009"%char || Ascii.eqb c "010"%char.

Fixpoint lstrip (s : string) : string :=
  match s with
  | EmptyString => EmptyString
  | String c s' => if is_tab_or_newline c then lstrip s' else s
  end.

Fixpoint rstrip (s : string) : string :=
  match s with
  | EmptyString => EmptyString
  | String c s' =>
      match rstrip s' with
      | EmptyString => if is_tab_or_newline c then EmptyString else String c EmptyString
      | r => String c r
      end
  end.

Definition strip (s : string) : string := rstrip (lstrip s).

(** [Task2.__init__] (tasks2.py 72-85); [now] is the clock reading. *)
Definition init (now : Date) (id : Key) (title : string) : t :=
  {| id := id; raw_title := strip title; content := ""; tags := [];
     children := []; status := ACTIVE; parent := None;
     date_added := no_date; _date_due := no_date; date_start := no_date;
     date_closed := no_date; date_modified := now |}.

(** The heap of task objects. *)
Abbreviation heap := (gmap ref t).

(** [Task2.toggle_status] (tasks2.py 88-102).  [depth] is the call
    depth still available and [today] the value of [Date.today()]. *)
Fixpoint toggle_status (depth : nat) (today : Date)
         (self : ref) (propagate : bool) : M heap unit :=
  match depth with
  | O => raise RecursionError
  | S d =>
      me <- deref self;;
      (if decide (status me = ACTIVE) then
         setattr self (set_status DONE);;
         setattr self (set_date_closed today)
       else
         setattr self (set_status ACTIVE);;
         setattr self (set_date_closed no_date);;
         me <- deref self;;
         match parent me with
         | Some p =>
             po <- deref p;;
             if negb (bool_decide (status po = ACTIVE))
             then toggle_status d today p false
             else ret tt
         | None => ret tt
         end);;
      if propagate then
        me <- deref self;;
        for_each (children me) (fun child => toggle_status d today child true)
      else ret tt
  end.

(** [Task2.dismiss] (tasks2.py 105-109) *)
Fixpoint dismiss (depth : nat) (self : ref) : M heap unit :=
  match depth with
  | O => raise RecursionError
  | S d =>
      setattr self (set_status DISMISSED);;
      me <- deref self;;
      for_each (children me) (fun child => dismiss d child)
  end.

(** The [due_date] property (tasks2.py 111-113) *)
Definition due_date (k : t) : Date := _date_due k.

(** The test of the loop over the children (tasks2.py 124-126). *)
Definition later_concrete (value : Date) (k : t) : bool :=
  date_bool (due_date k) && negb (is_fuzzy (due_date k))
  && date_gt (due_date k) value.

(** The test on the parent (tasks2.py 131-133). *)
Definition earlier_fuzzy (value : Date) (k : t) : bool :=
  date_bool (due_date k) && is_fuzzy (due_date k)
  && date_lt (due_date k) value.

(** The [due_date] setter (tasks2.py 116-134) *)
Fixpoint due_date_setter (depth : nat) (self : ref) (value : Date) : M heap unit :=
  match depth with
  | O => raise RecursionError
  | S d =>
      setattr self (set__date_due value);;
      if negb (date_bool value) || is_fuzzy value then ret tt
      else
        me <- deref self;;
        for_each (children me)
          (fun child =>
             c <- deref child;;
             if later_concrete value c
             then due_date_setter d child value
             else ret tt);;
        me <- deref self;;
        match parent me with
        | Some p =>
            po <- deref p;;
            if earlier_fuzzy value po
            then due_date_setter d p value
            else ret tt
        | None => ret tt
        end
  end.

(** [Task2.add_tag] (tasks2.py 162-170), for an argument that is a tag. *)
Fixpoint add_tag (depth : nat) (self : ref) (tag : ref) : M heap unit :=
  match depth with
  | O => raise RecursionError
  | S d =>
      me <- deref self;;
      if negb (bool_decide (tag ∈ tags me)) then
        setattr self (fun k => set_tags (tags k ++ [tag]) k);;
        for_each (children me) (fun child => add_tag d child tag)
      else ret tt
  end.

(** The value of the expression at tasks2.py 177-179: the content
    without the tag followed by two newlines, then without the tag
    followed by a comma, then without the tag. *)
Definition tag_text_removed (content tag_name : string) : string :=
  Str.str_replace
    (Str.str_replace
       (Str.str_replace content
          (tag_name ++ String "010"%char (String "010"%char "")) "")
       (tag_name ++ ",") "")
    tag_name "".

(** The first loop of [remove_tag] (tasks2.py 174-179).  The loop
    removes from the list that it iterates over, so it is run as the
    list iterator runs: position [i] is read from the current list,
    and the loop ends when [i] is past its end.  [steps] bounds the
    iterations; the length of the list at the start is enough. *)
Fixpoint remove_tag_scan (tag_objs : gmap ref Tag2.t) (steps i : nat)
         (self : ref) (tag_name : string) : M heap unit :=
  match steps with
  | O => ret tt
  | S n =>
      me <- deref self;;
      match tags me !! i with
      | None => ret tt
      | Some tg =>
          match tag_objs !! tg with
          | None => raise DanglingRef
          | Some g =>
              (if String.eqb (Tag2.name g) tag_name then
                 match list_remove_first tg (tags me) with
                 | Some l => setattr self (set_tags l)
                 | None => raise ValueError
                 end;;
                 me <- deref self;;
                 (* the value of the expression statement is dropped *)
                 let _dropped := tag_text_removed (content me) tag_name in
                 ret tt
               else ret tt);;
              remove_tag_scan tag_objs n (S i) self tag_name
          end
      end
  end.

(** [Task2.remove_tag] (tasks2.py 173-182) *)
Fixpoint remove_tag (tag_objs : gmap ref Tag2.t) (depth : nat)
         (self : ref) (tag_name : string) : M heap unit :=
  match depth with
  | O => raise RecursionError
  | S d =>
      me <- deref self;;
      remove_tag_scan tag_objs (length (tags me)) 0 self tag_name;;
      me <- deref self;;
      for_each (children me) (fun child => remove_tag tag_objs d child tag_name)
  end.

#[global] Instance entity : BaseStore.Entity t := {
  ent_id := id;
  ent_children := children;
  ent_set_children := set_children;
  ent_set_parent := set_parent;
}.
End Task.

Arguments t Date : clear implicits.

(** The heap of task objects. *)
Abbreviation heap Date := (gmap ref (t Date)).

End Task2.

Module TaskStore.

(** The argument of [filter], a dynamically typed value. *)
Inductive Arg : Type :=
| ArgNone
| ArgStatus (s : Status)
| ArgStr (s : string)
| ArgList (l : list string).

Section Store.
Context {Date : Type} `{DateOps Date}.

(** The task store adds no field to the generic store. *)
Definition St : Type := @BaseStore.St (Task2.t Date).

Definition on_heap {A} (c : M (Task2.heap Date) A) : M St A :=
  BaseStore.on_heap c.

(** [TaskStore.get] (tasks2.py 230-233) *)
Definition get (tid : Key) : M St ref := BaseStore.lookup_getitem tid.

(** [TaskStore.new] (tasks2.py 236-246).  [uuid] is the value that
    [uuid4()] returns and [now] the clock reading. *)
Definition new (uuid : N) (now : Date) (title : string)
           (parent : option Key) : M St ref :=
  let tid := UUID uuid in
  task <- on_heap (alloc (Task2.init now tid title));;
  (if key_bool parent then
     BaseStore.add task parent
   else
     BaseStore.data_append task;;
     BaseStore.lookup_setitem tid task);;
  ret task.

(** [TaskStore.parent] (tasks2.py 381-400) *)
Definition parent (item_id parent_id : Key) : M St unit :=
  item <- BaseStore.lookup_getitem item_id;;
  (* Only needed for root items *)
  try_except (BaseStore.data_remove item) ValueError (ret tt);;
  p <- BaseStore.lookup_getitem parent_id;;
  BaseStore.children_append p item;;
  p <- BaseStore.lookup_getitem parent_id;;
  on_heap (setattr item (Task2.set_parent (Some p))).

(** The loop of [unparent] over the children of the parent; it
    returns at the first child with the identifier. *)
Fixpoint unparent_scan (kids : list ref) (item_id parent_id : Key) : M St unit :=
  match kids with
  | [] => raise KeyError
  | child :: kids' =>
      c <- on_heap (deref child);;
      if bool_decide (Task2.id c = item_id) then
        on_heap (setattr child (Task2.set_parent None));;
        BaseStore.data_append child;;
        p <- BaseStore.lookup_getitem parent_id;;
        po <- on_heap (deref p);;
        match list_remove_first child (Task2.children po) with
        | Some l => on_heap (setattr p (Task2.set_children l))
        | None => raise ValueError
        end
      else unparent_scan kids' item_id parent_id
  end.

(** [TaskStore.unparent] (tasks2.py 403-413) *)
Definition unparent (item_id parent_id : Key) : M St unit :=
  p <- BaseStore.lookup_getitem parent_id;;
  po <- on_heap (deref p);;
  unparent_scan (Task2.children po) item_id parent_id.

(** The names that [filter_tag] collects for one task: the names of
    its tags, then the names of the children of each of its tags
    (tasks2.py 425-430). *)
Definition tag_names (tag_objs : gmap ref Tag2.t) (k : Task2.t Date) : list string :=
  let own := omap (fun r => Tag2.name <$> tag_objs !! r) (Task2.tags k) in
  let below :=
    flat_map (fun r => match tag_objs !! r with
                       | Some g => omap (fun c => Tag2.name <$> tag_objs !! c)
                                        (Tag2.children g)
                       | None => []
                       end)
             (Task2.tags k) in
  own ++ below.

(** The test [tag_name in names] for the task behind [r]. *)
Definition tag_match (tag_objs : gmap ref Tag2.t) (h : Task2.heap Date)
           (tag_name : string) (r : ref) : bool :=
  match h !! r with
  | Some k => bool_decide (tag_name ∈ tag_names tag_objs k)
  | None => false
  end.

(** The inner function [filter_tag] of [filter] (tasks2.py 419-435). *)
Definition filter_tag (tag_objs : gmap ref Tag2.t) (st : St)
           (tag_name : string) : list ref :=
  List.filter (tag_match tag_objs (snd st) tag_name) (BaseStore.data (fst st)).

(** The loop of the list case (tasks2.py 449-452):
    [output = list(set(output) & set(filter_tag(t)))].  Python leaves
    the order of a list built from a set open; [elements] fixes one. *)
Fixpoint filter_tag_list (tag_objs : gmap ref Tag2.t) (st : St)
         (output : list ref) (arg : list string) : list ref :=
  match arg with
  | [] => output
  | n :: arg' =>
      let output :=
        elements ((list_to_set output : gset ref)
                  ∩ list_to_set (filter_tag tag_objs st n)) in
      filter_tag_list tag_objs st output arg'
  end.

(** The values of [lookup], for the comprehensions over
    [self.lookup.values()]. *)
Definition lookup_values (st : St) : list ref :=
  snd <$> map_to_list (BaseStore.lookup (fst st)).

Definition has_status (h : Task2.heap Date) (arg : Arg) (r : ref) : bool :=
  match h !! r, arg with
  | Some k, ArgStatus s => bool_decide (Task2.status k = s)
  | _, _ => false
  end.

Definition has_parent (h : Task2.heap Date) (r : ref) : bool :=
  match h !! r with
  | Some k => bool_decide (is_Some (Task2.parent k))
  | None => false
  end.

(** [TaskStore.filter] (tasks2.py 416-457).  The conditions of the
    [if]/[elif] chain are evaluated in order, each one reading its
    member of [Filter] first; a call that falls through all of them
    returns [None]. *)
Definition filter (tag_objs : gmap ref Tag2.t) (st : St)
           (filter_type : Filter) (arg : Arg) : result (option (list ref)) :=
  match Filter_attr "STATUS" with
  | Raise e => Raise e
  | Ok m1 =>
    if bool_decide (filter_type = m1) then
      Ok (Some (List.filter (has_status (snd st) arg) (BaseStore.data (fst st))))
    else
    match Filter_attr "ROOT" with
    | Raise e => Raise e
    | Ok m2 =>
      if bool_decide (filter_type = m2) then
        Ok (Some (List.filter (fun r => negb (has_parent (snd st) r)) (lookup_values st)))
      else
      match Filter_attr "CHILDREN" with
      | Raise e => Raise e
      | Ok m3 =>
        if bool_decide (filter_type = m3) then
          Ok (Some (List.filter (has_parent (snd st)) (lookup_values st)))
        else
        match Filter_attr "TAG" with
        | Raise e => Raise e
        | Ok m4 =>
          if bool_decide (filter_type = m4) then
            match arg with
            | ArgList l => Ok (Some (filter_tag_list tag_objs st [] l))
            | ArgStr n => Ok (Some (filter_tag tag_objs st n))
            | _ => Ok (Some [])
            end
          else Ok None
        end
      end
    end
  end.

(** The places a task is reachable from: its occurrences in [data]
    and in the children lists of the tasks of [lookup]. *)
Definition count_in (r : ref) (l : list ref) : nat :=
  length (List.filter (Nat.eqb r) l).

Definition in_data (st : St) (r : ref) : nat :=
  count_in r (BaseStore.data (fst st)).

Definition in_children (st : St) (r : ref) : nat :=
  list_sum ((fun p => match snd st !! p with
                      | Some k => count_in r (Task2.children k)
                      | None => 0
                      end) <$> elements (list_to_set (lookup_values st) : gset ref)).

(** The tree invariant for one task of [lookup]: a task without a
    parent is once in [data] and in no children list; a task with a
    parent is once in one children list and not in [data]. *)
Definition placed_once (st : St) (r : ref) : bool :=
  match snd st !! r with
  | Some k =>
      match Task2.parent k with
      | None => Nat.eqb (in_data st r) 1 && Nat.eqb (in_children st r) 0
      | Some _ => Nat.eqb (in_data st r) 0 && Nat.eqb (in_children st r) 1
      end
  | None => false
  end.

Definition tree_invariant (st : St) : bool :=
  forallb (placed_once st) (lookup_values st).
End Store.

(** A call of the store, for sequences of calls. *)
Inductive Call (Date : Type) : Type :=
| CallNew (uuid : N) (now : Date) (title : string) (parent : option Key)
| CallAdd (item : ref) (parent_id : option Key)
| CallParent (item_id parent_id : Key)
| CallUnparent (item_id parent_id : Key).
Arguments CallNew {Date}.
Arguments CallAdd {Date}.
Arguments CallParent {Date}.
Arguments CallUnparent {Date}.

Section Calls.
Context {Date : Type} `{DateOps Date}.

Definition run_call (c : Call Date) (st : St) : St :=
  match c with
  | CallNew u now title p => snd (new u now title p st)
  | CallAdd item p => snd (BaseStore.add item p st)
  | CallParent i p => snd (parent i p st)
  | CallUnparent i p => snd (unparent i p st)
  end.

(** The state after a sequence of calls; a call that raises leaves
    the state it reached, and the sequence goes on. *)
Definition run_calls (cs : list (Call Date)) (st : St) : St :=
  fold_left (fun s c => run_call c s) cs st.
End Calls.

End TaskStore.

(** ** The datastore (datastore2.py) *)

Module Datastore2.

(** The file system that the backup code works on. *)
Record FS : Type := mkFS {
  files : gmap string string;   (* path to content *)
  dirs : gset string;
  writable : bool;              (* may the file system be changed *)
}.

(** What an attribute of a [Datastore2] object holds: an integer, or
    some other object. *)
Inductive AttrVal : Set :=
| IntAttr (z : Z)
| OtherAttr.

(** Amount of backups to keep (datastore2.py 42-43). *)
Definition BACKUPS_NUMBER : Z := 7.

(** The attributes of a [Datastore2] object: the class attribute, the
    attributes that [__init__] and [load_file] set, the property and
    the methods. *)
Definition attributes : list (string * AttrVal) :=
  [("BACKUPS_NUMBER", IntAttr BACKUPS_NUMBER);
   ("tasks", OtherAttr); ("tags", OtherAttr); ("saved_searches", OtherAttr);
   ("xml_tree", OtherAttr); ("_mutex", OtherAttr); ("backends", OtherAttr);
   ("_backend_signals", OtherAttr); ("please_quit", OtherAttr);
   ("tree", OtherAttr); ("mutex", OtherAttr);
   ("load_data", OtherAttr); ("load_file", OtherAttr);
   ("generate_xml", OtherAttr); ("save_file", OtherAttr);
   ("print_info", OtherAttr); ("first_run", OtherAttr);
   ("get_backup_name", OtherAttr); ("write_backups", OtherAttr);
   ("find_and_load_file", OtherAttr); ("get_all_backends", OtherAttr);
   ("activate_backends", OtherAttr); ("_backend_startup", OtherAttr);
   ("set_backend_enabled", OtherAttr);
   ("backend_change_attached_tags", OtherAttr); ("flush_all_tasks", OtherAttr)].

Fixpoint assoc (name : string) (l : list (string * AttrVal)) : option AttrVal :=
  match l with
  | [] => None
  | (n, v) :: l' => if String.eqb n name then Some v else assoc name l'
  end.

(** [self.<name>] *)
Definition getattr (name : string) : M FS AttrVal :=
  match assoc name attributes with
  | Some v => ret v
  | None => raise AttributeError
  end.

(** The names that the body of [write_backups] can read: its
    parameters and local variables, and the globals of the module. *)
Definition write_backups_scope : list string :=
  ["self"; "path"; "current_backup"; "backup_name"; "backup_dir"; "older";
   "newer"; "bak_0"; "today"; "daily_backup";
   "os"; "threading"; "logging"; "shutil"; "datetime"; "time"; "TaskStore";
   "TagStore"; "SavedSearchStore"; "firstrun_tasks"; "BackendSignals"; "et";
   "log"; "Datastore2"].

(** Reading a name that is a string in the body of [write_backups];
    [env] holds the string variables bound so far. *)
Definition read_name (env : list (string * string)) (name : string) : M FS string :=
  match List.find (fun b => String.eqb (fst b) name) env with
  | Some b => ret (snd b)
  | None => raise NameError
  end.

(** The split at the last slash: the head with that slash, and the
    tail after it. *)
Fixpoint split_at_last_slash (s : string) : string * string :=
  match s with
  | EmptyString => (EmptyString, EmptyString)
  | String c s' =>
      let '(h, t) := split_at_last_slash s' in
      if Str.str_in "/" s' then (String c h, t)
      else if Ascii.eqb c "/"%char then ("/", s')
      else (EmptyString, String c s')
  end.

(** [head.rstrip('/')] *)
Fixpoint rstrip_slash (s : string) : string :=
  match s with
  | EmptyString => EmptyString
  | String c s' =>
      match rstrip_slash s' with
      | EmptyString => if Ascii.eqb c "/"%char then EmptyString else String c EmptyString
      | r => String c r
      end
  end.

(** [os.path.split]: the slashes at the end of the head are dropped
    unless the head is made of slashes only. *)
Definition path_split (s : string) : string * string :=
  let '(h, t) := split_at_last_slash s in
  match rstrip_slash h with
  | EmptyString => (h, t)
  | h' => (h', t)
  end.

(** [os.path.join] of two parts. *)
Definition path_join (a b : string) : string :=
  if Str.startswith b "/" then b
  else if String.eqb a "" then b
  else if Str.startswith (String.rev a) "/" then a ++ b
  else a ++ "/" ++ b.

(** [os.path.dirname] *)
Definition dirname (s : string) : string := fst (path_split s).

(** The text of an integer in an f-string. *)
Definition int_str (z : Z) : string := pretty z.

(** [Datastore2.get_backup_name] (datastore2.py 159-165) *)
Definition get_backup_name (path : string) (i : option Z) : string :=
  let '(dirname, filename) := path_split path in
  let backup_file :=
    match i with
    | Some z => if (z =? 0)%Z then filename else filename ++ ".bak." ++ int_str z
    | None => filename
    end in
  path_join (path_join dirname "backup") backup_file.

(** *** The file system

    A path is the text that the program hands to the operating system,
    as the bytes that the operating system gets (the UTF-8 encoding of
    the [str]).  The model holds the files and the directories under
    their clean absolute paths; the root directory always exists.  A
    directory may be named with slashes at its end.  Other spellings
    of a path (a relative path, doubled slashes, [.] and [..]) and
    links are not resolved, and the device has room for what is
    written. *)

(** The longest name and the longest path that the operating system
    takes (the limits of Linux; a path of [PATH_MAX] characters is too
    long). *)
Definition NAME_MAX : nat := 255.
Definition PATH_MAX : nat := 4096.

(** The parts of a path between its slashes. *)
Fixpoint components (s : string) : list string :=
  match s with
  | EmptyString => [EmptyString]
  | String c s' =>
      if Ascii.eqb c "/"%char then EmptyString :: components s'
      else match components s' with
           | [] => [String c EmptyString]
           | x :: xs => String c x :: xs
           end
  end.

(** No character of the path is the NUL character. *)
Fixpoint no_nul (s : string) : bool :=
  match s with
  | EmptyString => true
  | String c s' => negb (Ascii.eqb c "000"%char) && no_nul s'
  end.

(** A clean path: absolute, not the root, without an empty part, a
    part [.] or a part [..], and without a NUL character. *)
Definition clean (p : string) : bool :=
  match components p with
  | EmptyString :: c :: cs =>
      forallb (fun x => negb (String.eqb x "") && negb (String.eqb x ".")
                        && negb (String.eqb x ".."))
              (c :: cs)
      && no_nul p
  | _ => false
  end.

(** [os.path.basename] *)
Definition basename (s : string) : string := snd (path_split s).

(** The path ends with a slash. *)
Fixpoint ends_with_slash (p : string) : bool :=
  match p with
  | EmptyString => false
  | String c EmptyString => Ascii.eqb c "/"%char
  | String _ p' => ends_with_slash p'
  end.

(** The name of a directory without the slashes at its end. *)
Definition dir_name (p : string) : string :=
  match rstrip_slash p with
  | EmptyString => if String.eqb p "" then "" else "/"
  | q => q
  end.

(** [os.path.isfile] *)
Definition is_file (p : string) (fs : FS) : bool :=
  bool_decide (is_Some (files fs !! p)).

(** [os.path.isdir] *)
Definition is_dir (p : string) (fs : FS) : bool :=
  String.eqb (dir_name p) "/" || bool_decide (dir_name p ∈ dirs fs).

(** [os.path.exists] *)
Definition exists_ (p : string) (fs : FS) : bool :=
  is_file p fs || is_dir p fs.

(** The path and the paths that lead to it: [/a], [/a/b] and [/a/b/c]
    for [/a/b/c]. *)
Fixpoint prefixes_go (acc : string) (first : bool) (parts : list string)
  : list string :=
  match parts with
  | [] => []
  | c :: parts' =>
      let acc' := if first then c else acc ++ "/" ++ c in
      (if String.eqb c "" then [] else [acc']) ++ prefixes_go acc' false parts'
  end.

Definition ancestors (p : string) : list string :=
  prefixes_go "" true (components p).

(** The way down the directories that lead to a path: a name that is
    too long, a file in the place of a directory or a missing directory
    stops it. *)
Fixpoint walk (fs : FS) (leading : list string) : option exn :=
  match leading with
  | [] => None
  | a :: rest =>
      if negb (String.length (basename a) <=? NAME_MAX)%nat then Some OSError
      else if is_dir a fs then walk fs rest
      else if is_file a fs then Some OSError
      else Some FileNotFoundError
  end.

(** The error that the operating system finds on the way to the last
    name of a path.  [OSError] stands for the subclasses of [OSError]
    other than [FileNotFoundError]. *)
Definition leading_error (p : string) (fs : FS) : option exn :=
  if String.eqb p "" then Some FileNotFoundError
  else if negb (String.length p <? PATH_MAX)%nat then Some OSError
  else walk fs (removelast (ancestors p)).

(** The last name of the path is too long. *)
Definition name_too_long (p : string) : bool :=
  negb (String.length (basename (dir_name p)) <=? NAME_MAX)%nat.

(** The error that the operating system finds before it comes to what
    the last name of a path stands for. *)
Definition path_error (p : string) (fs : FS) : option exn :=
  match leading_error p fs with
  | Some e => Some e
  | None => if name_too_long p then Some OSError else None
  end.

(** The path is inside the directory. *)
Definition under (d p : string) : bool := Str.startswith p (d ++ "/").

(** Nothing is inside the directory. *)
Definition dir_empty (d : string) (fs : FS) : bool :=
  forallb (fun e => negb (under d (fst e))) (map_to_list (files fs))
  && forallb (fun q => negb (under d q)) (elements (dirs fs)).

(** The names of the path and the path itself are within the limits. *)
Definition fits (p : string) : bool :=
  forallb (fun x => (String.length x <=? NAME_MAX)%nat) (components p)
  && (String.length p <? PATH_MAX)%nat.

(** Every file and directory has a clean path within the limits and
    sits in a directory, and no path is both a file and a directory. *)
Definition well_formed (fs : FS) : bool :=
  forallb (fun e => clean (fst e) && fits (fst e)
                    && is_dir (dirname (fst e)) fs
                    && negb (bool_decide (fst e ∈ dirs fs)))
          (map_to_list (files fs))
  && forallb (fun q => clean q && fits q && is_dir (dirname q) fs)
             (elements (dirs fs)).

(** [os.makedirs(d, exist_ok=True)] *)
Definition makedirs (d : string) : M FS unit :=
  fun fs => if String.eqb d "" then (Raise FileNotFoundError, fs)
            else if is_dir d fs then (Ok tt, fs)
            else if existsb (fun a => is_file a fs) (ancestors d)
                    || negb (forallb (fun a => (String.length (basename a)
                                                <=? NAME_MAX)%nat)
                                     (ancestors d))
                    || negb (String.length d <? PATH_MAX)%nat
                 then (Raise OSError, fs)
            else if writable fs
                 then (Ok tt, mkFS (files fs)
                                   (list_to_set (ancestors d) ∪ dirs fs)
                                   (writable fs))
                 else (Raise OSError, fs).

(** A path after the directory [src] has become [dst]. *)
Definition rebase (src dst p : string) : string :=
  if String.eqb p src then dst
  else match Str.strip_prefix (src ++ "/") p with
       | Some rest => dst ++ "/" ++ rest
       | None => p
       end.

(** [os.rename(src, dst)].  A file replaces a file at [dst]; a
    directory goes to [dst] with all that is inside it, when [dst] is
    free or an empty directory. *)
Definition rename (src dst : string) : M FS unit :=
  fun fs =>
    match leading_error src fs, leading_error dst fs with
    | Some e, _ => (Raise e, fs)
    | None, Some e => (Raise e, fs)
    | None, None =>
      if name_too_long src then (Raise OSError, fs) else
      match files fs !! src with
      | Some c =>
          if name_too_long dst || is_dir dst fs || ends_with_slash dst
          then (Raise OSError, fs)
          else if negb (writable fs) then (Raise OSError, fs)
          else (Ok tt, mkFS (<[dst := c]> (delete src (files fs)))
                            (dirs fs) (writable fs))
      | None =>
          if is_dir src fs then
            let s := dir_name src in
            let d := dir_name dst in
            if String.eqb s d then (Ok tt, fs)
            else if name_too_long dst || String.eqb s "/" || is_file d fs
                    || under s d
                    || (is_dir d fs && negb (dir_empty d fs))
            then (Raise OSError, fs)
            else if negb (writable fs) then (Raise OSError, fs)
            else (Ok tt,
                  mkFS (list_to_map
                          ((fun e => (rebase s d (fst e), snd e))
                             <$> map_to_list (files fs)))
                       (list_to_set (rebase s d <$> elements (dirs fs)))
                       (writable fs))
          else if is_file (dir_name src) fs then (Raise OSError, fs)
          else (Raise FileNotFoundError, fs)
      end
    end.

(** [os.remove(p)] *)
Definition remove (p : string) : M FS unit :=
  fun fs =>
    match path_error p fs with
    | Some e => (Raise e, fs)
    | None =>
        match files fs !! p with
        | Some _ =>
            if writable fs
            then (Ok tt, mkFS (delete p (files fs)) (dirs fs) (writable fs))
            else (Raise OSError, fs)
        | None =>
            if is_dir p fs || is_file (dir_name p) fs then (Raise OSError, fs)
            else (Raise FileNotFoundError, fs)
        end
    end.

(** [open(path, 'wb')]: the file is made, or emptied when it is there. *)
Definition open_wb (path : string) : M FS unit :=
  fun fs =>
    match path_error path fs with
    | Some e => (Raise e, fs)
    | None =>
        if is_dir path fs || ends_with_slash path then (Raise OSError, fs)
        else if negb (writable fs) then (Raise OSError, fs)
        else (Ok tt, mkFS (<[path := ""]> (files fs)) (dirs fs) (writable fs))
    end.

(** [with open(path, 'wb') as stream: stream.write(doc)] *)
Definition write_file (path doc : string) : M FS unit :=
  open_wb path;;
  modify (fun fs => mkFS (<[path := doc]> (files fs)) (dirs fs) (writable fs)).

(** [shutil.copy(src, dst)]: into [dst] when it is a directory. *)
Definition copy (src dst : string) : M FS unit :=
  fs <- get;;
  let real_dst := if is_dir dst fs then path_join dst (basename src) else dst in
  match path_error src fs, files fs !! src with
  | Some e, _ => raise e
  | None, Some c =>
      if String.eqb src real_dst then raise OSError
      else if ends_with_slash real_dst && negb (exists_ real_dst fs)
      then raise FileNotFoundError
      else write_file real_dst c
  | None, None =>
      if is_dir src fs || is_file (dir_name src) fs then raise OSError
      else raise FileNotFoundError
  end.

(** [shutil.move(src, dst)]: into [dst] when it is a directory; when
    [os.rename] fails, a file is copied and then removed, and a
    directory is copied to a place that is free, with the directories
    that lead to it, and then removed. *)
Definition move (src dst : string) : M FS unit :=
  fs <- get;;
  let inside := is_dir dst fs && negb (String.eqb (dir_name src) (dir_name dst)) in
  let real_dst :=
    if inside then path_join dst (basename (dir_name src)) else dst in
  if inside && exists_ real_dst fs then raise OSError
  else
    fun fs => match rename src real_dst fs with
              | (Ok _, fs') => (Ok tt, fs')
              | (Raise e, fs') =>
                  if is_dir src fs' then
                    (if under (dir_name src) real_dst || exists_ real_dst fs'
                     then raise OSError
                     else makedirs (dirname real_dst);; rename src real_dst) fs'
                  else (copy src real_dst;; remove src) fs'
              end.

(** The loop that cycles the backups (datastore2.py 182-189); [n] is
    [current_backup], which goes down to zero. *)
Fixpoint cycle_backups (backup_name : string) (n : nat) : M FS unit :=
  match n with
  | O => ret tt
  | S k =>
      let older := backup_name ++ ".bak." ++ int_str (Z.of_nat (S k)) in
      let newer := backup_name ++ ".bak." ++ int_str (Z.of_nat k) in
      fs <- get;;
      (if exists_ newer fs then move newer older else ret tt);;
      cycle_backups backup_name k
  end.

(** [Datastore2.write_backups] (datastore2.py 168-201).  [today] is the
    text of [datetime.today().strftime('%Y-%m-%d')]. *)
Definition write_backups (today : string) (path : string) : M FS unit :=
  let env := [("path", path)] in
  v <- getattr "BACKUPS";;
  let current_backup := match v with IntAttr z => z | OtherAttr => 0%Z end in
  filepath <- read_name env "filepath";;
  let backup_name := get_backup_name filepath None in
  let backup_dir := dirname backup_name in
  fs <- get;;
  match makedirs backup_dir fs with
  | (Raise OSError, fs') | (Raise FileNotFoundError, fs') =>
      fun _ => (Ok tt, fs')
  | (Raise e, fs') => fun _ => (Raise e, fs')
  | (Ok _, fs') =>
      put fs';;
      cycle_backups backup_name (Z.to_nat current_backup);;
      let bak_0 := backup_name ++ ".bak.0" in
      filepath <- read_name env "filepath";;
      copy filepath bak_0;;
      let daily_backup := backup_name ++ "." ++ today ++ ".bak" in
      fs <- get;;
      if negb (exists_ daily_backup fs) then
        filepath <- read_name env "filepath";;
        copy filepath daily_backup
      else ret tt
  end.

(** The outcome of a call as a computation. *)
Definition of_result {S A} (r : result A) : M S A :=
  match r with
  | Ok a => ret a
  | Raise e => raise e
  end.

(** [Datastore2.save_file] (datastore2.py 102-137), without the
    logging.  [xml] is the outcome of [self.generate_xml()]: the text
    that [tree.write] produces for the tree, or the exception that the
    call raises; [today] is the date that [write_backups] reads. *)
Definition save_file (today : string) (xml : result string) (path : string)
  : M FS unit :=
  let temp_file := path ++ "__" in
  let env := [("path", path); ("temp_file", temp_file)] in
  fs <- get;;
  (if exists_ path fs then rename path temp_file else ret tt);;
  doc <- of_result xml;;
  (fun fs =>
     match write_file path doc fs with
     | (Ok _, fs') => (Ok tt, fs')
     | (Raise e, fs') =>
         if bool_decide (e = OSError \/ e = FileNotFoundError) then
           (filepath <- read_name env "filepath";;
            let base_dir := dirname filepath in
            fun fs => match makedirs base_dir fs with
                      | (Raise OSError, fs') | (Raise FileNotFoundError, fs') =>
                          (Ok tt, fs')
                      | other => other
                      end) fs'
         else (Raise e, fs')
     end);;
  fs <- get;;
  (if exists_ temp_file fs then remove temp_file else ret tt);;
  write_backups today path.

(** The numbered generations that exist for a backup name, among the
    first [n] slots. *)
Definition generations (backup_name : string) (n : nat) (fs : FS) : list nat :=
  List.filter (fun k => exists_ (backup_name ++ ".bak." ++ int_str (Z.of_nat k)) fs)
              (seq 0 n).

End Datastore2.

(** ** Task trees in the heap *)

Module TaskTree.

(** The tree under a task: the reference of the task and the trees
    under its children, in the order of the children list. *)
Inductive tree : Set :=
| Node (r : ref) (kids : list tree).

Definition root (t : tree) : ref :=
  match t with Node r _ => r end.

Definition kids_of (t : tree) : list tree :=
  match t with Node _ kids => kids end.

(** The task and all its descendants, parents first. *)
Fixpoint nodes (t : tree) : list ref :=
  match t with
  | Node r kids => r :: flat_map nodes kids
  end.

(** The call depth that a recursive walk of the tree needs. *)
Fixpoint height (t : tree) : nat :=
  match t with
  | Node _ kids => S (list_max (List.map height kids))
  end.

Section Shape.
Context {Date : Type} `{DateOps Date}.

(** [shape h t]: in the heap [h], the children list of every task of
    [t] is the list of the roots of its subtrees. *)
Fixpoint shape (h : Task2.heap Date) (t : tree) : bool :=
  match t with
  | Node r kids =>
      match h !! r with
      | Some k =>
          bool_decide (Task2.children k = List.map root kids)
          && forallb (shape h) kids
      | None => false
      end
  end.

(** The status of the task behind a reference. *)
Definition status_at (h : Task2.heap Date) (r : ref) : option Status :=
  Task2.status <$> h !! r.

(** A task as [toggle_status] leaves it when it closes it. *)
Definition closed_on (today : Date) (k : Task2.t Date) : Task2.t Date :=
  Task2.set_date_closed today (Task2.set_status DONE k).

(** A task as [toggle_status] leaves it when it reopens it. *)
Definition reopened (k : Task2.t Date) : Task2.t Date :=
  Task2.set_date_closed no_date (Task2.set_status ACTIVE k).

(** A task that was dismissed is dismissed. *)
Definition stays_dismissed (k k' : Task2.t Date) : Prop :=
  Task2.status k = DISMISSED -> Task2.status k' = DISMISSED.

(** A task is what it was, up to a due date set to [value]. *)
Definition due_changed (value : Date) (k k' : Task2.t Date) : Prop :=
  k' = k \/ k' = Task2.set__date_due value k.

(** The children and the parent of a task are in the heap. *)
Definition refs_in (h : Task2.heap Date) (k : Task2.t Date) : bool :=
  forallb (fun c => bool_decide (is_Some (h !! c))) (Task2.children k)
  && match Task2.parent k with
     | Some p => bool_decide (is_Some (h !! p))
     | None => true
     end.

(** A heap without dangling references between tasks, as every
    Python heap is. *)
Definition closed (h : Task2.heap Date) : Prop :=
  map_Forall (fun _ k => refs_in h k = true) h.


(** The content of a task is what it was. *)
Definition same_content (k k' : Task2.t Date) : Prop :=
  Task2.content k' = Task2.content k.

(** A task that was active is active. *)
Definition stays_active (k k' : Task2.t Date) : Prop :=
  Task2.status k = ACTIVE -> Task2.status k' = ACTIVE.

(** Updating the tasks of a list one after the other. *)
Definition alter_all (f : Task2.t Date -> Task2.t Date) (rs : list ref)
           (h : Task2.heap Date) : Task2.heap Date :=
  fold_left (fun h r => alter f r h) rs h.
End Shape.

End TaskTree.


(** ** What the methods of a task may change *)

Module TaskFrames.

Import TaskTree.

Section Frames.
Context {Date : Type} `{DateOps Date}.

(** A task is what it was, up to a status set to Dismissed. *)
Definition dismiss_changed (k k' : Task2.t Date) : Prop :=
  k' = k \/ k' = Task2.set_status DISMISSED k.

(** A task with a tag appended to its tags. *)
Definition with_tag (tag : ref) (k : Task2.t Date) : Task2.t Date :=
  Task2.set_tags (Task2.tags k ++ [tag]) k.

(** A task is what it was, or it did not carry the tag and has it
    appended. *)
Definition tag_added (tag : ref) (k k' : Task2.t Date) : Prop :=
  k' = k \/ ((tag ∉ Task2.tags k) /\ k' = with_tag tag k).

(** A task is what it was, or it was not active and is reopened. *)
Definition reopen_changed (k k' : Task2.t Date) : Prop :=
  k' = k \/ (Task2.status k <> ACTIVE /\ k' = reopened k).

(** The tag behind a reference carries the name. *)
Definition named (tag_objs : gmap ref Tag2.t) (tag_name : string) (r : ref) : bool :=
  match tag_objs !! r with
  | Some g => String.eqb (Tag2.name g) tag_name
  | None => false
  end.

(** The tags of a list that do not carry the name, in order. *)
Definition others (tag_objs : gmap ref Tag2.t) (tag_name : string)
           (l : list ref) : list ref :=
  List.filter (fun r => negb (named tag_objs tag_name r)) l.


(** A task is what it was but for its tags, which are a sublist of
    what they were and hold every tag of another name. *)
Definition tags_pruned (tag_objs : gmap ref Tag2.t) (tag_name : string)
           (k k' : Task2.t Date) : Prop :=
  k' = Task2.set_tags (Task2.tags k') k
  /\ sublist (Task2.tags k') (Task2.tags k)
  /\ others tag_objs tag_name (Task2.tags k')
     = others tag_objs tag_name (Task2.tags k).



(** [shape_up h t]: in the heap [h], the parent of the root of every
    subtree of [t] is the task above it. *)
Fixpoint shape_up (h : Task2.heap Date) (t : tree) : bool :=
  match t with
  | Node r kids =>
      forallb (fun kid => bool_decide (Task2.parent <$> h !! root kid = Some (Some r)))
              kids
      && forallb (shape_up h) kids
  end.

(** A task is what it was but for its status and its closing date. *)
Definition status_changed (k k' : Task2.t Date) : Prop :=
  k' = Task2.set_date_closed (Task2.date_closed k')
         (Task2.set_status (Task2.status k') k).

(** [toggled_in N h h']: the two heaps hold the same references,
    every task is what it was but for its status and its closing
    date, and a task outside [N] that was active is active. *)
Definition toggled_in (N : list ref) (h h' : Task2.heap Date) : Prop :=
  forall y,
    option_Forall2
      (fun k k' => status_changed k k'
                   /\ ((y ∉ N) -> Task2.status k = ACTIVE
                       -> Task2.status k' = ACTIVE))
      (h !! y) (h' !! y).

(** The root of a tree has no parent, or an active one. *)
Definition top_free (h : Task2.heap Date) (r : ref) : bool :=
  match h !! r with
  | Some k =>
      match Task2.parent k with
      | None => true
      | Some p => bool_decide (status_at h p = Some ACTIVE)
      end
  | None => false
  end.
End Frames.

End TaskFrames.

(** ** Relating the heap before and after a call *)

Module Frame.

(** [heap_rel P h h']: the two heaps hold the same references, and the
    object behind each one is related by [P] to what it was. *)
Definition heap_rel {E : Type} (P : E -> E -> Prop) (h h' : gmap ref E) : Prop :=
  forall x, option_Forall2 P (h !! x) (h' !! x).

(** A computation keeps [R] when the state it ends in, returning or
    raising, is related to the state it started from. *)
Definition keeps {S A : Type} (R : S -> S -> Prop) (c : M S A) : Prop :=
  forall s, R s (snd (c s)).

End Frame.

(** ** Sequences of calls on tasks *)

Module TaskCalls.

Section Calls.
Context {Date : Type} `{DateOps Date}.

(** A sequence of [dismiss] calls, each with the call depth it has
    and the task it is made on; a call that raises leaves the heap it
    reached. *)
Definition run_dismissals (calls : list (nat * ref))
           (h : Task2.heap Date) : Task2.heap Date :=
  fold_left (fun h c => snd (Task2.dismiss (fst c) (snd c) h)) calls h.
End Calls.

End TaskCalls.

(** ** Concrete tasks and stores *)

Module Examples.

Import TaskTree.

Definition task0 (id : N) (kids : list ref) (st : Status) (p : option ref)
  : Task2.t SpecDate :=
  Task2.set_parent p
    (Task2.set_status st
       (Task2.set_children kids (Task2.init (Concrete 0) (UUID id) "task"))).

(** A task with two children, the first of which has a child. *)
Definition family : Task2.heap SpecDate :=
  <[0 := task0 10 [1; 2] ACTIVE None]>
    (<[1 := task0 11 [3] ACTIVE (Some 0)]>
       (<[2 := task0 12 [] ACTIVE (Some 0)]>
          (<[3 := task0 13 [] ACTIVE (Some 1)]> ∅))).

Definition family_tree : tree :=
  Node 0 [Node 1 [Node 3 []]; Node 2 []].

(** An active task with one child that is already done. *)
Definition done_child : Task2.heap SpecDate :=
  <[0 := task0 10 [1] ACTIVE None]>
    (<[1 := task0 11 [] DONE (Some 0)]> ∅).

(** The tags of the examples: two tag objects named "work" and one
    named "home". *)
Definition some_tags : gmap ref Tag2.t :=
  <[0 := Tag2.init (UUID 20) "work"]>
    (<[1 := Tag2.init (UUID 21) "work"]>
       (<[2 := Tag2.init (UUID 22) "home"]> ∅)).

(** A task with a content and a list of tags. *)
Definition tagged (content : string) (tags : list ref) : Task2.heap SpecDate :=
  <[0 := Task2.set_content content (Task2.set_tags tags (task0 10 [] ACTIVE None))]> ∅.

(** The tag store after [new('work')] and then [new('@work')] on an
    empty store, with the results of the two calls. *)
Definition tags_0 : TagStore.St := (TagStore.init, ∅).
Definition new_work_1 := TagStore.new 1 "work" None tags_0.
Definition new_work_2 := TagStore.new 2 "@work" None (snd new_work_1).

(** A tag "work" with the child tag "office". *)
Definition work_office : gmap ref Tag2.t :=
  <[0 := Tag2.set_children [1] (Tag2.init (UUID 20) "work")]>
    (<[1 := Tag2.set_parent (Some 0) (Tag2.init (UUID 21) "office")]> ∅).

(** A task store with two top-level tasks, the first tagged "office"
    and the second tagged "work", and a child of the first tagged
    "work". *)
Definition tagged_store : @TaskStore.St SpecDate :=
  ({| BaseStore.data := [0; 1];
      BaseStore.lookup := <[UUID 10 := 0]> (<[UUID 11 := 1]> (<[UUID 12 := 2]> ∅)) |},
   <[0 := Task2.set_tags [1] (task0 10 [2] ACTIVE None)]>
     (<[1 := Task2.set_tags [0] (task0 11 [] ACTIVE None)]>
        (<[2 := Task2.set_tags [0] (task0 12 [] ACTIVE (Some 0))]> ∅))).

(** The task store after three [new] calls without parent. *)
Definition store_0 : @TaskStore.St SpecDate := (BaseStore.empty, ∅).
Definition three_roots : @TaskStore.St SpecDate :=
  TaskStore.run_calls
    [TaskStore.CallNew 1 (Concrete 0) "a" None;
     TaskStore.CallNew 2 (Concrete 0) "b" None;
     TaskStore.CallNew 3 (Concrete 0) "c" None]
    store_0.

(** A file system with the data file and seven numbered backups. *)
Definition backups_fs : Datastore2.FS :=
  Datastore2.mkFS
    (<["/gtg/data.xml" := "new"]>
       (list_to_map
          ((fun k => ("/gtg/backup/data.xml.bak." ++ Datastore2.int_str (Z.of_nat k),
                      "old"))
             <$> seq 0 7)))
    {["/gtg"; "/gtg/backup"]} true.




(** A single task without parent or children. *)
Definition single (st : Status) : Task2.heap SpecDate :=
  <[0 := task0 10 [] st None]> ∅.

End Examples.

(** ** More concrete tasks and stores *)

Module MoreExamples.

Import TaskTree Examples.

(** A done task with a done child. *)
Definition done_pair : Task2.heap SpecDate :=
  <[0 := task0 10 [1] DONE None]>
    (<[1 := task0 11 [] DONE (Some 0)]> ∅).

(** The family of the examples with every task done. *)
Definition done_family : Task2.heap SpecDate :=
  <[0 := task0 10 [1; 2] DONE None]>
    (<[1 := task0 11 [3] DONE (Some 0)]>
       (<[2 := task0 12 [] DISMISSED (Some 0)]>
          (<[3 := task0 13 [] DONE (Some 1)]> ∅))).


(** The family of the examples with a dismissed task at the top and a
    done task at the bottom. *)
Definition dismissed_top : Task2.heap SpecDate :=
  <[0 := task0 10 [1; 2] DISMISSED None]>
    (<[1 := task0 11 [3] ACTIVE (Some 0)]>
       (<[2 := task0 12 [] ACTIVE (Some 0)]>
          (<[3 := task0 13 [] DONE (Some 1)]> ∅))).

(** A file system with the directory of the data file, the data file
    and a temporary sibling left over. *)
Definition gtg_fs : Datastore2.FS :=
  Datastore2.mkFS
    (<["/gtg/data.xml" := "old"]> (<["/gtg/data.xml__" := "older"]> ∅))
    {["/gtg"]} true.

End MoreExamples.

(* ------------------------------------------------------------------ *)
(** * Properties *)

Import Examples MoreExamples.

(** ** Monad steps *)

Lemma bind_ok {S A B} (c : M S A) (k : A -> M S B) (s s' : S) (a : A) :
  c s = (Ok a, s') -> bind c k s = k a s'.
Proof. unfold bind. intros ->. reflexivity. Qed.

Lemma bind_ret_snd {S A} (c : M S A) (s : S) :
  snd (bind c (fun _ => ret tt) s) = snd (c s).
Proof. unfold bind. destruct (c s) as [[a|e] s']; reflexivity. Qed.


Lemma deref_ok {E} (h : gmap nat E) (r : nat) (o : E) :
  h !! r = Some o -> deref r h = (Ok o, h).
Proof. unfold deref. intros ->. reflexivity. Qed.

Lemma setattr_ok {E} (h : gmap nat E) (r : nat) (f : E -> E) (o : E) :
  h !! r = Some o -> setattr r f h = (Ok tt, <[r := f o]> h).
Proof. unfold setattr. intros ->. reflexivity. Qed.

(** ** Computations that keep a relation *)

Section Keeps.
Import Frame.
Context {S : Type} (R : S -> S -> Prop) `{!PreOrder R}.

Lemma keeps_ret {A} (a : A) : keeps R (ret a).
Proof. intros s. simpl. reflexivity. Qed.

Lemma keeps_raise {A} (e : exn) : keeps R (@raise S A e).
Proof. intros s. simpl. reflexivity. Qed.

Lemma keeps_bind {A B} (c : M S A) (k : A -> M S B) :
  keeps R c -> (forall a, keeps R (k a)) -> keeps R (bind c k).
Proof.
  intros Hc Hk s. unfold bind. specialize (Hc s).
  destruct (c s) as [[a|e] s']; simpl in *; [|assumption].
  etransitivity; [exact Hc|apply Hk].
Qed.

Lemma keeps_for_each {A} (xs : list A) (body : A -> M S unit) :
  (forall x, keeps R (body x)) -> keeps R (for_each xs body).
Proof.
  intros Hb. induction xs as [|x xs IH]; simpl.
  - apply keeps_ret.
  - apply keeps_bind; auto.
Qed.

Lemma keeps_if {A} (b : bool) (c1 c2 : M S A) :
  keeps R c1 -> keeps R c2 -> keeps R (if b then c1 else c2).
Proof. destruct b; auto. Qed.
End Keeps.

Section HeapRel.
Import Frame.
Context {E : Type} (P : E -> E -> Prop) `{!PreOrder P}.

#[global] Instance heap_rel_preorder : PreOrder (heap_rel P).
Proof.
  split.
  - intros h x. destruct (h !! x); constructor. reflexivity.
  - intros h1 h2 h3 H12 H23 x. specialize (H12 x). specialize (H23 x).
    destruct H12; inversion H23; subst; constructor. etransitivity; eassumption.
Qed.

Lemma keeps_deref (r : nat) : keeps (heap_rel P) (deref r).
Proof. intros h. unfold deref. destruct (h !! r); simpl; reflexivity. Qed.

Lemma keeps_setattr (r : nat) (f : E -> E) :
  (forall o, P o (f o)) -> keeps (heap_rel P) (setattr r f).
Proof.
  intros Hf h. unfold setattr. destruct (h !! r) as [o|] eqn:Ho; simpl;
    [|reflexivity].
  intros x. destruct (decide (x = r)) as [->|Hne].
  - rewrite lookup_insert_eq, Ho. constructor. apply Hf.
  - rewrite lookup_insert_ne by congruence. destruct (h !! x); constructor.
    reflexivity.
Qed.

Lemma heap_rel_lookup (h h' : gmap nat E) (x : nat) (o : E) :
  heap_rel P h h' -> h !! x = Some o -> exists o', h' !! x = Some o' /\ P o o'.
Proof.
  intros Hr Ho. specialize (Hr x). rewrite Ho in Hr. inversion Hr; subst. eauto.
Qed.
End HeapRel.

(** ** Facts on [str.replace] *)

Section StrFacts.
Import Str.

Lemma sapp_nil (r : string) : ("" ++ r)%string = r.
Proof. reflexivity. Qed.

Lemma sapp_cons (a : ascii) (p r : string) :
  (String a p ++ r)%string = String a (p ++ r).
Proof. reflexivity. Qed.

Lemma strip_prefix_spec (p s r : string) :
  strip_prefix p s = Some r <-> s = (p ++ r)%string.
Proof.
  revert s. induction p as [|a p IH]; intros s; simpl.
  - rewrite sapp_nil. split; congruence.
  - rewrite sapp_cons. destruct s as [|b s]; [split; discriminate|].
    destruct (Ascii.eqb_spec a b) as [->|Hne].
    + rewrite IH. split; congruence.
    + split; [discriminate|]. intros [= ? ?]. congruence.
Qed.

Lemma strip_prefix_length (p s r : string) :
  strip_prefix p s = Some r ->
  String.length s = String.length p + String.length r.
Proof.
  intros Hs. apply strip_prefix_spec in Hs as ->.
  induction p; [reflexivity|]. rewrite sapp_cons. simpl. auto.
Qed.

Lemma replace_go_fuel (old new : string) :
  old <> EmptyString ->
  forall n m s, String.length s <= n -> String.length s <= m ->
    replace_go n old new s = replace_go m old new s.
Proof.
  intros Hold. induction n as [|n IH]; intros m s Hn Hm.
  - destruct s; [|simpl in Hn; lia].
    destruct m; [reflexivity|]. simpl.
    destruct old; [congruence|]. reflexivity.
  - destruct m as [|m].
    + destruct s; [|simpl in Hm; lia]. simpl.
      destruct old; [congruence|]. reflexivity.
    + simpl. destruct (strip_prefix old s) as [rest|] eqn:Hp.
      * apply strip_prefix_length in Hp.
        assert (0 < String.length old) by (destruct old; [congruence|simpl; lia]).
        f_equal. apply IH; lia.
      * destruct s as [|c s]; [reflexivity|]. simpl in Hn, Hm.
        f_equal. apply IH; lia.
Qed.

Lemma str_replace_nil (old new : string) :
  old <> EmptyString -> str_replace "" old new = "".
Proof. destruct old; [congruence|reflexivity]. Qed.

Lemma str_replace_match (old new s rest : string) :
  old <> EmptyString ->
  strip_prefix old s = Some rest ->
  str_replace s old new = (new ++ str_replace rest old new)%string.
Proof.
  intros Hold Hp. unfold str_replace. destruct old as [|a old]; [congruence|].
  pose proof (strip_prefix_length _ _ _ Hp) as Hlen. simpl in Hlen.
  rewrite Hlen. simpl replace_go at 1. simpl in Hp. rewrite Hp.
  f_equal. apply replace_go_fuel; [discriminate|lia|lia].
Qed.

Lemma str_replace_skip (old new : string) (c : ascii) (s : string) :
  old <> EmptyString ->
  strip_prefix old (String c s) = None ->
  str_replace (String c s) old new = String c (str_replace s old new).
Proof.
  intros Hold Hp. unfold str_replace. destruct old as [|a old]; [congruence|].
  cbn [String.length replace_go]. rewrite Hp. reflexivity.
Qed.

Lemma str_in_tail (p : string) (c : ascii) (s : string) :
  str_in p (String c s) = false -> str_in p s = false.
Proof.
  simpl. destruct p as [|a p]; [discriminate|].
  destruct (strip_prefix (String a p) (String c s)); [discriminate|auto].
Qed.

Lemma str_in_suffix (p a s : string) :
  str_in p (a ++ s) = false -> str_in p s = false.
Proof.
  induction a; [auto|]. rewrite sapp_cons. intros Hf.
  apply str_in_tail in Hf. auto.
Qed.

Lemma str_in_head (p s : string) :
  str_in p s = false -> strip_prefix p s = None.
Proof.
  destruct s; simpl; destruct (strip_prefix p _); congruence.
Qed.
End StrFacts.

(** ** The content escape *)

Section Escape.
Import Str Content.

Local Abbreviation esc s := (str_replace s "]]>" "]]&gt;").
Local Abbreviation unesc s := (str_replace s "]]&gt;" "]]>").

Lemma esc_match (rest : string) :
  esc ("]]>" ++ rest) = ("]]&gt;" ++ esc rest)%string.
Proof.
  apply str_replace_match; [discriminate|].
  apply strip_prefix_spec. reflexivity.
Qed.

Lemma unesc_match (rest : string) :
  unesc ("]]&gt;" ++ rest) = ("]]>" ++ unesc rest)%string.
Proof.
  apply str_replace_match; [discriminate|].
  apply strip_prefix_spec. reflexivity.
Qed.

(** How the first character of an escaped string came about. *)
Lemma esc_cons_inv (s : string) (c : ascii) (r : string) :
  esc s = String c r ->
  (exists s', s = ("]]>" ++ s')%string /\ c = "]"%char
              /\ r = String "]" (String "&" (String "g" (String "t"
                       (String ";" (esc s'))))))
  \/ (exists s', s = String c s' /\ strip_prefix "]]>" s = None /\ esc s' = r).
Proof.
  intros He. destruct (strip_prefix "]]>" s) as [rest|] eqn:Hp.
  - left. apply strip_prefix_spec in Hp as ->. rewrite esc_match in He.
    injection He as <- <-. eauto.
  - right. destruct s as [|a s].
    + rewrite str_replace_nil in He; discriminate.
    + rewrite str_replace_skip in He; [|discriminate|assumption].
      injection He as <- <-. eauto.
Qed.

Ltac esc_inv H :=
  apply esc_cons_inv in H as [(? & -> & ? & ?)|(? & -> & _ & H)];
  [try discriminate|].

(** The escaped text holds no CDATA terminator, so [CDATA] accepts it. *)
Lemma esc_no_terminator (s : string) : str_in "]]>" (esc s) = false.
Proof.
  remember (String.length s) as n eqn:Hn. revert s Hn.
  induction n as [n IH] using lt_wf_ind. intros s ->.
  destruct (strip_prefix "]]>" s) as [rest|] eqn:Hp.
  - pose proof (strip_prefix_length _ _ _ Hp) as Hlen. simpl in Hlen.
    apply strip_prefix_spec in Hp as ->. rewrite esc_match.
    specialize (IH (String.length rest) ltac:(lia) rest eq_refl).
    simpl. exact IH.
  - destruct s as [|c s].
    + reflexivity.
    + rewrite str_replace_skip; [|discriminate|assumption].
      specialize (IH (String.length s) ltac:(simpl; lia) s eq_refl).
      cbn [str_in]. rewrite IH.
      destruct (strip_prefix "]]>" (String c (esc s))) as [r|] eqn:Hq; [|reflexivity].
      exfalso. apply strip_prefix_spec in Hq. simpl in Hq.
      injection Hq as -> Hq.
      esc_inv Hq. esc_inv Hq.
      simpl in Hp. discriminate.
Qed.

(** Decoding undoes encoding on a text without the escaped form. *)
Lemma unesc_esc (s : string) :
  str_in "]]&gt;" s = false -> unesc (esc s) = s.
Proof.
  remember (String.length s) as n eqn:Hn. revert s Hn.
  induction n as [n IH] using lt_wf_ind. intros s -> Hfree.
  destruct (strip_prefix "]]>" s) as [rest|] eqn:Hp.
  - pose proof (strip_prefix_length _ _ _ Hp) as Hlen. simpl in Hlen.
    apply strip_prefix_spec in Hp as ->.
    rewrite esc_match, unesc_match. f_equal.
    apply (IH (String.length rest)); [lia|reflexivity|].
    eapply str_in_suffix; eassumption.
  - destruct s as [|c s]; [reflexivity|].
    rewrite str_replace_skip; [|discriminate|assumption].
    assert (Hq : strip_prefix "]]&gt;" (String c (esc s)) = None).
    { destruct (strip_prefix "]]&gt;" (String c (esc s))) as [r|] eqn:Hq;
        [|reflexivity].
      exfalso. apply strip_prefix_spec in Hq. simpl in Hq.
      injection Hq as -> Hq.
      esc_inv Hq. esc_inv Hq. esc_inv Hq. esc_inv Hq. esc_inv Hq.
      apply str_in_head in Hfree. simpl in Hfree. discriminate. }
    rewrite (str_replace_skip "]]&gt;"); [|discriminate|assumption].
    f_equal.
    apply (IH (String.length s)); [simpl; lia|reflexivity|].
    eapply str_in_tail; eassumption.
Qed.

(** The escape keeps a test on the characters that the characters
    of the terminator and of its escaped form pass. *)
Lemma esc_all_chars (P : ascii -> bool) (s : string) :
  all_chars P "]]>" = true -> all_chars P "]]&gt;" = true ->
  all_chars P (esc s) = all_chars P s.
Proof.
  intros Hold Hnew.
  remember (String.length s) as n eqn:Hn. revert s Hn.
  induction n as [n IH] using lt_wf_ind. intros s ->.
  destruct (strip_prefix "]]>" s) as [rest|] eqn:Hp.
  - pose proof (strip_prefix_length _ _ _ Hp) as Hlen. simpl in Hlen.
    apply strip_prefix_spec in Hp as ->. rewrite esc_match.
    specialize (IH (String.length rest) ltac:(lia) rest eq_refl).
    rewrite !sapp_cons, !sapp_nil. cbn [all_chars]. rewrite IH.
    cbn [all_chars] in Hold, Hnew.
    repeat (apply andb_prop in Hold as [? Hold]).
    repeat (apply andb_prop in Hnew as [? Hnew]).
    by repeat match goal with H : P _ = true |- _ => rewrite H; clear H end.
  - destruct s as [|c s]; [reflexivity|].
    rewrite str_replace_skip; [|discriminate|assumption].
    simpl. f_equal. by apply (IH (String.length s)); [simpl; lia|].
Qed.

(** A text is in a string of one character when the character is. *)
Lemma str_in_char (c : ascii) (s : string) :
  str_in (String c "") s = negb (all_chars (fun a => negb (Ascii.eqb a c)) s).
Proof.
  induction s as [|a s IH]; [reflexivity|]. simpl.
  rewrite (Ascii.eqb_sym a c). destruct (Ascii.eqb c a); [reflexivity|].
  simpl. exact IH.
Qed.

(** A text without a carriage return has the line ends that the
    parser hands on. *)
Lemma normalize_newlines_id (s : string) :
  all_chars (fun a => negb (Ascii.eqb a "013"%char)) s = true ->
  normalize_newlines s = s.
Proof.
  induction s as [|a s IH]; [reflexivity|]. simpl.
  intros Hs. apply andb_prop in Hs as [Ha Hs].
  apply negb_true_iff in Ha. rewrite Ha. f_equal. by apply IH.
Qed.

Lemma unesc_nil : unesc "" = "".
Proof. reflexivity. Qed.

Lemma content_round_trip_unfold (text : string) :
  content_round_trip text
  = if xml_compatible text
    then Ok (unesc (normalize_newlines (esc text)))
    else Raise ValueError.
Proof.
  unfold content_round_trip, to_xml_content, CDATA, xml_compatible.
  rewrite esc_all_chars by reflexivity. rewrite esc_no_terminator.
  destruct (all_chars xml_char text); [|reflexivity]. cbn [negb].
  unfold from_xml_content, parsed_text.
  destruct (normalize_newlines (esc text)); reflexivity.
Qed.

(** The content of a task comes back from the document unchanged
    whenever its characters are XML compatible and it holds neither
    a carriage return nor the escaped form of the terminator. *)
Lemma content_round_trip_without_escaped_form (text : string) :
  xml_compatible text = true ->
  str_in (String "013"%char "") text = false ->
  str_in "]]&gt;" text = false ->
  content_round_trip text = Ok text.
Proof.
  intros Hxml Hcr Hfree. rewrite content_round_trip_unfold, Hxml.
  rewrite str_in_char in Hcr. apply negb_false_iff in Hcr.
  rewrite normalize_newlines_id by (by rewrite esc_all_chars).
  f_equal. apply unesc_esc. exact Hfree.
Qed.

(** [to_xml] gets the content into the CDATA section exactly when
    its characters are XML compatible. *)
Lemma to_xml_content_unfold (content : string) :
  to_xml_content content
  = if xml_compatible content then Ok (esc content) else Raise ValueError.
Proof.
  unfold to_xml_content, CDATA, xml_compatible.
  rewrite esc_all_chars by reflexivity. rewrite esc_no_terminator.
  by destruct (all_chars xml_char content).
Qed.
End Escape.

(** C1. The round trip of a task's content through the document: the
    claim is that decoding the encoded content gives the content back
    for every text.  On the text that is the escaped form of the CDATA
    terminator, the encoder leaves the text as it is and the decoder
    turns it into the terminator, so the content that comes back
    differs from the content that went in. *)
Theorem content_round_trip_escaped_form_lost :
  Content.to_xml_content "]]&gt;" = Ok "]]&gt;"
  /\ Content.content_round_trip "]]&gt;" = Ok "]]>"
  /\ Content.content_round_trip "]]&gt;" <> Ok "]]&gt;".
Proof. repeat split. discriminate. Qed.

(** ** Trees *)

Section TreeFacts.
Import TaskTree.

Lemma tree_ind' (P : tree -> Prop) :
  (forall r kids, Forall P kids -> P (Node r kids)) -> forall t, P t.
Proof.
  intros Hnode. fix IH 1. intros [r kids]. apply Hnode.
  induction kids as [|k kids IHk]; constructor; [apply IH|exact IHk].
Qed.

Context {Date : Type} `{DateOps Date}.
Implicit Types (h : Task2.heap Date) (f : Task2.t Date -> Task2.t Date).

Lemma alter_all_cons f r rs h :
  alter_all f (r :: rs) h = alter_all f rs (alter f r h).
Proof. reflexivity. Qed.

Lemma alter_all_app f rs1 rs2 h :
  alter_all f (rs1 ++ rs2) h = alter_all f rs2 (alter_all f rs1 h).
Proof. apply fold_left_app. Qed.

Lemma alter_all_notin f rs h r :
  r ∉ rs -> alter_all f rs h !! r = h !! r.
Proof.
  revert h. induction rs as [|x rs IH]; intros h Hnot; [reflexivity|].
  apply not_elem_of_cons in Hnot as [Hne Hnot].
  rewrite alter_all_cons, IH by assumption. apply lookup_alter_ne. congruence.
Qed.

Lemma alter_all_in f rs h r :
  NoDup rs -> r ∈ rs -> alter_all f rs h !! r = f <$> h !! r.
Proof.
  revert h. induction rs as [|x rs IH]; intros h Hnd Hin;
    [by apply elem_of_nil in Hin|].
  apply NoDup_cons in Hnd as [Hx Hnd].
  destruct (decide (r = x)) as [->|Hne].
  - rewrite alter_all_cons, alter_all_notin by assumption. apply lookup_alter_eq.
  - apply elem_of_cons in Hin as [?|Hin]; [contradiction|].
    rewrite alter_all_cons, IH by assumption.
    rewrite lookup_alter_ne by congruence. reflexivity.
Qed.

Lemma shape_alter f r h t :
  (forall k, Task2.children (f k) = Task2.children k) ->
  shape (alter f r h) t = shape h t.
Proof.
  intros Hf. induction t as [x kids IH] using tree_ind'. simpl.
  assert (Hkids : forallb (shape (alter f r h)) kids = forallb (shape h) kids).
  { induction IH as [|k kids Hk _ IHk]; simpl; [reflexivity|]. by rewrite Hk, IHk. }
  destruct (decide (r = x)) as [->|Hne].
  - rewrite lookup_alter_eq. destruct (h !! x) as [k|]; simpl; [|reflexivity].
    by rewrite Hf, Hkids.
  - rewrite lookup_alter_ne by assumption. destruct (h !! x); [|reflexivity].
    by rewrite Hkids.
Qed.

Lemma shape_alter_all f rs h t :
  (forall k, Task2.children (f k) = Task2.children k) ->
  shape (alter_all f rs h) t = shape h t.
Proof.
  intros Hf. revert h. induction rs as [|x rs IH]; intros h; [reflexivity|].
  rewrite alter_all_cons, IH. by apply shape_alter.
Qed.

Lemma height_kid r kids k d :
  height (Node r kids) <= S d -> k ∈ kids -> height k <= d.
Proof.
  simpl. intros Hh Hin.
  assert (height k <= list_max (List.map height kids)); [|lia].
  induction kids as [|k' kids IH]; [set_solver|].
  simpl. apply elem_of_cons in Hin as [->|Hin]; [lia|].
  specialize (IH ltac:(simpl in Hh; lia) Hin). lia.
Qed.
End TreeFacts.

(** ** Closing a tree of active tasks *)

Section Cascade.
Import TaskTree.
Context {Date : Type} `{DateOps Date}.
Implicit Types (h : Task2.heap Date).

Lemma toggle_status_active d today r h k :
  h !! r = Some k -> Task2.status k = ACTIVE ->
  Task2.toggle_status (S d) today r true h
  = for_each (Task2.children k)
      (fun child => Task2.toggle_status d today child true)
      (alter (closed_on today) r h).
Proof.
  intros Hk Hact. cbn [Task2.toggle_status].
  rewrite (bind_ok _ _ _ _ _ (deref_ok _ _ _ Hk)).
  destruct (decide (Task2.status k = ACTIVE)) as [_|]; [|contradiction].
  erewrite bind_ok; cycle 1.
  { erewrite bind_ok; [|apply (setattr_ok _ _ _ _ Hk)].
    apply setattr_ok. apply lookup_insert_eq. }
  rewrite insert_insert_eq.
  erewrite bind_ok; [|apply deref_ok, lookup_insert_eq].
  f_equal. apply map_eq. intros x. destruct (decide (x = r)) as [->|Hne].
  - rewrite lookup_insert_eq, lookup_alter_eq, Hk. reflexivity.
  - rewrite lookup_insert_ne, lookup_alter_ne by congruence. reflexivity.
Qed.

Lemma toggle_status_tree today (t : tree) :
  forall d h,
    height t <= d ->
    shape h t = true ->
    NoDup (nodes t) ->
    (forall r, r ∈ nodes t -> status_at h r = Some ACTIVE) ->
    Task2.toggle_status d today (root t) true h
    = (Ok tt, alter_all (closed_on today) (nodes t) h).
Proof.
  induction t as [r kids IH] using tree_ind'.
  intros d h Hd Hshape Hnd Hact.
  destruct d as [|d]; [simpl in Hd; lia|].
  simpl in Hshape. destruct (h !! r) as [k|] eqn:Hk; [|discriminate].
  apply andb_prop in Hshape as [Hkids Hshape].
  apply bool_decide_eq_true in Hkids.
  assert (Hks : Task2.status k = ACTIVE).
  { specialize (Hact r ltac:(simpl; set_solver)). unfold status_at in Hact.
    rewrite Hk in Hact. simpl in Hact. congruence. }
  rewrite (toggle_status_active _ _ _ _ _ Hk Hks). rewrite Hkids.
  cbn [root nodes]. rewrite alter_all_cons.
  simpl in Hnd. apply NoDup_cons in Hnd as [Hr Hnd].
  assert (Hact' : forall x, x ∈ flat_map nodes kids ->
              status_at (alter (closed_on today) r h) x = Some ACTIVE).
  { intros x Hx. unfold status_at. rewrite lookup_alter_ne by set_solver.
    apply Hact. simpl. set_solver. }
  assert (Hshape' : forallb (shape (alter (closed_on today) r h)) kids = true).
  { rewrite <- Hshape. clear. induction kids as [|a kids IHk]; [reflexivity|].
    simpl. rewrite IHk. f_equal. by apply shape_alter. }
  assert (Hh : forall k0, k0 ∈ kids -> height k0 <= d)
    by (intros; eapply height_kid; eassumption).
  clear Hk Hkids Hshape Hact Hr Hd Hks.
  generalize dependent (alter (closed_on today) r h). clear h.
  induction IH as [|k0 kids Hk0 _ IHkids]; intros h Hact Hshape; [reflexivity|].
  simpl in Hshape. apply andb_prop in Hshape as [Hs0 Hshape].
  simpl in Hnd. apply NoDup_app in Hnd as (Hnd0 & Hdisj & Hnd).
  cbn [List.map for_each flat_map].
  erewrite bind_ok; cycle 1.
  { apply Hk0; [apply Hh; set_solver|assumption|assumption|].
    intros x Hx. apply Hact. simpl. set_solver. }
  rewrite alter_all_app. apply IHkids.
  - assumption.
  - intros; apply Hh; set_solver.
  - intros x Hx. unfold status_at. rewrite alter_all_notin.
    + apply Hact. simpl. set_solver.
    + intros Hin. exact (Hdisj _ Hin Hx).
  - rewrite <- Hshape. clear. induction kids as [|a kids IHk]; [reflexivity|].
    simpl. rewrite IHk. f_equal. by apply shape_alter_all.
Qed.
End Cascade.

(** C4, as amended.  [toggle_status] (propagating) on an active task
    whose descendants form a tree of active tasks returns, and it sets
    the status of the task and of every descendant to Done and their
    closing date to today; no other task changes. *)
Theorem toggle_status_closes_active_tree
  {Date : Type} `{DateOps Date} (today : Date)
  (t : TaskTree.tree) (h : Task2.heap Date) (d : nat) :
  TaskTree.height t <= d ->
  TaskTree.shape h t = true ->
  NoDup (TaskTree.nodes t) ->
  Forall (fun r => TaskTree.status_at h r = Some ACTIVE) (TaskTree.nodes t) ->
  exists h',
    Task2.toggle_status d today (TaskTree.root t) true h = (Ok tt, h')
    /\ (forall r, r ∈ TaskTree.nodes t ->
          exists k, h !! r = Some k
                    /\ h' !! r = Some (TaskTree.closed_on today k)
                    /\ Task2.status (TaskTree.closed_on today k) = DONE
                    /\ Task2.date_closed (TaskTree.closed_on today k) = today)
    /\ (forall r, r ∉ TaskTree.nodes t -> h' !! r = h !! r).
Proof.
  intros Hd Hshape Hnd Hact. rewrite Forall_forall in Hact.
  eexists. split; [apply toggle_status_tree; assumption|]. split.
  - intros r Hr. specialize (Hact r Hr). unfold TaskTree.status_at in Hact.
    destruct (h !! r) as [k|] eqn:Hk; [|discriminate].
    exists k. split; [reflexivity|]. split; [|split; reflexivity].
    rewrite alter_all_in, Hk by assumption. reflexivity.
  - intros r Hr. by apply alter_all_notin.
Qed.


Lemma toggle_status_closes_active_tree_witness :
  TaskTree.height family_tree <= 3
  /\ TaskTree.shape family family_tree = true
  /\ exists h',
    Task2.toggle_status 3 (Concrete 7) 0 true family = (Ok tt, h')
    /\ (forall r, r ∈ TaskTree.nodes family_tree ->
          exists k, family !! r = Some k
                    /\ h' !! r = Some (TaskTree.closed_on (Concrete 7) k)
                    /\ Task2.status (TaskTree.closed_on (Concrete 7) k) = DONE
                    /\ Task2.date_closed (TaskTree.closed_on (Concrete 7) k)
                       = Concrete 7)
    /\ (forall r, r ∉ TaskTree.nodes family_tree -> h' !! r = family !! r).
Proof.
  split; [vm_compute; lia|]. split; [reflexivity|].
  apply (toggle_status_closes_active_tree (Concrete 7) family_tree family 3).
  - vm_compute. lia.
  - reflexivity.
  - compute_done.
  - compute_done.
Defined.

(** C4, the claim as stated fails: with a child that is already done,
    the call reopens the child, and the reopened child reopens the
    task, so that neither ends up Done. *)
Lemma toggle_status_done_child_counterexample :
  TaskTree.status_at done_child 0 = Some ACTIVE
  /\ fst (Task2.toggle_status 5 (Concrete 7) 0 true done_child) = Ok tt
  /\ TaskTree.status_at
       (snd (Task2.toggle_status 5 (Concrete 7) 0 true done_child)) 0
     = Some ACTIVE
  /\ TaskTree.status_at
       (snd (Task2.toggle_status 5 (Concrete 7) 0 true done_child)) 1
     = Some ACTIVE.
Proof. vm_compute. repeat split. Qed.

(** ** Dismissed tasks under [dismiss] and [toggle_status] *)

Section Dismiss.
Import Frame TaskTree.
Context {Date : Type} `{DateOps Date}.

#[local] Instance stays_dismissed_preorder : PreOrder (@stays_dismissed Date).
Proof. split; unfold stays_dismissed; [intros k; auto|intros k1 k2 k3; auto]. Qed.

#[local] Instance stays_active_preorder : PreOrder (@stays_active Date).
Proof. split; unfold stays_active; [intros k; auto|intros k1 k2 k3; auto]. Qed.

Lemma dismiss_keeps (d : nat) (r : nat) :
  keeps (heap_rel (@stays_dismissed Date)) (Task2.dismiss d r).
Proof.
  revert r. induction d as [|d IH]; intros r; simpl.
  - apply keeps_raise; apply _.
  - apply keeps_bind; [apply _|..].
    + apply keeps_setattr; [apply _|]. intros o _. reflexivity.
    + intros _. apply keeps_bind; [apply _|apply keeps_deref; apply _|].
      intros me. apply keeps_for_each; [apply _|]. intros c. apply IH.
Qed.

Lemma run_dismissals_keeps (calls : list (nat * nat)) (h : Task2.heap Date) :
  heap_rel (@stays_dismissed Date) h (TaskCalls.run_dismissals calls h).
Proof.
  revert h. induction calls as [|[d r] calls IH]; intros h; simpl.
  - reflexivity.
  - etransitivity; [apply (dismiss_keeps d r h)|apply IH].
Qed.

(** One call of a non-propagating [toggle_status] on a task that is
    not active: the task is reopened, and the call ends there or goes
    on with the same call on a parent that is not active. *)
Lemma toggle_status_reopen_step today (d : nat) (r : nat)
      (h : Task2.heap Date) (k : Task2.t Date) :
  h !! r = Some k -> Task2.status k <> ACTIVE ->
  let h1 := <[r := reopened k]> h in
  snd (Task2.toggle_status (S d) today r false h) = h1
  \/ exists p po, h1 !! p = Some po /\ Task2.status po <> ACTIVE
       /\ snd (Task2.toggle_status (S d) today r false h)
          = snd (Task2.toggle_status d today p false h1).
Proof.
  intros Hk Hna h1. cbn [Task2.toggle_status].
  rewrite (bind_ok _ _ _ _ _ (deref_ok _ _ _ Hk)).
  destruct (decide (Task2.status k = ACTIVE)) as [|_]; [contradiction|].
  rewrite bind_ret_snd.
  erewrite bind_ok; [|apply (setattr_ok _ _ _ _ Hk)].
  erewrite bind_ok; [|apply setattr_ok, lookup_insert_eq].
  rewrite insert_insert_eq. fold (reopened k). fold h1.
  erewrite bind_ok; [|apply deref_ok, lookup_insert_eq].
  destruct (Task2.parent (reopened k)) as [p|]; [|by left].
  unfold bind, deref. destruct (h1 !! p) as [po|] eqn:Hp; [|by left].
  destruct (bool_decide (Task2.status po = ACTIVE)) eqn:Hs; simpl; [by left|].
  right. exists p, po. apply bool_decide_eq_false in Hs. auto.
Qed.

Lemma toggle_status_reopens today (d : nat) :
  forall (r : nat) (h : Task2.heap Date) (k : Task2.t Date),
    h !! r = Some k -> Task2.status k <> ACTIVE ->
    heap_rel (@stays_active Date) h
             (snd (Task2.toggle_status (S d) today r false h))
    /\ status_at (snd (Task2.toggle_status (S d) today r false h)) r
       = Some ACTIVE.
Proof.
  assert (Hfirst : forall r (h : Task2.heap Date) k,
            h !! r = Some k -> Task2.status k <> ACTIVE ->
            heap_rel (@stays_active Date) h (<[r := reopened k]> h)
            /\ status_at (<[r := reopened k]> h) r = Some ACTIVE).
  { intros r h k Hk Hna. split.
    - intros x. destruct (decide (x = r)) as [->|Hne].
      + rewrite lookup_insert_eq, Hk. constructor. intros ?. contradiction.
      + rewrite lookup_insert_ne by congruence.
        destruct (h !! x); constructor. reflexivity.
    - unfold status_at. by rewrite lookup_insert_eq. }
  induction d as [|d IH]; intros r h k Hk Hna;
    destruct (Hfirst r h k Hk Hna) as [Hrel Hact].
  { destruct (toggle_status_reopen_step today 0 r h k Hk Hna)
      as [->|(p & po & Hp & Hpna & ->)]; split; assumption. }
  destruct (toggle_status_reopen_step today (S d) r h k Hk Hna)
    as [->|(p & po & Hp & Hpna & ->)]; [split; assumption|].
  destruct (IH p _ po Hp Hpna) as [Hrel' _]. split.
  - etransitivity; eassumption.
  - unfold status_at in *.
    destruct (<[r:=reopened k]> h !! r) as [k1|] eqn:Hk1; [|discriminate].
    destruct (heap_rel_lookup _ _ _ _ _ Hrel' Hk1) as (k2 & -> & Hst).
    simpl in *. f_equal. apply Hst. congruence.
Qed.
End Dismiss.

(** ** The content of a task under [remove_tag] *)

Section RemoveTag.
Import Frame TaskTree.
Context {Date : Type} `{DateOps Date}.

#[local] Instance same_content_preorder : PreOrder (@same_content Date).
Proof.
  split; unfold same_content; [intros k; reflexivity|].
  intros k1 k2 k3 H12 H23. congruence.
Qed.

Lemma remove_tag_scan_keeps tag_objs (n i r : nat) (tag_name : string) :
  keeps (heap_rel (@same_content Date))
        (Task2.remove_tag_scan tag_objs n i r tag_name).
Proof.
  revert i. induction n as [|n IH]; intros i; simpl.
  - apply keeps_ret; apply _.
  - apply keeps_bind; [apply _|apply keeps_deref; apply _|]. intros me.
    destruct (Task2.tags me !! i) as [tg|]; [|apply keeps_ret; apply _].
    destruct (tag_objs !! tg) as [g|]; [|apply keeps_raise; apply _].
    apply keeps_bind; [apply _| |intros _; apply IH].
    destruct (String.eqb (Tag2.name g) tag_name); [|apply keeps_ret; apply _].
    apply keeps_bind; [apply _|..].
    + destruct (list_remove_first tg (Task2.tags me));
        [|apply keeps_raise; apply _].
      apply keeps_setattr; [apply _|]. intros o. reflexivity.
    + intros _. apply keeps_bind; [apply _|apply keeps_deref; apply _|].
      intros me'. apply keeps_ret; apply _.
Qed.

(** [remove_tag] leaves the content of every task as it was. *)
Lemma remove_tag_keeps_content tag_objs (d r : nat) (tag_name : string) :
  keeps (heap_rel (@same_content Date))
        (Task2.remove_tag tag_objs d r tag_name).
Proof.
  revert r. induction d as [|d IH]; intros r; simpl.
  - apply keeps_raise; apply _.
  - apply keeps_bind; [apply _|apply keeps_deref; apply _|]. intros me.
    apply keeps_bind; [apply _|apply remove_tag_scan_keeps|]. intros _.
    apply keeps_bind; [apply _|apply keeps_deref; apply _|]. intros me'.
    apply keeps_for_each; [apply _|]. intros c. apply IH.
Qed.
End RemoveTag.

(** C9.  [remove_tag] on a task that carries the tag and names it in
    its content: the call returns and the tag is detached, but the
    content is what it was, while the text with the three patterns
    removed would differ from it.  On a task with two tags of the
    name next to each other, the second one stays attached. *)
Theorem remove_tag_leaves_content_and_next_tag :
  (let out := Task2.remove_tag some_tags 5 0 "work" (tagged "work, buy milk" [0]) in
   fst out = Ok tt
   /\ Task2.tags <$> snd out !! 0 = Some []
   /\ Task2.content <$> snd out !! 0 = Some "work, buy milk"
   /\ Task2.tag_text_removed "work, buy milk" "work" = " buy milk")
  /\ (let out := Task2.remove_tag some_tags 5 0 "work" (tagged "" [0; 1]) in
      fst out = Ok tt
      /\ Task2.tags <$> snd out !! 0 = Some [1]
      /\ Tag2.name <$> some_tags !! 1 = Some "work").
Proof. vm_compute. repeat split. Qed.

(** ** The task store *)

(** C2.  The tree invariant holds after three [new] calls without
    parent.  A [parent] call with an unknown parent identifier then
    raises [KeyError] after it has taken the task out of [data]: the
    task is still in [lookup] and is in neither [data] nor a children
    list.  And two [parent] calls that both return put a task into the
    children lists of two tasks. *)
Theorem parent_breaks_tree_invariant :
  TaskStore.tree_invariant three_roots = true
  /\ (let out := TaskStore.parent (UUID 3) (UUID 9) three_roots in
      fst out = Raise KeyError
      /\ BaseStore.lookup (fst (snd out)) !! UUID 3 = Some 2
      /\ TaskStore.in_data (snd out) 2 = 0
      /\ TaskStore.in_children (snd out) 2 = 0
      /\ TaskStore.tree_invariant (snd out) = false)
  /\ (let st := TaskStore.run_calls
                  [TaskStore.CallParent (UUID 3) (UUID 1);
                   TaskStore.CallParent (UUID 3) (UUID 2)] three_roots in
      fst (TaskStore.parent (UUID 3) (UUID 1) three_roots) = Ok tt
      /\ fst (TaskStore.parent (UUID 3) (UUID 2)
                (snd (TaskStore.parent (UUID 3) (UUID 1) three_roots))) = Ok tt
      /\ TaskStore.in_children st 2 = 2
      /\ TaskStore.tree_invariant st = false).
Proof. vm_compute. repeat split. Qed.

(** ** The tag store *)

Section TagStoreNew.
(** [new] without a parent, on a store whose [lookup] has no entry
    under the name as a key, makes a new tag object, whatever
    [lookup_names] holds. *)
Lemma new_makes_tag (uuid : N) (name : string) (st : TagStore.St) :
  let name' := if negb (Str.startswith name "@") then name else Str.tail1 name in
  BaseStore.lookup (TagStore.base (fst st)) !! StrKey name' = None ->
  let r := fresh (dom (snd st)) in
  fst (TagStore.new uuid name None st) = Ok r
  /\ (r ∉ dom (snd st))
  /\ (snd (snd (TagStore.new uuid name None st))) !! r
     = Some (Tag2.init (UUID uuid) name')
  /\ BaseStore.data (TagStore.base (fst (snd (TagStore.new uuid name None st))))
     = (BaseStore.data (TagStore.base (fst st)) ++ [r])%list.
Proof.
  intros name' Hnone r. destruct st as [s h]. simpl in *.
  unfold TagStore.new. fold name'.
  unfold try_except, TagStore.on_base, zoom, BaseStore.lookup_getitem,
    BaseStore.on_store, zoom. simpl. rewrite Hnone. simpl.
  split; [reflexivity|]. split; [apply is_fresh|].
  split; [apply lookup_insert_eq|reflexivity].
Qed.
End TagStoreNew.

(** C3.  On an empty store, [new('work')] and then [new('@work')]: the
    second call does not return the tag of the first one but makes a
    second tag with the name, and the store holds two tags named
    "work"; [find('work')] raises [KeyError], as neither call recorded
    the name. *)
Theorem new_twice_makes_two_tags :
  fst new_work_1 = Ok 0
  /\ fst new_work_2 = Ok 1
  /\ Tag2.name <$> snd (snd new_work_2) !! 0 = Some "work"
  /\ Tag2.name <$> snd (snd new_work_2) !! 1 = Some "work"
  /\ TagStore.named "work" (snd new_work_2) = [0; 1]
  /\ BaseStore.count (TagStore.base (fst (snd new_work_2))) = 2
  /\ fst (TagStore.find "work" (snd new_work_2)) = Raise KeyError.
Proof. vm_compute. repeat split. Qed.

(** ** Filtering by tag *)

Section FilterTag.
Context {Date : Type} `{DateOps Date}.

Lemma tag_names_spec (tag_objs : gmap nat Tag2.t) (k : Task2.t Date)
      (tag_name : string) :
  tag_name ∈ TaskStore.tag_names tag_objs k <->
  exists tg g, tg ∈ Task2.tags k /\ tag_objs !! tg = Some g
    /\ (Tag2.name g = tag_name
        \/ exists c gc, c ∈ Tag2.children g /\ tag_objs !! c = Some gc
             /\ Tag2.name gc = tag_name).
Proof.
  unfold TaskStore.tag_names. rewrite elem_of_app, list_elem_of_omap.
  rewrite list_elem_of_In, in_flat_map. split.
  - intros [(tg & Hin & Hn)|(tg & Hin & Hc)].
    + destruct (tag_objs !! tg) as [g|] eqn:Hg; [|discriminate].
      injection Hn as <-. exists tg, g. auto.
    + apply list_elem_of_In in Hin, Hc.
      destruct (tag_objs !! tg) as [g|] eqn:Hg; [|by apply elem_of_nil in Hc].
      apply list_elem_of_omap in Hc as (c & Hcin & Hn).
      destruct (tag_objs !! c) as [gc|] eqn:Hgc; [|discriminate].
      injection Hn as <-. exists tg, g. split; [assumption|].
      split; [exact Hg|]. right. exists c, gc. auto.
  - intros (tg & g & Hin & Hg & [Hn|(c & gc & Hcin & Hgc & Hn)]).
    + left. exists tg. rewrite Hg. simpl. split; congruence.
    + right. exists tg. split; [by apply list_elem_of_In|].
      rewrite Hg. apply list_elem_of_In, list_elem_of_omap.
      exists c. rewrite Hgc. simpl. split; congruence.
Qed.

(** The list case of [filter]: the loop starts from the empty list
    and intersects with it, so its result is empty for every list of
    names. *)
Lemma filter_tag_list_empty (tag_objs : gmap nat Tag2.t)
      (st : @TaskStore.St Date) (names : list string) :
  TaskStore.filter_tag_list tag_objs st [] names = [].
Proof.
  induction names as [|n names IH]; [reflexivity|].
  cbn [TaskStore.filter_tag_list].
  replace (elements _) with (@nil nat); [exact IH|].
  symmetry. apply elements_empty_iff. set_solver.
Qed.

(** Every call of [filter] with a filter type other than [STATUS]
    raises [AttributeError]: the chain of conditions reads
    [Filter.ROOT], which [Filter] does not have. *)
Lemma filter_raises (tag_objs : gmap nat Tag2.t) (st : @TaskStore.St Date)
      (filter_type : Filter) (arg : TaskStore.Arg) :
  filter_type <> STATUS ->
  TaskStore.filter tag_objs st filter_type arg = Raise AttributeError.
Proof.
  intros Hne. unfold TaskStore.filter. simpl.
  rewrite bool_decide_eq_false_2 by assumption. reflexivity.
Qed.
End FilterTag.

(** The inner function [filter_tag], which the tag branch of [filter]
    calls: it returns the tasks of [data], in the order of [data], that
    have an attached tag with the name or an attached tag with a child
    tag of the name. *)
Lemma filter_tag_members
  {Date : Type} `{DateOps Date} (tag_objs : gmap nat Tag2.t)
  (st : @TaskStore.St Date) (tag_name : string) :
  (forall r : nat,
      r ∈ TaskStore.filter_tag tag_objs st tag_name <->
      r ∈ BaseStore.data (fst st)
      /\ exists k, snd st !! r = Some k
           /\ exists tg g, tg ∈ Task2.tags k /\ tag_objs !! tg = Some g
                /\ (Tag2.name g = tag_name
                    \/ exists c gc, c ∈ Tag2.children g
                         /\ tag_objs !! c = Some gc
                         /\ Tag2.name gc = tag_name))
  /\ sublist (TaskStore.filter_tag tag_objs st tag_name) (BaseStore.data (fst st)).
Proof.
  split.
  - intros r. unfold TaskStore.filter_tag.
    rewrite list_elem_of_In, filter_In, <- list_elem_of_In.
    unfold TaskStore.tag_match. split.
    + intros [Hin Hm]. split; [assumption|].
      destruct (snd st !! r) as [k|]; [|discriminate].
      exists k. split; [reflexivity|].
      apply bool_decide_eq_true in Hm. by apply tag_names_spec.
    + intros [Hin (k & -> & Hk)]. split; [assumption|].
      apply bool_decide_eq_true. by apply tag_names_spec.
  - unfold TaskStore.filter_tag.
    induction (BaseStore.data (fst st)) as [|x l IH]; simpl; [constructor|].
    destruct (TaskStore.tag_match tag_objs (snd st) tag_name x);
      by constructor.
Qed.

(** C7.  [filter] with the tag filter and a tag name raises
    [AttributeError], for every store and every name, and so returns
    no task: the chain of conditions reads [Filter.ROOT] before it
    comes to the tag branch, and [Filter] has no member of that name.
    In the store here task 1 is in [data] and carries the tag "work",
    and the call for "work" raises. *)
Theorem filter_tag_name_raises :
  (forall (Date : Type) (ops : DateOps Date) (tag_objs : gmap nat Tag2.t)
          (st : @TaskStore.St Date) (tag_name : string),
      TaskStore.filter tag_objs st TAG (TaskStore.ArgStr tag_name)
      = Raise AttributeError)
  /\ Filter_attr "ROOT" = Raise AttributeError
  /\ 1 ∈ BaseStore.data (fst tagged_store)
  /\ Task2.tags <$> snd tagged_store !! 1 = Some [0]
  /\ Tag2.name <$> work_office !! 0 = Some "work"
  /\ TaskStore.filter work_office tagged_store TAG (TaskStore.ArgStr "work")
     = Raise AttributeError.
Proof.
  split.
  - intros Date ops tag_objs st tag_name. by apply filter_raises.
  - split; [reflexivity|]. split; [compute_done|]. vm_compute. repeat split.
Qed.

(** C8.  [filter] with the tag filter and a list of names raises
    [AttributeError], for every store and list; and its loop over the
    names gives the empty list for every list of names, also where the
    single-tag filters have a task in common, as for the list with the
    one name "work" here. *)
Theorem filter_tag_list_never_intersects :
  (forall (tag_objs : gmap nat Tag2.t) (st : @TaskStore.St SpecDate)
          (names : list string),
      TaskStore.filter tag_objs st TAG (TaskStore.ArgList names)
      = Raise AttributeError
      /\ TaskStore.filter_tag_list tag_objs st [] names = [])
  /\ TaskStore.filter_tag work_office tagged_store "work" = [1]
  /\ TaskStore.filter_tag_list work_office tagged_store [] ["work"] = [].
Proof.
  split.
  - intros tag_objs st names. split.
    + by apply filter_raises.
    + apply filter_tag_list_empty.
  - vm_compute. split; reflexivity.
Qed.

(** ** Backups *)

(** C10.  [write_backups] raises [AttributeError] at its first
    statement, for every path, date and file system, and leaves the
    file system as it was: no generation is shifted and no copy is
    written.  The class has [BACKUPS_NUMBER], with the value 7, and no
    attribute [BACKUPS]. *)
Theorem write_backups_raises (today path : string) (fs : Datastore2.FS) :
  Datastore2.write_backups today path fs = (Raise AttributeError, fs)
  /\ Datastore2.getattr "BACKUPS_NUMBER" fs = (Ok (Datastore2.IntAttr 7), fs).
Proof. split; reflexivity. Qed.

(** The loop of [write_backups], run from 7 on seven generations
    [.bak.0] to [.bak.6]: it moves [.bak.6] to [.bak.7]. *)
Lemma cycle_backups_from_seven :
  Datastore2.generations "/gtg/backup/data.xml" 10 backups_fs
  = [0; 1; 2; 3; 4; 5; 6]
  /\ Datastore2.generations "/gtg/backup/data.xml" 10
       (snd (Datastore2.cycle_backups "/gtg/backup/data.xml" 7 backups_fs))
     = [1; 2; 3; 4; 5; 6; 7].
Proof. vm_compute. split; reflexivity. Qed.

(** ** The due date setter *)

Section DueDate.
Import Frame TaskTree.
Context {Date : Type} `{DateOps Date} `{!DateLaws Date}.
Implicit Types (h : Task2.heap Date) (k : Task2.t Date) (value : Date).

#[local] Instance due_changed_preorder value : PreOrder (due_changed value).
Proof.
  split.
  - intros k. by left.
  - intros k1 k2 k3 [->| ->] [->| ->]; unfold due_changed; auto.
Qed.



Lemma due_changed_due value k k' :
  due_changed value k k' ->
  Task2.due_date k' = Task2.due_date k \/ Task2.due_date k' = value.
Proof. intros [->| ->]; auto. Qed.





Lemma closed_parent h (x p : nat) k :
  closed h -> h !! x = Some k -> Task2.parent k = Some p -> is_Some (h !! p).
Proof.
  intros Hc Hk Hp. specialize (Hc x k Hk). cbv beta in Hc.
  apply andb_prop in Hc as [_ Hpar]. rewrite Hp in Hpar.
  by apply bool_decide_eq_true in Hpar.
Qed.

(** Every write of the setter, at any depth, sets a due date to
    [value] and nothing else. *)
Lemma due_date_setter_keeps value (d : nat) (x : nat) :
  keeps (heap_rel (due_changed value)) (Task2.due_date_setter d x value).
Proof.
  revert x. induction d as [|d IH]; intros x; simpl.
  - apply keeps_raise; apply _.
  - apply keeps_bind; [apply _|..].
    + apply keeps_setattr; [apply _|]. intros o. by right.
    + intros _. apply keeps_if; [apply keeps_ret; apply _|].
      apply keeps_bind; [apply _|apply keeps_deref; apply _|]. intros me.
      apply keeps_bind; [apply _|..].
      * apply keeps_for_each; [apply _|]. intros c.
        apply keeps_bind; [apply _|apply keeps_deref; apply _|]. intros kc.
        apply keeps_if; [apply IH|apply keeps_ret; apply _].
      * intros _.
        apply keeps_bind; [apply _|apply keeps_deref; apply _|]. intros me'.
        destruct (Task2.parent me') as [p|]; [|apply keeps_ret; apply _].
        apply keeps_bind; [apply _|apply keeps_deref; apply _|]. intros po.
        apply keeps_if; [apply IH|apply keeps_ret; apply _].
Qed.

(** The body of the loop over the children and the step on the
    parent, as they stand in the setter. *)
Local Abbreviation child_body d value :=
  (fun child : nat =>
     c <- deref child;;
     if Task2.later_concrete value c
     then Task2.due_date_setter d child value
     else ret tt).

Local Abbreviation parent_step d value x :=
  (me <- deref x;;
   match Task2.parent me with
   | Some p =>
       po <- deref p;;
       if Task2.earlier_fuzzy value po
       then Task2.due_date_setter d p value
       else ret tt
   | None => ret tt
   end).










End DueDate.

#[global] Instance SpecDate_laws : DateLaws SpecDate.
Proof.
  split. intros d. simpl. unfold spec_lt.
  destruct (spec_rank d) as [a b].
  rewrite !Z.ltb_irrefl. by rewrite andb_false_r.
Qed.




(** ** Walks over a task tree *)

Section TreeWalk.
Import Frame TaskTree TaskFrames.
Context {Date : Type} `{DateOps Date}.
Implicit Types (h : Task2.heap Date) (k : Task2.t Date).

(** A method that updates its task by [f] when the task meets [C]
    and then calls itself on the children. *)
Context (walk : nat -> nat -> M (Task2.heap Date) unit)
        (f : Task2.t Date -> Task2.t Date) (C : Task2.t Date -> Prop).
Context (walk_step : forall d r h k,
            h !! r = Some k -> C k ->
            walk (S d) r h
            = for_each (Task2.children k) (walk d) (alter f r h)).
Context (f_children : forall k, Task2.children (f k) = Task2.children k).

Local Abbreviation meets h r := (exists k, h !! r = Some k /\ C k).

Lemma meets_alter_all (stable : Prop) (rs : list nat) h (r : nat) :
  (stable -> forall k, C k -> C (f k)) ->
  r ∉ rs \/ stable -> meets h r -> meets (alter_all f rs h) r.
Proof.
  intros Hst Hcase. revert h. induction rs as [|x rs IH]; intros h Hm; [exact Hm|].
  rewrite alter_all_cons. apply IH.
  - destruct Hcase as [Hnot|?]; [|by right].
    left. by apply not_elem_of_cons in Hnot as [_ ?].
  - destruct Hm as (k & Hk & HC). destruct (decide (x = r)) as [->|Hne].
    + exists (f k). rewrite lookup_alter_eq, Hk. split; [reflexivity|].
      destruct Hcase as [Hnot|Hs]; [|by apply Hst].
      exfalso. apply Hnot. by left.
    + exists k. by rewrite lookup_alter_ne.
Qed.

Lemma walk_tree (stable : Prop) (t : tree) :
  (stable -> forall k, C k -> C (f k)) ->
  forall d h,
    height t <= d ->
    shape h t = true ->
    NoDup (nodes t) \/ stable ->
    Forall (fun r => meets h r) (nodes t) ->
    walk d (root t) h = (Ok tt, alter_all f (nodes t) h).
Proof.
  intros Hst. induction t as [r kids IH] using tree_ind'.
  intros d h Hd Hshape Hcase Hall.
  destruct d as [|d]; [simpl in Hd; lia|].
  simpl in Hshape. destruct (h !! r) as [k|] eqn:Hk; [|discriminate].
  apply andb_prop in Hshape as [Hkids Hshape].
  apply bool_decide_eq_true in Hkids.
  cbn [nodes] in Hall. apply Forall_cons in Hall as [(k0 & Hk0 & HC) Hall].
  rewrite Hk in Hk0. injection Hk0 as <-.
  cbn [root nodes]. rewrite (walk_step _ _ _ _ Hk HC), Hkids, alter_all_cons.
  assert (Hcase' : NoDup (flat_map nodes kids) \/ stable).
  { destruct Hcase as [Hnd|?]; [|by right].
    left. simpl in Hnd. by apply NoDup_cons in Hnd as [_ ?]. }
  assert (Hall' : Forall (fun x => meets (alter f r h) x) (flat_map nodes kids)).
  { rewrite Forall_forall in *. intros x Hx.
    apply (meets_alter_all stable [r] h x Hst); [|by apply Hall].
    destruct Hcase as [Hnd|?]; [|by right]. left.
    simpl in Hnd. apply NoDup_cons in Hnd as [Hr _].
    intros Hin. apply list_elem_of_singleton in Hin as ->. contradiction. }
  assert (Hshape' : forallb (shape (alter f r h)) kids = true).
  { rewrite <- Hshape. clear -f_children.
    induction kids as [|a kids IHk]; [reflexivity|].
    simpl. rewrite IHk. f_equal. by apply shape_alter. }
  assert (Hh : forall kid : tree, kid ∈ kids -> height kid <= d)
    by (intros; eapply height_kid; eassumption).
  clear Hk Hkids Hshape Hall Hcase Hd HC.
  generalize dependent (alter f r h). clear h.
  induction IH as [|t0 kids Hk0 _ IHkids]; intros h Hall Hshape; [reflexivity|].
  simpl in Hshape. apply andb_prop in Hshape as [Hs0 Hshape].
  cbn [flat_map] in Hall. apply Forall_app in Hall as [Hall0 Hall].
  cbn [List.map for_each flat_map].
  erewrite bind_ok; cycle 1.
  { apply Hk0; [apply Hh; by left|assumption| |assumption].
    destruct Hcase' as [Hnd|?]; [|by right].
    left. simpl in Hnd. by apply NoDup_app in Hnd as (? & _ & _). }
  rewrite alter_all_app. apply IHkids.
  - destruct Hcase' as [Hnd|?]; [|by right].
    left. simpl in Hnd. by apply NoDup_app in Hnd as (_ & _ & ?).
  - intros; apply Hh; by right.
  - rewrite Forall_forall in *. intros x Hx.
    apply (meets_alter_all stable _ h x Hst); [|by apply Hall].
    destruct Hcase' as [Hnd|?]; [|by right]. left.
    simpl in Hnd. apply NoDup_app in Hnd as (_ & Hdisj & _).
    intros Hin. exact (Hdisj _ Hin Hx).
  - rewrite <- Hshape. clear -f_children.
    induction kids as [|a kids IHk]; [reflexivity|].
    simpl. rewrite IHk. f_equal. by apply shape_alter_all.
Qed.

(** What the tasks of a list are after the updates, when [f] makes
    [P] hold and keeps it. *)
Lemma alter_all_elem (P : Task2.t Date -> Prop) (rs : list nat) h (r : nat) k :
  (forall k, P (f k)) ->
  r ∈ rs -> h !! r = Some k ->
  exists k', alter_all f rs h !! r = Some k' /\ P k'.
Proof.
  intros HP. revert h k. induction rs as [|x rs IH]; intros h k Hin Hk;
    [by apply elem_of_nil in Hin|].
  rewrite alter_all_cons.
  destruct (decide (r ∈ rs)) as [Hrs|Hrs].
  - destruct (decide (x = r)) as [->|Hne].
    + eapply IH; [assumption|]. by rewrite lookup_alter_eq, Hk.
    + eapply IH; [assumption|]. by rewrite lookup_alter_ne.
  - apply elem_of_cons in Hin as [->|?]; [|contradiction].
    rewrite alter_all_notin by assumption.
    rewrite lookup_alter_eq, Hk. simpl. eauto.
Qed.
End TreeWalk.

(** ** [dismiss] and [add_tag] over a task tree *)

Section DismissAddTag.
Import Frame TaskTree TaskFrames.
Context {Date : Type} `{DateOps Date}.
Implicit Types (h : Task2.heap Date) (k : Task2.t Date).

Lemma alter_as_insert (f : Task2.t Date -> Task2.t Date) h (r : nat) k :
  h !! r = Some k -> alter f r h = <[r := f k]> h.
Proof.
  intros Hk. apply map_eq. intros x. destruct (decide (x = r)) as [->|Hne].
  - by rewrite lookup_alter_eq, lookup_insert_eq, Hk.
  - by rewrite lookup_alter_ne, lookup_insert_ne.
Qed.

Lemma shape_nodes_in h (t : tree) :
  shape h t = true -> Forall (fun r => is_Some (h !! r)) (nodes t).
Proof.
  induction t as [r kids IH] using tree_ind'. simpl.
  destruct (h !! r) as [k|] eqn:Hk; [|discriminate]. intros Hs.
  apply andb_prop in Hs as [_ Hs]. apply Forall_cons. split; [by rewrite Hk|].
  induction IH as [|t0 kids Ht0 _ IHkids]; [constructor|].
  simpl in Hs. apply andb_prop in Hs as [Hs0 Hs]. simpl.
  apply Forall_app. auto.
Qed.

#[local] Instance dismiss_changed_preorder : PreOrder (@dismiss_changed Date).
Proof.
  split.
  - intros k. by left.
  - intros k1 k2 k3 [->| ->] [->| ->]; unfold dismiss_changed; auto.
Qed.

Lemma dismiss_frame (d : nat) (r : nat) :
  keeps (heap_rel (@dismiss_changed Date)) (Task2.dismiss d r).
Proof.
  revert r. induction d as [|d IH]; intros r; simpl.
  - apply keeps_raise; apply _.
  - apply keeps_bind; [apply _|..].
    + apply keeps_setattr; [apply _|]. intros o. by right.
    + intros _. apply keeps_bind; [apply _|apply keeps_deref; apply _|].
      intros me. apply keeps_for_each; [apply _|]. intros c. apply IH.
Qed.

Lemma dismiss_step (d : nat) (r : nat) h k :
  h !! r = Some k -> True ->
  Task2.dismiss (S d) r h
  = for_each (Task2.children k) (Task2.dismiss d)
             (alter (Task2.set_status DISMISSED) r h).
Proof.
  intros Hk _. cbn [Task2.dismiss].
  erewrite bind_ok; [|apply (setattr_ok _ _ _ _ Hk)].
  erewrite bind_ok; [|apply deref_ok, lookup_insert_eq].
  by rewrite (alter_as_insert _ _ _ _ Hk).
Qed.

#[local] Instance tag_added_preorder (tag : nat) : PreOrder (@tag_added Date tag).
Proof.
  split.
  - intros k. by left.
  - intros k1 k2 k3 [->|[Hn ->]] [->|[Hn' ->]]; unfold tag_added; auto.
    exfalso. apply Hn'. simpl. apply elem_of_app. right. by left.
Qed.

Lemma add_tag_frame (tag : nat) (d : nat) (r : nat) :
  keeps (heap_rel (@tag_added Date tag)) (fun h => Task2.add_tag d r tag h).
Proof.
  revert r. induction d as [|d IH]; intros r h; [reflexivity|].
  cbn [Task2.add_tag]. unfold bind at 1, deref.
  destruct (h !! r) as [k|] eqn:Hk; [|reflexivity].
  destruct (bool_decide (tag ∈ Task2.tags k)) eqn:Hin; simpl; [reflexivity|].
  apply bool_decide_eq_false in Hin.
  rewrite (bind_ok _ _ _ _ _ (setattr_ok _ _ _ _ Hk)).
  etransitivity.
  - instantiate (1 := <[r := with_tag tag k]> h). intros x.
    destruct (decide (x = r)) as [->|Hne].
    + rewrite lookup_insert_eq, Hk. constructor. by right.
    + rewrite lookup_insert_ne by congruence. destruct (h !! x); by constructor.
  - apply (keeps_for_each (heap_rel (tag_added tag))). intros c. apply IH.
Qed.


(** After a call that returned, the task carries the tag. *)
Lemma add_tag_leaves_tag (tag : nat) (d : nat) (r : nat) h :
  fst (Task2.add_tag (S d) r tag h) = Ok tt ->
  exists k', snd (Task2.add_tag (S d) r tag h) !! r = Some k'
             /\ tag ∈ Task2.tags k'.
Proof.
  intros Hok.
  destruct (h !! r) as [k|] eqn:Hk.
  - cbn [Task2.add_tag] in *.
    rewrite (bind_ok _ _ _ _ _ (deref_ok _ _ _ Hk)) in *.
    destruct (bool_decide (tag ∈ Task2.tags k)) eqn:Hin; simpl in *.
    + apply bool_decide_eq_true in Hin. eauto.
    + rewrite (bind_ok _ _ _ _ _ (setattr_ok _ _ _ _ Hk)) in *.
      pose proof (keeps_for_each (heap_rel (tag_added tag))
                    (Task2.children k) (fun c => Task2.add_tag d c tag)
                    (add_tag_frame tag d)
                    (<[r := Task2.set_tags (Task2.tags k ++ [tag]) k]> h)) as Hl.
      destruct (heap_rel_lookup _ _ _ _ _ Hl (lookup_insert_eq _ _ _))
        as (k' & Hk' & Hrel).
      exists k'. split; [exact Hk'|].
      destruct Hrel as [->|[_ ->]]; simpl.
      * apply elem_of_app. right. by left.
      * apply elem_of_app. left. apply elem_of_app. right. by left.
  - cbn [Task2.add_tag] in Hok. unfold bind, deref in Hok.
    rewrite Hk in Hok. discriminate.
Qed.
End DismissAddTag.

(** X3.  [dismiss] on a task with a call depth that covers the tree
    under it returns, and the task and all its descendants are
    Dismissed; no other task changes, and a task of the tree changes
    in nothing but its status. *)
Theorem dismiss_cascade
  {Date : Type} `{DateOps Date}
  (t : TaskTree.tree) (h : Task2.heap Date) (d : nat) :
  TaskTree.height t <= d ->
  TaskTree.shape h t = true ->
  exists h',
    Task2.dismiss d (TaskTree.root t) h = (Ok tt, h')
    /\ (forall r, r ∈ TaskTree.nodes t ->
          TaskTree.status_at h' r = Some DISMISSED)
    /\ Frame.heap_rel TaskFrames.dismiss_changed h h'
    /\ (forall r, r ∉ TaskTree.nodes t -> h' !! r = h !! r).
Proof.
  intros Hd Hshape.
  pose proof (walk_tree Task2.dismiss (Task2.set_status DISMISSED)
                (fun _ => True) dismiss_step (fun k => eq_refl) True t
                (fun _ _ _ => I) d h Hd Hshape (or_intror I)) as Hwalk.
  assert (Hin : Forall (fun r => is_Some (h !! r)) (TaskTree.nodes t))
    by by apply shape_nodes_in.
  rewrite Forall_forall in Hin.
  eexists. split; [apply Hwalk|].
  { apply Forall_forall. intros r Hr. destruct (Hin r Hr) as [k Hk]. eauto. }
  split; [|split].
  - intros r Hr. destruct (Hin r Hr) as [k Hk].
    destruct (alter_all_elem (Task2.set_status DISMISSED)
                (fun k => Task2.status k = DISMISSED) (TaskTree.nodes t) h r k
                (fun _ => eq_refl) Hr Hk) as (k' & Hk' & Hst).
    unfold TaskTree.status_at. rewrite Hk'. simpl. by f_equal.
  - pose proof (dismiss_frame d (TaskTree.root t) h) as Hf.
    rewrite Hwalk in Hf; [exact Hf|].
    apply Forall_forall. intros r Hr. destruct (Hin r Hr) as [k Hk]. eauto.
  - intros r Hr. by apply alter_all_notin.
Qed.

Lemma dismiss_cascade_witness :
  TaskTree.height family_tree <= 3
  /\ TaskTree.shape family family_tree = true
  /\ exists h',
    Task2.dismiss 3 0 family = (Ok tt, h')
    /\ (forall r, r ∈ TaskTree.nodes family_tree ->
          TaskTree.status_at h' r = Some DISMISSED)
    /\ Frame.heap_rel TaskFrames.dismiss_changed family h'
    /\ (forall r, r ∉ TaskTree.nodes family_tree -> h' !! r = family !! r).
Proof.
  split; [vm_compute; lia|]. split; [reflexivity|].
  apply (dismiss_cascade family_tree family 3); [vm_compute; lia|reflexivity].
Defined.

(** X4.  Whatever the tasks refer to and whether the call returns or
    raises, [dismiss] changes no task in anything but its status, and
    a status only to Dismissed. *)
Theorem dismiss_only_dismisses
  {Date : Type} `{DateOps Date} (d : nat) (r : nat) (h : Task2.heap Date) :
  Frame.heap_rel TaskFrames.dismiss_changed h (snd (Task2.dismiss d r h)).
Proof. apply dismiss_frame. Qed.



(** X6.  Whatever the tasks refer to and whether the call returns or
    raises, [add_tag] leaves every task as it was or appends the tag
    to the tags of a task that did not carry it: it removes and
    reorders no tag, adds no second copy and touches nothing else. *)
Theorem add_tag_only_appends
  {Date : Type} `{DateOps Date} (tag : nat) (d : nat) (r : nat)
  (h : Task2.heap Date) :
  Frame.heap_rel (TaskFrames.tag_added tag) h (snd (Task2.add_tag d r tag h)).
Proof. apply add_tag_frame. Qed.

(** X7.  [add_tag] is idempotent: after a call that returned, the
    same call returns again and changes nothing. *)
Theorem add_tag_idempotent
  {Date : Type} `{DateOps Date} (tag : nat) (d : nat) (r : nat)
  (h : Task2.heap Date) :
  fst (Task2.add_tag d r tag h) = Ok tt ->
  Task2.add_tag d r tag (snd (Task2.add_tag d r tag h))
  = (Ok tt, snd (Task2.add_tag d r tag h)).
Proof.
  intros Hok. destruct d as [|d]; [discriminate|].
  destruct (add_tag_leaves_tag tag d r h Hok) as (k' & Hk' & Hin).
  cbn [Task2.add_tag]. rewrite (bind_ok _ _ _ _ _ (deref_ok _ _ _ Hk')).
  by rewrite bool_decide_eq_true_2.
Qed.

Lemma add_tag_idempotent_witness :
  fst (Task2.add_tag 3 0 7 family) = Ok tt
  /\ Task2.add_tag 3 0 7 (snd (Task2.add_tag 3 0 7 family))
     = (Ok tt, snd (Task2.add_tag 3 0 7 family)).
Proof.
  split; [reflexivity|]. apply (add_tag_idempotent 7 3 0 family). reflexivity.
Defined.

(** ** Reopening tasks with [toggle_status] *)

Section Reopen.
Import Frame TaskTree TaskFrames.
Context {Date : Type} `{DateOps Date}.
Implicit Types (h : Task2.heap Date) (k : Task2.t Date).

#[local] Instance reopen_changed_preorder : PreOrder (@reopen_changed Date _).
Proof.
  split.
  - intros k. by left.
  - intros k1 k2 k3 [->|[Hn ->]] [->|[Hn' ->]]; unfold reopen_changed; auto.
Qed.

Lemma reopen_first h (r : nat) k :
  h !! r = Some k -> Task2.status k <> ACTIVE ->
  heap_rel (@reopen_changed Date _) h (<[r := reopened k]> h).
Proof.
  intros Hk Hna x. destruct (decide (x = r)) as [->|Hne].
  - rewrite lookup_insert_eq, Hk. constructor. by right.
  - rewrite lookup_insert_ne by congruence. destruct (h !! x); by constructor.
Qed.

(** The first part of a call on a task that is not active, up to the
    loop over the children. *)
Lemma toggle_status_reopen_head today (d : nat) (r : nat) (propagate : bool) h k :
  h !! r = Some k -> Task2.status k <> ACTIVE ->
  Task2.toggle_status (S d) today r propagate h
  = ((match Task2.parent k with
      | Some p =>
          po <- deref p;;
          if negb (bool_decide (Task2.status po = ACTIVE))
          then Task2.toggle_status d today p false
          else ret tt
      | None => ret tt
      end);;
     if propagate then
       me <- deref r;;
       for_each (Task2.children me)
                (fun child => Task2.toggle_status d today child true)
     else ret tt) (<[r := reopened k]> h).
Proof.
  intros Hk Hna. cbn [Task2.toggle_status].
  rewrite (bind_ok _ _ _ _ _ (deref_ok _ _ _ Hk)).
  destruct (decide (Task2.status k = ACTIVE)) as [|_]; [contradiction|].
  unfold bind at 1. unfold bind at 1.
  rewrite (setattr_ok _ _ _ _ Hk).
  unfold bind at 1. erewrite setattr_ok; [|apply lookup_insert_eq].
  rewrite insert_insert_eq. fold (reopened k).
  unfold bind at 1. erewrite deref_ok; [|apply lookup_insert_eq].
  reflexivity.
Qed.

(** A non-propagating call on a task that is not active reopens it
    and changes other tasks only by reopening them. *)
Lemma toggle_status_reopen_frame today (d : nat) :
  forall (r : nat) h k,
    h !! r = Some k -> Task2.status k <> ACTIVE ->
    heap_rel (@reopen_changed Date _) h
             (snd (Task2.toggle_status (S d) today r false h))
    /\ snd (Task2.toggle_status (S d) today r false h) !! r
       = Some (reopened k).
Proof.
  induction d as [|d IH]; intros r h k Hk Hna;
    rewrite (toggle_status_reopen_head _ _ _ _ _ _ Hk Hna);
    pose proof (reopen_first h r k Hk Hna) as Hfirst;
    rewrite bind_ret_snd;
    (destruct (Task2.parent k) as [p|];
     [|split; [exact Hfirst|apply lookup_insert_eq]]);
    unfold bind, deref;
    (destruct (<[r:=reopened k]> h !! p) as [po|] eqn:Hp;
     [|split; [exact Hfirst|apply lookup_insert_eq]]);
    (destruct (bool_decide (Task2.status po = ACTIVE)) eqn:Hs; simpl;
     [split; [exact Hfirst|apply lookup_insert_eq]|]).
  - split; [exact Hfirst|apply lookup_insert_eq].
  - apply bool_decide_eq_false in Hs.
    destruct (IH p _ po Hp Hs) as [Hrel Hpo]. split.
    + by etransitivity.
    + destruct (heap_rel_lookup _ _ _ _ _ Hrel (lookup_insert_eq h r (reopened k)))
        as (k' & Hk' & [->|[Hn _]]); [exact Hk'|].
      by destruct Hn.
Qed.

(** The parent of the task, when it is not active, is reopened too. *)
Lemma toggle_status_reopen_parent today (d : nat) (r p : nat) h k po :
  h !! r = Some k -> Task2.status k <> ACTIVE ->
  Task2.parent k = Some p -> h !! p = Some po -> Task2.status po <> ACTIVE ->
  snd (Task2.toggle_status (S (S d)) today r false h) !! p = Some (reopened po).
Proof.
  intros Hk Hna Hp Hpo Hpna.
  destruct (decide (p = r)) as [->|Hne].
  - rewrite Hk in Hpo. injection Hpo as <-.
    by apply toggle_status_reopen_frame.
  - rewrite (toggle_status_reopen_head _ _ _ _ _ _ Hk Hna), Hp, bind_ret_snd.
    assert (Hp1 : <[r:=reopened k]> h !! p = Some po)
      by by rewrite lookup_insert_ne.
    rewrite (bind_ok _ _ _ _ _ (deref_ok _ _ _ Hp1)).
    rewrite bool_decide_eq_false_2 by assumption. simpl.
    by apply toggle_status_reopen_frame.
Qed.
End Reopen.

(** X8.  A non-propagating [toggle_status] on a task that is not
    active, whether it returns or runs out of call depth: the task is
    reopened (Active, closing date cleared), its parent is reopened
    too when it was not active, and every other task is as it was or
    was not active and is reopened. *)
Theorem toggle_status_reopens_upwards
  {Date : Type} `{DateOps Date} (today : Date) (d : nat) (r : nat)
  (h : Task2.heap Date) (k : Task2.t Date) :
  h !! r = Some k ->
  Task2.status k <> ACTIVE ->
  let h' := snd (Task2.toggle_status (S (S d)) today r false h) in
  h' !! r = Some (TaskTree.reopened k)
  /\ Task2.status (TaskTree.reopened k) = ACTIVE
  /\ Task2.date_closed (TaskTree.reopened k) = no_date
  /\ (forall p po, Task2.parent k = Some p -> h !! p = Some po ->
        Task2.status po <> ACTIVE -> h' !! p = Some (TaskTree.reopened po))
  /\ Frame.heap_rel TaskFrames.reopen_changed h h'.
Proof.
  intros Hk Hna h'.
  destruct (toggle_status_reopen_frame today (S d) r h k Hk Hna) as [Hrel Hr].
  split; [exact Hr|]. split; [reflexivity|]. split; [reflexivity|].
  split; [|exact Hrel].
  intros p po Hp Hpo Hpna. by eapply toggle_status_reopen_parent.
Qed.

Lemma toggle_status_reopens_upwards_witness :
  done_pair !! 1 = Some (task0 11 [] DONE (Some 0))
  /\ Task2.status (task0 11 [] DONE (Some 0)) <> ACTIVE
  /\ let h' := snd (Task2.toggle_status 2 (Concrete 7) 1 false done_pair) in
     h' !! 1 = Some (TaskTree.reopened (task0 11 [] DONE (Some 0)))
     /\ Task2.status (TaskTree.reopened (task0 11 [] DONE (Some 0))) = ACTIVE
     /\ Task2.date_closed (TaskTree.reopened (task0 11 [] DONE (Some 0)))
        = no_date
     /\ (forall p po, Task2.parent (task0 11 [] DONE (Some 0)) = Some p ->
           done_pair !! p = Some po ->
           Task2.status po <> ACTIVE -> h' !! p = Some (TaskTree.reopened po))
     /\ Frame.heap_rel TaskFrames.reopen_changed done_pair h'.
Proof.
  split; [reflexivity|]. split; [discriminate|].
  apply (toggle_status_reopens_upwards (Concrete 7) 0 1 done_pair
           (task0 11 [] DONE (Some 0))); [reflexivity|discriminate].
Defined.

Section ReopenTree.
Import Frame TaskTree TaskFrames.
Context {Date : Type} `{DateOps Date}.
Implicit Types (h : Task2.heap Date) (k : Task2.t Date).

Lemma forallb_eq_in {A} (p q : A -> bool) (l : list A) :
  (forall x, In x l -> p x = q x) -> forallb p l = forallb q l.
Proof.
  induction l as [|a l IH]; intros Hpq; [reflexivity|]. simpl.
  rewrite (Hpq a (or_introl eq_refl)), IH; [reflexivity|].
  intros x Hx. apply Hpq. by right.
Qed.

Lemma shape_up_alter (f : Task2.t Date -> Task2.t Date) (r : nat) h (t : tree) :
  (forall k, Task2.parent (f k) = Task2.parent k) ->
  shape_up (alter f r h) t = shape_up h t.
Proof.
  intros Hf. induction t as [x kids IH] using tree_ind'. simpl.
  f_equal.
  - clear IH. induction kids as [|a kids IHk]; [reflexivity|]. simpl.
    rewrite IHk. f_equal. destruct (decide (r = root a)) as [->|Hne].
    + rewrite lookup_alter_eq. destruct (h !! root a); simpl; [|reflexivity].
      by rewrite Hf.
    + by rewrite lookup_alter_ne.
  - induction IH as [|a kids Ha _ IHk]; [reflexivity|]. simpl. by rewrite Ha, IHk.
Qed.

Lemma shape_up_alter_all (f : Task2.t Date -> Task2.t Date) (rs : list nat) h
      (t : tree) :
  (forall k, Task2.parent (f k) = Task2.parent k) ->
  shape_up (alter_all f rs h) t = shape_up h t.
Proof.
  intros Hf. revert h. induction rs as [|x rs IH]; intros h; [reflexivity|].
  rewrite alter_all_cons, IH. by apply shape_up_alter.
Qed.

(** A propagating call on a task that is not active and whose parent
    is absent or active. *)
Lemma toggle_status_reopen_step_down today (d : nat) (r : nat) h k :
  h !! r = Some k -> Task2.status k <> ACTIVE -> top_free h r = true ->
  Task2.toggle_status (S d) today r true h
  = for_each (Task2.children k)
             (fun child => Task2.toggle_status d today child true)
             (alter reopened r h).
Proof.
  intros Hk Hna Htop.
  rewrite (toggle_status_reopen_head _ _ _ _ _ _ Hk Hna).
  rewrite (alter_as_insert _ _ _ _ Hk).
  unfold top_free in Htop. rewrite Hk in Htop.
  assert (Hup : (match Task2.parent k with
                 | Some p =>
                     po <- deref p;;
                     if negb (bool_decide (Task2.status po = ACTIVE))
                     then Task2.toggle_status d today p false
                     else ret tt
                 | None => ret tt
                 end) (<[r := reopened k]> h)
                = (Ok tt, <[r := reopened k]> h)).
  { destruct (Task2.parent k) as [p|]; [|reflexivity].
    apply bool_decide_eq_true in Htop. unfold status_at in Htop.
    destruct (h !! p) as [po|] eqn:Hpo; [|discriminate].
    injection Htop as Hst.
    assert (p <> r) by (intros ->; congruence).
    erewrite bind_ok; [|apply deref_ok; by rewrite lookup_insert_ne].
    by rewrite bool_decide_eq_true_2. }
  rewrite (bind_ok _ _ _ _ _ Hup).
  erewrite bind_ok; [|apply deref_ok, lookup_insert_eq]. reflexivity.
Qed.

Local Abbreviation idle h r :=
  (exists k, h !! r = Some k /\ Task2.status k <> ACTIVE).

Lemma toggle_status_reopen_tree today (t : tree) :
  forall d h,
    height t <= d ->
    shape h t = true ->
    shape_up h t = true ->
    NoDup (nodes t) ->
    Forall (fun r => idle h r) (nodes t) ->
    top_free h (root t) = true ->
    Task2.toggle_status d today (root t) true h
    = (Ok tt, alter_all reopened (nodes t) h).
Proof.
  induction t as [r kids IH] using tree_ind'.
  intros d h Hd Hshape Hup Hnd Hidle Htop.
  destruct d as [|d]; [simpl in Hd; lia|].
  simpl in Hshape. destruct (h !! r) as [k|] eqn:Hk; [|discriminate].
  apply andb_prop in Hshape as [Hkids Hshape].
  apply bool_decide_eq_true in Hkids.
  cbn [nodes] in Hidle. apply Forall_cons in Hidle as [(k0 & Hk0 & Hna) Hidle].
  rewrite Hk in Hk0. injection Hk0 as <-.
  cbn [root nodes].
  rewrite (toggle_status_reopen_step_down _ _ _ _ _ Hk Hna Htop), Hkids,
    alter_all_cons.
  simpl in Hnd. apply NoDup_cons in Hnd as [Hr Hnd].
  simpl in Hup. apply andb_prop in Hup as [Hpar Hup].
  set (g := alter reopened r h).
  assert (Hract : status_at g r = Some ACTIVE).
  { unfold status_at, g. by rewrite lookup_alter_eq, Hk. }
  assert (Hidle' : Forall (fun x => idle g x) (flat_map nodes kids)).
  { rewrite Forall_forall in *. intros x Hx. unfold g.
    rewrite lookup_alter_ne by (intros ->; contradiction). by apply Hidle. }
  assert (Hpar' : forallb (fun kid => bool_decide
             (Task2.parent <$> g !! root kid = Some (Some r))) kids = true).
  { rewrite <- Hpar. apply forallb_eq_in. intros kid Hkid. unfold g.
    destruct (decide (r = root kid)) as [->|Hne]; [|by rewrite lookup_alter_ne].
    rewrite lookup_alter_eq. by destruct (h !! root kid). }
  assert (Hshape' : forallb (shape g) kids = true).
  { rewrite <- Hshape. clear. induction kids as [|a kids IHk]; [reflexivity|].
    simpl. rewrite IHk. f_equal. by apply shape_alter. }
  assert (Hup' : forallb (shape_up g) kids = true).
  { rewrite <- Hup. clear. induction kids as [|a kids IHk]; [reflexivity|].
    simpl. rewrite IHk. f_equal. by apply shape_up_alter. }
  assert (Hh : forall kid : tree, kid ∈ kids -> height kid <= d)
    by (intros; eapply height_kid; eassumption).
  clearbody g. clear Hk Hkids Hshape Hidle Hd Hna Htop Hpar Hup h.
  revert g Hract Hidle' Hpar' Hshape' Hup'.
  induction IH as [|t0 kids Ht0 _ IHkids];
    intros g Hract Hidle Hpar Hshape Hup; [reflexivity|].
  simpl in Hshape, Hup, Hpar.
  apply andb_prop in Hshape as [Hs0 Hshape].
  apply andb_prop in Hup as [Hu0 Hup].
  apply andb_prop in Hpar as [Hp0 Hpar].
  cbn [flat_map] in Hidle, Hnd, Hr.
  apply Forall_app in Hidle as [Hidle0 Hidle].
  apply NoDup_app in Hnd as (Hnd0 & Hdisj & Hnd).
  apply not_elem_of_app in Hr as [Hr0 Hr].
  cbn [List.map for_each flat_map].
  erewrite bind_ok; cycle 1.
  { apply Ht0; try assumption; [apply Hh; by left|].
    unfold top_free. apply bool_decide_eq_true in Hp0.
    destruct (g !! root t0) as [k0|]; [|discriminate].
    simpl in Hp0. injection Hp0 as ->. by apply bool_decide_eq_true. }
  rewrite alter_all_app. apply IHkids; try assumption.
  - intros; apply Hh; by right.
  - unfold status_at. by rewrite alter_all_notin.
  - rewrite Forall_forall in *. intros x Hx.
    rewrite alter_all_notin; [by apply Hidle|].
    intros Hin. exact (Hdisj _ Hin Hx).
  - rewrite <- Hpar. apply forallb_eq_in. intros kid Hkid.
    rewrite alter_all_notin; [reflexivity|].
    intros Hin. apply (Hdisj _ Hin). apply list_elem_of_In, in_flat_map.
    exists kid. split; [assumption|]. destruct kid. by left.
  - rewrite <- Hshape. clear. induction kids as [|a kids IHk]; [reflexivity|].
    simpl. rewrite IHk. f_equal. by apply shape_alter_all.
  - rewrite <- Hup. clear. induction kids as [|a kids IHk]; [reflexivity|].
    simpl. rewrite IHk. f_equal. by apply shape_up_alter_all.
Qed.
End ReopenTree.

(** X9.  A propagating [toggle_status] on a task that is not active,
    whose parent is absent or active and whose descendants form a tree
    of tasks that are not active: the call returns and reopens the
    task and every descendant (Active, closing date cleared); no other
    task changes. *)
Theorem toggle_status_reopens_tree
  {Date : Type} `{DateOps Date} (today : Date)
  (t : TaskTree.tree) (h : Task2.heap Date) (d : nat) :
  TaskTree.height t <= d ->
  TaskTree.shape h t = true ->
  TaskFrames.shape_up h t = true ->
  NoDup (TaskTree.nodes t) ->
  Forall (fun r => exists k, h !! r = Some k /\ Task2.status k <> ACTIVE)
         (TaskTree.nodes t) ->
  TaskFrames.top_free h (TaskTree.root t) = true ->
  exists h',
    Task2.toggle_status d today (TaskTree.root t) true h = (Ok tt, h')
    /\ (forall r, r ∈ TaskTree.nodes t ->
          exists k, h !! r = Some k /\ h' !! r = Some (TaskTree.reopened k))
    /\ (forall r, r ∉ TaskTree.nodes t -> h' !! r = h !! r).
Proof.
  intros Hd Hshape Hup Hnd Hidle Htop.
  eexists. split; [by apply toggle_status_reopen_tree|]. split.
  - intros r Hr. rewrite Forall_forall in Hidle.
    destruct (Hidle r Hr) as (k & Hk & _). exists k. split; [assumption|].
    by rewrite alter_all_in, Hk.
  - intros r Hr. by apply alter_all_notin.
Qed.

Lemma toggle_status_reopens_tree_witness :
  TaskTree.height family_tree <= 3
  /\ TaskTree.shape done_family family_tree = true
  /\ TaskFrames.shape_up done_family family_tree = true
  /\ NoDup (TaskTree.nodes family_tree)
  /\ TaskFrames.top_free done_family 0 = true
  /\ exists h',
    Task2.toggle_status 3 (Concrete 7) 0 true done_family = (Ok tt, h')
    /\ (forall r, r ∈ TaskTree.nodes family_tree ->
          exists k, done_family !! r = Some k
                    /\ h' !! r = Some (TaskTree.reopened k))
    /\ (forall r, r ∉ TaskTree.nodes family_tree -> h' !! r = done_family !! r).
Proof.
  split; [vm_compute; lia|]. split; [reflexivity|]. split; [reflexivity|].
  split; [compute_done|]. split; [reflexivity|].
  apply (toggle_status_reopens_tree (Concrete 7) family_tree done_family 3);
    [vm_compute; lia|reflexivity|reflexivity|compute_done| |reflexivity].
  repeat constructor; (eexists; split; [reflexivity|discriminate]).
Defined.



(** ** Detaching a tag with [remove_tag] *)

Section RemoveTagTree.
Import Frame TaskTree TaskFrames.
Context {Date : Type} `{DateOps Date}.
Context (tag_objs : gmap nat Tag2.t) (tag_name : string).
Implicit Types (h : Task2.heap Date) (k : Task2.t Date) (l : list nat).
Local Open Scope list_scope.

Local Abbreviation is_named := (named tag_objs tag_name).
Local Abbreviation rest_of := (others tag_objs tag_name).



Lemma list_remove_first_at (x : nat) (pre suf : list nat) :
  x ∉ pre -> list_remove_first x (pre ++ x :: suf) = Some (pre ++ suf).
Proof.
  induction pre as [|y pre IH]; intros Hx; simpl.
  - by rewrite Nat.eqb_refl.
  - apply not_elem_of_cons in Hx as [Hne Hx].
    destruct (Nat.eqb_spec x y) as [?|_]; [contradiction|].
    by rewrite IH.
Qed.

#[local] Instance tags_pruned_preorder :
  PreOrder (@tags_pruned Date tag_objs tag_name).
Proof.
  split.
  - intros k. split; [by destruct k|]. split; reflexivity.
  - intros k1 k2 k3 (E12 & S12 & O12) (E23 & S23 & O23). split; [|split].
    + rewrite E23, E12. by destruct k1.
    + by etransitivity.
    + congruence.
Qed.







Lemma others_app l1 l2 : rest_of (l1 ++ l2) = rest_of l1 ++ rest_of l2.
Proof. apply List.filter_app. Qed.







End RemoveTagTree.




(** ** Operations of the task store *)

Ltac store_unfold :=
  unfold TaskStore.new, TaskStore.get, TaskStore.parent, TaskStore.unparent,
    TaskStore.on_heap, BaseStore.lookup_getitem, BaseStore.lookup_setitem,
    BaseStore.data_append, BaseStore.data_remove, BaseStore.children_append,
    BaseStore.on_store, BaseStore.on_heap, zoom, try_except, bind, modify,
    alloc, setattr, deref, ret, raise in *.

(** X13.  [new] without a parent returns a task object that was not in
    the heap, with the stripped title, Active and without parent,
    children or tags; it appends the task to [data], and [get] with
    the new identifier then returns it.  No other object and no other
    entry of [lookup] changes. *)
Theorem new_then_get
  {Date : Type} `{DateOps Date} (uuid : N) (now : Date) (title : string)
  (st : @TaskStore.St Date) :
  let out := TaskStore.new uuid now title None st in
  let r := fresh (dom (snd st)) in
  fst out = Ok r
  /\ (r ∉ dom (snd st))
  /\ TaskStore.get (UUID uuid) (snd out) = (Ok r, snd out)
  /\ (snd (snd out)) !! r = Some (Task2.init now (UUID uuid) title)
  /\ BaseStore.data (fst (snd out)) = (BaseStore.data (fst st) ++ [r])%list
  /\ (forall x, x <> r -> (snd (snd out)) !! x = (snd st) !! x)
  /\ (forall key, key <> UUID uuid ->
        BaseStore.lookup (fst (snd out)) !! key
        = BaseStore.lookup (fst st) !! key).
Proof.
  destruct st as [s h]. store_unfold. simpl.
  split; [reflexivity|]. split; [apply is_fresh|].
  split; [by rewrite lookup_insert_eq|].
  split; [apply lookup_insert_eq|]. split; [reflexivity|]. split.
  - intros x Hx. by rewrite lookup_insert_ne.
  - intros key Hkey. by rewrite lookup_insert_ne.
Qed.

(** X14.  [parent] with an item identifier that is not in [lookup]
    raises [KeyError] and leaves the store and the tasks as they
    were. *)
Theorem parent_unknown_item
  {Date : Type} `{DateOps Date} (item_id parent_id : Key)
  (st : @TaskStore.St Date) :
  BaseStore.lookup (fst st) !! item_id = None ->
  TaskStore.parent item_id parent_id st = (Raise KeyError, st).
Proof.
  destruct st as [s h]. simpl. intros Hnone. store_unfold. simpl.
  by rewrite Hnone.
Qed.

Lemma parent_unknown_item_witness :
  BaseStore.lookup (fst three_roots) !! UUID 9 = None
  /\ TaskStore.parent (UUID 9) (UUID 1) three_roots = (Raise KeyError, three_roots).
Proof.
  split; [reflexivity|]. by apply (parent_unknown_item (UUID 9) (UUID 1) three_roots).
Defined.

Section Unparent.
Context {Date : Type} `{DateOps Date}.
Implicit Types (h : Task2.heap Date) (s : BaseStore.t).

(** The loop of [unparent] passes the children with another
    identifier. *)
Lemma unparent_scan_skip (item_id parent_id : Key) s h (kids rest : list nat) :
  Forall (fun c => exists kc, h !! c = Some kc /\ Task2.id kc <> item_id) kids ->
  TaskStore.unparent_scan (kids ++ rest)%list item_id parent_id (s, h)
  = TaskStore.unparent_scan rest item_id parent_id (s, h).
Proof.
  induction 1 as [|c kids (kc & Hc & Hid) _ IH]; [reflexivity|].
  cbn [app TaskStore.unparent_scan]. store_unfold. simpl. rewrite Hc.
  rewrite bool_decide_eq_false_2 by assumption. exact IH.
Qed.
End Unparent.

(** X15.  [unparent] with a parent none of whose children has the
    item identifier raises [KeyError] and leaves the store and the
    tasks as they were. *)
Theorem unparent_not_a_child
  {Date : Type} `{DateOps Date} (item_id parent_id : Key)
  (st : @TaskStore.St Date) (p : nat) (kp : Task2.t Date) :
  BaseStore.lookup (fst st) !! parent_id = Some p ->
  snd st !! p = Some kp ->
  Forall (fun c => exists kc, snd st !! c = Some kc /\ Task2.id kc <> item_id)
         (Task2.children kp) ->
  TaskStore.unparent item_id parent_id st = (Raise KeyError, st).
Proof.
  destruct st as [s h]. simpl. intros Hp Hkp Hkids.
  unfold TaskStore.unparent.
  assert (Hget : BaseStore.lookup_getitem parent_id (s, h) = (Ok p, (s, h)))
    by (store_unfold; simpl; by rewrite Hp).
  rewrite (bind_ok _ _ _ _ _ Hget).
  assert (Hder : TaskStore.on_heap (deref p) (s, h) = (Ok kp, (s, h)))
    by (store_unfold; simpl; by rewrite Hkp).
  rewrite (bind_ok _ _ _ _ _ Hder).
  rewrite <- (app_nil_r (Task2.children kp)).
  by rewrite unparent_scan_skip.
Qed.

Lemma unparent_not_a_child_witness :
  BaseStore.lookup (fst three_roots) !! UUID 1 = Some 0
  /\ snd three_roots !! 0 = Some (Task2.init (Concrete 0) (UUID 1) "a")
  /\ TaskStore.unparent (UUID 3) (UUID 1) three_roots
     = (Raise KeyError, three_roots).
Proof.
  split; [reflexivity|]. split; [reflexivity|].
  apply (unparent_not_a_child (UUID 3) (UUID 1) three_roots 0
           (Task2.init (Concrete 0) (UUID 1) "a")); [reflexivity|reflexivity|].
  constructor.
Defined.

Section ParentUnparent.
Context {Date : Type} `{DateOps Date}.
Implicit Types (h : Task2.heap Date) (s : BaseStore.t).

(** [data] after [parent] has taken the item out of it. *)
Local Abbreviation data_without i s :=
  (default (BaseStore.data s) (list_remove_first i (BaseStore.data s))).

Lemma getitem_ok (key : Key) s h (r : nat) :
  BaseStore.lookup s !! key = Some r ->
  BaseStore.lookup_getitem key (s, h) = (Ok r, (s, h)).
Proof. intros Hr. store_unfold. simpl. by rewrite Hr. Qed.

Lemma data_remove_tried (i : nat) s h :
  try_except (BaseStore.data_remove i) ValueError (ret tt) (s, h)
  = (Ok tt, (BaseStore.set_data (data_without i s) s, h)).
Proof.
  unfold try_except, BaseStore.data_remove, BaseStore.on_store, zoom. simpl.
  destruct (list_remove_first i (BaseStore.data s)); simpl; [reflexivity|].
  by destruct s.
Qed.

Lemma children_append_ok (p i : nat) s h kp :
  h !! p = Some kp ->
  BaseStore.children_append p i (s, h)
  = (Ok tt, (s, <[p := Task2.set_children (Task2.children kp ++ [i])%list kp]> h)).
Proof. intros Hp. store_unfold. simpl. by rewrite Hp. Qed.

Lemma heap_setattr_ok (r : nat) (f : Task2.t Date -> Task2.t Date) s h k :
  h !! r = Some k ->
  TaskStore.on_heap (setattr r f) (s, h) = (Ok tt, (s, <[r := f k]> h)).
Proof. intros Hr. store_unfold. simpl. by rewrite Hr. Qed.

Lemma heap_deref_ok (r : nat) s h k :
  h !! r = Some k -> TaskStore.on_heap (deref r) (s, h) = (Ok k, (s, h)).
Proof. intros Hr. store_unfold. simpl. by rewrite Hr. Qed.

Lemma data_append_ok (r : nat) s h :
  BaseStore.data_append r (s, h)
  = (Ok tt, (BaseStore.set_data (BaseStore.data s ++ [r])%list s, h)).
Proof. reflexivity. Qed.

Lemma parent_known (item_id parent_id : Key) s h (i p : nat)
      (ki kp : Task2.t Date) :
  BaseStore.lookup s !! item_id = Some i ->
  BaseStore.lookup s !! parent_id = Some p ->
  h !! i = Some ki -> h !! p = Some kp -> i <> p ->
  TaskStore.parent item_id parent_id (s, h)
  = (Ok tt,
     (BaseStore.set_data (data_without i s) s,
      <[i := Task2.set_parent (Some p) ki]>
        (<[p := Task2.set_children (Task2.children kp ++ [i])%list kp]> h))).
Proof.
  intros Hi Hp Hki Hkp Hne. unfold TaskStore.parent.
  rewrite (bind_ok _ _ _ _ _ (getitem_ok _ _ _ _ Hi)).
  rewrite (bind_ok _ _ _ _ _ (data_remove_tried _ _ _)).
  rewrite (bind_ok _ _ _ _ _
             (getitem_ok parent_id (BaseStore.set_data (data_without i s) s)
                         h p Hp)).
  rewrite (bind_ok _ _ _ _ _ (children_append_ok _ _ _ _ _ Hkp)).
  rewrite (bind_ok _ _ _ _ _
             (getitem_ok parent_id (BaseStore.set_data (data_without i s) s)
                         _ p Hp)).
  apply heap_setattr_ok. by rewrite lookup_insert_ne.
Qed.

Lemma unparent_known (item_id parent_id : Key) s h (i p : nat)
      (ki kp : Task2.t Date) (kids : list nat) :
  BaseStore.lookup s !! parent_id = Some p ->
  h !! i = Some ki -> Task2.id ki = item_id ->
  h !! p = Some kp -> i <> p ->
  Task2.children kp = (kids ++ [i])%list ->
  i ∉ kids ->
  Forall (fun c => exists kc, h !! c = Some kc /\ Task2.id kc <> item_id) kids ->
  TaskStore.unparent item_id parent_id (s, h)
  = (Ok tt,
     (BaseStore.set_data (BaseStore.data s ++ [i])%list s,
      <[p := Task2.set_children kids kp]>
        (<[i := Task2.set_parent None ki]> h))).
Proof.
  intros Hp Hki Hid Hkp Hne Hkids Hin Hall. unfold TaskStore.unparent.
  rewrite (bind_ok _ _ _ _ _ (getitem_ok _ _ _ _ Hp)).
  rewrite (bind_ok _ _ _ _ _ (heap_deref_ok _ _ _ _ Hkp)).
  rewrite Hkids, unparent_scan_skip by assumption.
  cbn [TaskStore.unparent_scan].
  rewrite (bind_ok _ _ _ _ _ (heap_deref_ok _ _ _ _ Hki)).
  rewrite bool_decide_eq_true_2 by assumption.
  rewrite (bind_ok _ _ _ _ _ (heap_setattr_ok _ _ _ _ _ Hki)).
  rewrite (bind_ok _ _ _ _ _ (data_append_ok _ _ _)).
  assert (Hp' : BaseStore.lookup
            (BaseStore.set_data (BaseStore.data s ++ [i])%list s) !! parent_id
          = Some p) by exact Hp.
  rewrite (bind_ok _ _ _ _ _ (getitem_ok _ _ _ _ Hp')).
  assert (Hkp' : <[i := Task2.set_parent None ki]> h !! p = Some kp)
    by by rewrite lookup_insert_ne.
  rewrite (bind_ok _ _ _ _ _ (heap_deref_ok _ _ _ _ Hkp')).
  rewrite Hkids, list_remove_first_at by assumption.
  rewrite app_nil_r. by apply heap_setattr_ok.
Qed.
End ParentUnparent.

(** X16.  [parent] and then [unparent] with the same identifiers, for
    an item and a parent that are distinct tasks of the store, the
    item carrying its identifier and no child of the parent carrying
    it: both calls return; the item ends at the end of [data] with its
    parent reference cleared, the children of the parent are what
    they were, and nothing else changes. *)
Theorem parent_then_unparent
  {Date : Type} `{DateOps Date} (item_id parent_id : Key)
  (st : @TaskStore.St Date) (i p : nat) (ki kp : Task2.t Date) :
  BaseStore.lookup (fst st) !! item_id = Some i ->
  BaseStore.lookup (fst st) !! parent_id = Some p ->
  snd st !! i = Some ki -> Task2.id ki = item_id ->
  snd st !! p = Some kp -> i <> p ->
  Forall (fun c => exists kc, snd st !! c = Some kc /\ Task2.id kc <> item_id)
         (Task2.children kp) ->
  exists st1,
    TaskStore.parent item_id parent_id st = (Ok tt, st1)
    /\ TaskStore.unparent item_id parent_id st1
       = (Ok tt,
          (BaseStore.set_data
             (default (BaseStore.data (fst st))
                      (list_remove_first i (BaseStore.data (fst st))) ++ [i])%list
             (fst st),
           <[i := Task2.set_parent None ki]> (snd st))).
Proof.
  destruct st as [s h]. simpl. intros Hi Hp Hki Hid Hkp Hne Hall.
  assert (Hin : i ∉ Task2.children kp).
  { intros Hin. rewrite Forall_forall in Hall.
    destruct (Hall i Hin) as (kc & Hkc & Hidc). congruence. }
  eexists. split; [by eapply parent_known|].
  erewrite unparent_known with (kids := Task2.children kp) (kp := Task2.set_children (Task2.children kp ++ [i])%list kp) (ki := Task2.set_parent (Some p) ki).
  - f_equal. f_equal. apply map_eq. intros x.
    destruct (decide (x = p)) as [->|Hxp].
    + rewrite lookup_insert_eq, lookup_insert_ne, Hkp by congruence.
      f_equal. by destruct kp.
    + rewrite lookup_insert_ne by congruence.
      destruct (decide (x = i)) as [->|Hxi].
      * by rewrite !lookup_insert_eq.
      * by rewrite !lookup_insert_ne by congruence.
  - exact Hp.
  - apply lookup_insert_eq.
  - exact Hid.
  - rewrite lookup_insert_ne by congruence. apply lookup_insert_eq.
  - exact Hne.
  - reflexivity.
  - exact Hin.
  - rewrite Forall_forall in *. intros c Hc.
    destruct (Hall c Hc) as (kc & Hkc & Hidc).
    assert (c <> i) by (intros ->; contradiction).
    rewrite lookup_insert_ne by congruence.
    destruct (decide (c = p)) as [->|Hcp].
    + rewrite lookup_insert_eq. eexists. split; [reflexivity|].
      rewrite Hkp in Hkc. by injection Hkc as <-.
    + rewrite lookup_insert_ne by congruence. eauto.
Qed.

Lemma parent_then_unparent_witness :
  BaseStore.lookup (fst three_roots) !! UUID 3 = Some 2
  /\ BaseStore.lookup (fst three_roots) !! UUID 1 = Some 0
  /\ exists st1,
    TaskStore.parent (UUID 3) (UUID 1) three_roots = (Ok tt, st1)
    /\ TaskStore.unparent (UUID 3) (UUID 1) st1
       = (Ok tt,
          (BaseStore.set_data
             (default (BaseStore.data (fst three_roots))
                      (list_remove_first 2 (BaseStore.data (fst three_roots)))
              ++ [2])%list
             (fst three_roots),
           <[2 := Task2.set_parent None (Task2.init (Concrete 0) (UUID 3) "c")]>
             (snd three_roots))).
Proof.
  split; [reflexivity|]. split; [reflexivity|].
  apply (parent_then_unparent (UUID 3) (UUID 1) three_roots 2 0
           (Task2.init (Concrete 0) (UUID 3) "c")
           (Task2.init (Concrete 0) (UUID 1) "a"));
    try reflexivity; [discriminate|constructor].
Defined.

(** ** The content element, the status filter and the name index *)

(** X1.  The content of a task comes back unchanged from the content
    element of the document, written and parsed, whenever its
    characters are XML compatible and it holds neither a carriage
    return nor the escaped form of the CDATA terminator; terminators
    in the content, however many, are escaped and restored. *)
Theorem content_round_trip_plain (text : string) :
  Content.xml_compatible text = true ->
  Str.str_in (String "013"%char "") text = false ->
  Str.str_in "]]&gt;" text = false ->
  Content.content_round_trip text = Ok text.
Proof. apply content_round_trip_without_escaped_form. Qed.

Lemma content_round_trip_plain_witness :
  Content.xml_compatible "a ]]> b ]]]>]]> c" = true
  /\ Str.str_in (String "013"%char "") "a ]]> b ]]]>]]> c" = false
  /\ Str.str_in "]]&gt;" "a ]]> b ]]]>]]> c" = false
  /\ Content.content_round_trip "a ]]> b ]]]>]]> c" = Ok "a ]]> b ]]]>]]> c".
Proof.
  split; [reflexivity|]. split; [reflexivity|]. split; [reflexivity|].
  apply (content_round_trip_plain "a ]]> b ]]]>]]> c"); reflexivity.
Defined.

(** X2.  The text that [to_xml] hands to [CDATA] never holds the
    CDATA terminator, for any content; [CDATA] returns it exactly when
    the characters of the content are XML compatible, and raises
    [ValueError] for a content with a NUL or another control
    character. *)
Theorem to_xml_content_accepted (content : string) :
  Str.str_in "]]>" (Str.str_replace content "]]>" "]]&gt;") = false
  /\ Content.to_xml_content content
     = if Content.xml_compatible content
       then Ok (Str.str_replace content "]]>" "]]&gt;")
       else Raise ValueError.
Proof. split; [apply esc_no_terminator|apply to_xml_content_unfold]. Qed.

(** X17.  [filter] with the status filter returns the tasks of [data]
    that have the status, in the order of [data]; tasks that are not
    in [data] are not searched. *)
Theorem filter_status_spec
  {Date : Type} `{DateOps Date} (tag_objs : gmap nat Tag2.t)
  (st : @TaskStore.St Date) (status : Status) :
  exists out,
    TaskStore.filter tag_objs st STATUS (TaskStore.ArgStatus status)
    = Ok (Some out)
    /\ (forall r, r ∈ out <->
          r ∈ BaseStore.data (fst st)
          /\ TaskTree.status_at (snd st) r = Some status)
    /\ sublist out (BaseStore.data (fst st)).
Proof.
  eexists. split; [reflexivity|]. split.
  - intros r. rewrite list_elem_of_In, filter_In, <- list_elem_of_In.
    unfold TaskStore.has_status, TaskTree.status_at.
    destruct (snd st !! r) as [k|]; simpl.
    + rewrite bool_decide_eq_true. split; intros [? ?]; split; congruence.
    + split; intros [? ?]; discriminate.
  - induction (BaseStore.data (fst st)) as [|x l IH]; simpl; [constructor|].
    destruct (TaskStore.has_status (snd st) (TaskStore.ArgStatus status) x);
      by constructor.
Qed.

(** X18.  [filter] with any filter type other than the status filter
    raises [AttributeError], whatever the store and the argument. *)
Theorem filter_other_types_raise
  {Date : Type} `{DateOps Date} (tag_objs : gmap nat Tag2.t)
  (st : @TaskStore.St Date) (filter_type : Filter) (arg : TaskStore.Arg) :
  filter_type <> STATUS ->
  TaskStore.filter tag_objs st filter_type arg = Raise AttributeError.
Proof. apply filter_raises. Qed.

Lemma filter_other_types_raise_witness :
  CHILDREN <> STATUS
  /\ TaskStore.filter work_office tagged_store CHILDREN TaskStore.ArgNone
     = Raise AttributeError.
Proof.
  split; [discriminate|].
  apply (filter_other_types_raise work_office tagged_store CHILDREN
           TaskStore.ArgNone). discriminate.
Defined.

(** X19.  After a call of [TagStore.add] that returned, [find] with
    the name of the added tag returns that tag. *)
Theorem tag_add_then_find
  (item : nat) (parent_id : option Key) (st : TagStore.St) :
  fst (TagStore.add item parent_id st) = Ok tt ->
  exists g,
    snd (snd (TagStore.add item parent_id st)) !! item = Some g
    /\ TagStore.find (Tag2.name g) (snd (TagStore.add item parent_id st))
       = (Ok item, snd (TagStore.add item parent_id st)).
Proof.
  unfold TagStore.add, bind, TagStore.on_heap, zoom, deref.
  destruct (TagStore.on_base (BaseStore.add item parent_id) st) as [[[]|e] st1];
    [|discriminate].
  destruct (snd st1 !! item) as [g|] eqn:Hg; [|discriminate].
  simpl. intros _. exists g. split; [exact Hg|].
  unfold TagStore.find. simpl. by rewrite lookup_insert_eq.
Qed.

Lemma tag_add_then_find_witness :
  fst (TagStore.add 0 None (TagStore.init, {[0 := Tag2.init (StrKey "t1") "work"]}))
  = Ok tt
  /\ exists g,
    snd (snd (TagStore.add 0 None
                (TagStore.init, {[0 := Tag2.init (StrKey "t1") "work"]}))) !! 0
    = Some g
    /\ TagStore.find (Tag2.name g)
         (snd (TagStore.add 0 None
                 (TagStore.init, {[0 := Tag2.init (StrKey "t1") "work"]})))
       = (Ok 0, snd (TagStore.add 0 None
                       (TagStore.init, {[0 := Tag2.init (StrKey "t1") "work"]}))).
Proof.
  split; [reflexivity|].
  apply (tag_add_then_find 0 None
           (TagStore.init, {[0 := Tag2.init (StrKey "t1") "work"]})).
  reflexivity.
Defined.

(** X23.  Whatever the tasks refer to and whether the call returns or
    raises, the [due_date] setter changes no task in anything but its
    due date, and a due date only to the value that is set. *)
Theorem due_date_setter_only_sets_due
  {Date : Type} `{DateOps Date} (value : Date) (d : nat) (r : nat)
  (h : Task2.heap Date) :
  Frame.heap_rel (TaskTree.due_changed value) h
                 (snd (Task2.due_date_setter d r value h)).
Proof. apply due_date_setter_keeps. Qed.

(** X24.  [TagStore.new] without a parent, on a store whose [lookup]
    has no entry under the name itself: the call makes a tag object
    that was not in the heap, named as given but without a leading
    "@", appends it to [data] and enters it in [lookup] under its new
    identifier. *)
Theorem tag_new_strips_at
  (uuid : N) (name : string) (st : TagStore.St) :
  let name' := if negb (Str.startswith name "@") then name else Str.tail1 name in
  BaseStore.lookup (TagStore.base (fst st)) !! StrKey name' = None ->
  let out := TagStore.new uuid name None st in
  let r := fresh (dom (snd st)) in
  fst out = Ok r
  /\ (r ∉ dom (snd st))
  /\ (snd (snd out)) !! r = Some (Tag2.init (UUID uuid) name')
  /\ BaseStore.data (TagStore.base (fst (snd out)))
     = (BaseStore.data (TagStore.base (fst st)) ++ [r])%list
  /\ BaseStore.lookup (TagStore.base (fst (snd out))) !! UUID uuid = Some r.
Proof.
  intros name' Hnone out r. subst out. destruct st as [s h]. simpl in *.
  unfold TagStore.new. fold name'.
  unfold try_except, TagStore.on_base, zoom, BaseStore.lookup_getitem,
    BaseStore.on_store, zoom. simpl. rewrite Hnone. simpl.
  split; [reflexivity|]. split; [apply is_fresh|].
  split; [apply lookup_insert_eq|]. split; [reflexivity|].
  apply lookup_insert_eq.
Qed.

Lemma tag_new_strips_at_witness :
  BaseStore.lookup (TagStore.base (fst tags_0)) !! StrKey "home" = None
  /\ (let out := TagStore.new 5 "@home" None tags_0 in
      let r := fresh (dom (snd tags_0)) in
      fst out = Ok r
      /\ (r ∉ dom (snd tags_0))
      /\ (snd (snd out)) !! r = Some (Tag2.init (UUID 5) "home")
      /\ BaseStore.data (TagStore.base (fst (snd out)))
         = (BaseStore.data (TagStore.base (fst tags_0)) ++ [r])%list
      /\ BaseStore.lookup (TagStore.base (fst (snd out))) !! UUID 5 = Some r).
Proof.
  split; [reflexivity|].
  exact (tag_new_strips_at 5 "@home" tags_0 eq_refl).
Defined.

(** ** Saving the data file *)

Section Saving.
Import Datastore2.

Lemma sapp_length (a b : string) :
  String.length (a ++ b) = String.length a + String.length b.
Proof. induction a as [|x a IH]; [by rewrite sapp_nil|]. rewrite sapp_cons. simpl. lia. Qed.

Lemma temp_file_ne (path : string) : (path ++ "__")%string <> path.
Proof.
  intros E. apply (f_equal String.length) in E.
  rewrite sapp_length in E. simpl in E. lia.
Qed.

Lemma bind_never_ok {S A B} (c : M S A) (k : A -> M S B) (s : S) (b : B) :
  (forall a s', fst (k a s') <> Ok b) -> fst (bind c k s) <> Ok b.
Proof.
  intros Hk. unfold bind. destruct (c s) as [[a|e] s']; [apply Hk|discriminate].
Qed.

(** *** Paths *)

Lemma components_cons (a : ascii) (q : string) :
  components (String a q)
  = if Ascii.eqb a "/" then "" :: components q
    else match components q with
         | [] => [String a ""]
         | x :: xs => String a x :: xs
         end.
Proof. reflexivity. Qed.

Lemma components_not_single (c : ascii) (s : string) :
  components (String c s) <> [""].
Proof.
  simpl. destruct (Ascii.eqb c "/").
  - destruct s; simpl; [discriminate|].
    destruct (Ascii.eqb _ _); [discriminate|].
    destruct (components s); discriminate.
  - destruct (components s); discriminate.
Qed.

Lemma ends_with_slash_components (p : string) :
  ends_with_slash p = true -> exists l, components p = (l ++ [""])%list.
Proof.
  induction p as [|a q IH]; [discriminate|].
  destruct q as [|b r].
  - simpl. intros Ha. rewrite Ha. by exists [""].
  - intros Hq. change (ends_with_slash (String b r) = true) in Hq.
    destruct (IH Hq) as [l Hl].
    rewrite components_cons, Hl.
    destruct (Ascii.eqb a "/").
    + by exists ("" :: l).
    + destruct l as [|x l].
      * by destruct (components_not_single b r).
      * by exists (String a x :: l).
Qed.

(** A clean path does not end with a slash. *)
Lemma clean_no_slash (p : string) :
  clean p = true -> ends_with_slash p = false.
Proof.
  intros Hc. destruct (ends_with_slash p) eqn:He; [|reflexivity].
  exfalso. apply ends_with_slash_components in He as [l Hl].
  unfold clean in Hc. rewrite Hl in Hc.
  destruct l as [|x [|y l]]; [discriminate| |].
  - destruct x; discriminate.
  - destruct x; [|discriminate]. simpl app in Hc.
    apply andb_prop in Hc as [Hc _].
    rewrite forallb_forall in Hc.
    specialize (Hc "" ltac:(right; apply in_or_app; right; by left)).
    discriminate.
Qed.

Lemma temp_no_slash (p : string) : ends_with_slash (p ++ "__") = false.
Proof.
  induction p as [|a q IH]; [reflexivity|].
  rewrite sapp_cons. destruct q as [|b r]; [reflexivity|].
  rewrite sapp_cons in *. exact IH.
Qed.

(** *** The calls of the operating system that go through *)

Lemma is_dir_frame (p : string) (fs fs1 : FS) :
  dirs fs1 = dirs fs -> is_dir p fs1 = is_dir p fs.
Proof. unfold is_dir. by intros ->. Qed.

Lemma walk_frame_fs (fs fs1 : FS) (l : list string) :
  dirs fs1 = dirs fs -> walk fs l = None -> walk fs1 l = None.
Proof.
  intros Hd. induction l as [|a l IH]; [done|]. simpl.
  destruct (negb _); [done|].
  rewrite (is_dir_frame a fs fs1 Hd).
  destruct (is_dir a fs); [exact IH|].
  by destruct (is_file a fs).
Qed.

Lemma path_error_frame (p : string) (fs fs1 : FS) :
  dirs fs1 = dirs fs -> path_error p fs = None -> path_error p fs1 = None.
Proof.
  intros Hd. unfold path_error, leading_error.
  destruct (String.eqb p ""); [done|].
  destruct (negb _); [done|].
  destruct (walk fs _) eqn:Hw; [done|].
  by rewrite (walk_frame_fs fs fs1 _ Hd Hw).
Qed.

Lemma path_error_parts (p : string) (fs : FS) :
  path_error p fs = None ->
  leading_error p fs = None /\ name_too_long p = false.
Proof.
  unfold path_error. destruct (leading_error p fs); [done|].
  by destruct (name_too_long p).
Qed.

Lemma rename_file_ok (src dst : string) (fs : FS) (c : string) :
  path_error src fs = None -> path_error dst fs = None ->
  files fs !! src = Some c -> is_dir dst fs = false ->
  ends_with_slash dst = false -> writable fs = true ->
  rename src dst fs
  = (Ok tt, mkFS (<[dst := c]> (delete src (files fs))) (dirs fs) (writable fs)).
Proof.
  intros Hs Hd Hc Hdir Hsl Hw.
  apply path_error_parts in Hs as [Hs1 Hs2].
  apply path_error_parts in Hd as [Hd1 Hd2].
  unfold rename. by rewrite Hs1, Hd1, Hs2, Hc, Hd2, Hdir, Hsl, Hw.
Qed.

Lemma write_file_ok (path doc : string) (fs : FS) :
  path_error path fs = None -> is_dir path fs = false ->
  ends_with_slash path = false -> writable fs = true ->
  write_file path doc fs
  = (Ok tt, mkFS (<[path := doc]> (files fs)) (dirs fs) (writable fs)).
Proof.
  intros Hp Hdir Hsl Hw. unfold write_file, bind, open_wb, modify.
  rewrite Hp, Hdir, Hsl, Hw. simpl. by rewrite insert_insert_eq.
Qed.

Lemma remove_file_ok (p : string) (fs : FS) (c : string) :
  path_error p fs = None -> files fs !! p = Some c -> writable fs = true ->
  remove p fs = (Ok tt, mkFS (delete p (files fs)) (dirs fs) (writable fs)).
Proof. intros Hp Hc Hw. unfold remove. by rewrite Hp, Hc, Hw. Qed.

Lemma exists_file (p : string) (fs : FS) :
  is_dir p fs = false -> exists_ p fs = bool_decide (is_Some (files fs !! p)).
Proof. intros Hd. unfold exists_, is_file. rewrite Hd. apply orb_false_r. Qed.

Lemma save_file_ok (today doc path : string) (fs : FS) :
  writable fs = true -> clean path = true ->
  path_error path fs = None -> path_error (path ++ "__") fs = None ->
  is_dir path fs = false -> is_dir (path ++ "__") fs = false ->
  save_file today (Ok doc) path fs
  = (Raise AttributeError,
     mkFS (<[path := doc]> (delete (path ++ "__")%string (files fs)))
          (dirs fs) (writable fs)).
Proof.
  intros Hw Hclean Hp Ht Hpd Htd.
  pose proof (temp_file_ne path) as Hne.
  pose proof (clean_no_slash _ Hclean) as Hsl.
  pose proof (temp_no_slash path) as Htsl.
  unfold save_file. unfold bind at 1, get.
  rewrite (exists_file _ _ Hpd).
  destruct (files fs !! path) as [old|] eqn:Hold.
  - rewrite bool_decide_eq_true_2 by eauto.
    unfold bind at 1. rewrite (rename_file_ok _ _ _ _ Hp Ht Hold Htd Htsl Hw).
    set (fs1 := mkFS _ _ _).
    unfold bind at 1, of_result, ret at 1.
    unfold bind at 1.
    assert (Hp1 : path_error path fs1 = None)
      by (by eapply path_error_frame; [|exact Hp]).
    assert (Hpd1 : is_dir path fs1 = false)
      by (by rewrite (is_dir_frame path fs fs1)).
    rewrite (write_file_ok path doc fs1 Hp1 Hpd1 Hsl Hw).
    set (fs2 := mkFS _ _ _).
    unfold bind at 1, get.
    rewrite (exists_file _ fs2) by (by rewrite (is_dir_frame _ fs fs2)).
    assert (Htf : files fs2 !! (path ++ "__")%string = Some old).
    { unfold fs2, fs1. simpl. rewrite lookup_insert_ne by congruence.
      apply lookup_insert_eq. }
    rewrite Htf, bool_decide_eq_true_2 by eauto.
    unfold bind at 1.
    assert (Ht2 : path_error (path ++ "__") fs2 = None)
      by (by eapply path_error_frame; [|exact Ht]).
    rewrite (remove_file_ok _ fs2 old Ht2 Htf Hw).
    simpl. f_equal. unfold fs2, fs1. simpl. f_equal. apply map_eq. intros p.
    destruct (decide (p = (path ++ "__")%string)) as [->|Hpt].
    + rewrite lookup_delete_eq, lookup_insert_ne by congruence.
      by rewrite lookup_delete_eq.
    + rewrite lookup_delete_ne by congruence.
      destruct (decide (p = path)) as [->|Hpp].
      * by rewrite !lookup_insert_eq.
      * rewrite !lookup_insert_ne by congruence.
        by rewrite !lookup_delete_ne by congruence.
  - rewrite bool_decide_eq_false_2 by (intros [? ?]; discriminate).
    unfold bind at 1, ret at 1.
    unfold bind at 1, of_result, ret at 1.
    unfold bind at 1.
    rewrite (write_file_ok path doc fs Hp Hpd Hsl Hw).
    set (fs2 := mkFS _ _ _).
    unfold bind at 1, get.
    rewrite (exists_file _ fs2) by (by rewrite (is_dir_frame _ fs fs2)).
    assert (Htf : files fs2 !! (path ++ "__")%string
                  = files fs !! (path ++ "__")%string).
    { unfold fs2. simpl. by rewrite lookup_insert_ne by congruence. }
    destruct (files fs !! (path ++ "__")%string) as [stale|] eqn:Hst;
      rewrite Htf.
    + rewrite bool_decide_eq_true_2 by eauto.
      unfold bind at 1.
      assert (Ht2 : path_error (path ++ "__") fs2 = None)
        by (by eapply path_error_frame; [|exact Ht]).
      rewrite (remove_file_ok _ fs2 stale Ht2 Htf Hw).
      simpl. f_equal. unfold fs2. simpl. f_equal. apply map_eq. intros p.
      destruct (decide (p = (path ++ "__")%string)) as [->|Hpt].
      * rewrite lookup_delete_eq, lookup_insert_ne by congruence.
        by rewrite lookup_delete_eq.
      * rewrite lookup_delete_ne by congruence.
        destruct (decide (p = path)) as [->|Hpp].
        -- by rewrite !lookup_insert_eq.
        -- rewrite !lookup_insert_ne by congruence.
           by rewrite lookup_delete_ne by congruence.
    + rewrite bool_decide_eq_false_2 by (intros [? ?]; discriminate).
      unfold bind at 1, ret at 1. simpl.
      f_equal. unfold fs2. f_equal. f_equal. symmetry. by apply delete_id.
Qed.
End Saving.

(** X21.  [save_file] with a document that [generate_xml] builds, on a
    clean absolute path that is not a directory and whose temporary
    sibling is not a directory, in a well-formed file system that may
    be changed and in which both names can be reached: the document is
    written to the path, the temporary sibling is gone (with the
    former content of the path, and also when it was left over by an
    earlier call), no other file changes, and the call then raises
    [AttributeError] out of [write_backups], so that no backup is
    written. *)
Theorem save_file_writes_then_raises
  (today doc path : string) (fs : Datastore2.FS) :
  Datastore2.well_formed fs = true ->
  Datastore2.writable fs = true ->
  Datastore2.clean path = true ->
  Datastore2.path_error path fs = None ->
  Datastore2.path_error (path ++ "__") fs = None ->
  Datastore2.is_dir path fs = false ->
  Datastore2.is_dir (path ++ "__") fs = false ->
  Datastore2.save_file today (Ok doc) path fs
  = (Raise AttributeError,
     Datastore2.mkFS
       (<[path := doc]> (delete (path ++ "__")%string (Datastore2.files fs)))
       (Datastore2.dirs fs) (Datastore2.writable fs)).
Proof. intros _. apply save_file_ok. Qed.

Lemma save_file_writes_then_raises_witness :
  Datastore2.well_formed gtg_fs = true
  /\ Datastore2.writable gtg_fs = true
  /\ Datastore2.clean "/gtg/data.xml" = true
  /\ Datastore2.path_error "/gtg/data.xml" gtg_fs = None
  /\ Datastore2.path_error ("/gtg/data.xml" ++ "__") gtg_fs = None
  /\ Datastore2.is_dir "/gtg/data.xml" gtg_fs = false
  /\ Datastore2.is_dir ("/gtg/data.xml" ++ "__") gtg_fs = false
  /\ Datastore2.save_file "2026-01-01" (Ok "doc") "/gtg/data.xml" gtg_fs
     = (Raise AttributeError,
        Datastore2.mkFS
          (<["/gtg/data.xml" := "doc"]>
             (delete ("/gtg/data.xml" ++ "__")%string (Datastore2.files gtg_fs)))
          (Datastore2.dirs gtg_fs) (Datastore2.writable gtg_fs)).
Proof.
  assert (H1 : Datastore2.well_formed gtg_fs = true) by (vm_compute; reflexivity).
  assert (H2 : Datastore2.writable gtg_fs = true) by reflexivity.
  assert (H3 : Datastore2.clean "/gtg/data.xml" = true) by reflexivity.
  assert (H4 : Datastore2.path_error "/gtg/data.xml" gtg_fs = None)
    by (vm_compute; reflexivity).
  assert (H5 : Datastore2.path_error ("/gtg/data.xml" ++ "__") gtg_fs = None)
    by (vm_compute; reflexivity).
  assert (H6 : Datastore2.is_dir "/gtg/data.xml" gtg_fs = false)
    by (vm_compute; reflexivity).
  assert (H7 : Datastore2.is_dir ("/gtg/data.xml" ++ "__") gtg_fs = false)
    by (vm_compute; reflexivity).
  split; [exact H1|]. split; [exact H2|]. split; [exact H3|].
  split; [exact H4|]. split; [exact H5|]. split; [exact H6|]. split; [exact H7|].
  exact (save_file_writes_then_raises "2026-01-01" "doc" "/gtg/data.xml" gtg_fs
           H1 H2 H3 H4 H5 H6 H7).
Defined.

(** X22.  [save_file] never returns normally, whatever the path, the
    document or the exception that [generate_xml] gives, and the file
    system: every run ends in an exception. *)
Theorem save_file_never_returns
  (today : string) (xml : result string) (path : string) (fs : Datastore2.FS) :
  fst (Datastore2.save_file today xml path fs) <> Ok tt.
Proof.
  unfold Datastore2.save_file.
  do 6 (apply bind_never_ok; intros ? ?).
  discriminate.
Qed.

(** ** A propagating [toggle_status] on a task that is not active *)

Section Propagating.
Import Frame TaskTree TaskFrames.
Context {Date : Type} `{DateOps Date}.
Implicit Types (h g : Task2.heap Date) (k : Task2.t Date).
Local Open Scope list_scope.

#[local] Instance reopen_changed_pre : PreOrder (@reopen_changed Date _).
Proof.
  split.
  - intros k. by left.
  - intros k1 k2 k3 [->|[Hn ->]] [->|[Hn' ->]]; unfold reopen_changed; auto.
Qed.

Lemma status_changed_refl k : status_changed k k.
Proof. by destruct k. Qed.

Lemma status_changed_trans k1 k2 k3 :
  status_changed k1 k2 -> status_changed k2 k3 -> status_changed k1 k3.
Proof.
  unfold status_changed. intros H12 H23. rewrite H23, H12. reflexivity.
Qed.

Lemma status_changed_children k k' :
  status_changed k k' -> Task2.children k' = Task2.children k.
Proof. intros E. rewrite E. reflexivity. Qed.

Lemma status_changed_parent k k' :
  status_changed k k' -> Task2.parent k' = Task2.parent k.
Proof. intros E. rewrite E. reflexivity. Qed.

Lemma toggled_in_refl N h : toggled_in N h h.
Proof.
  intros y. destruct (h !! y); constructor.
  split; [apply status_changed_refl|auto].
Qed.

Lemma toggled_in_trans N h1 h2 h3 :
  toggled_in N h1 h2 -> toggled_in N h2 h3 -> toggled_in N h1 h3.
Proof.
  intros H12 H23 y. specialize (H12 y). specialize (H23 y).
  destruct H12 as [k1 k2 [Hc Ha]|]; inversion H23 as [? k3 [Hc' Ha']|];
    subst; constructor.
  split; [by eapply status_changed_trans|auto].
Qed.

Lemma toggled_in_mono N N' h h' :
  (forall y, y ∈ N -> y ∈ N') -> toggled_in N h h' -> toggled_in N' h h'.
Proof.
  intros Hsub Hr y. specialize (Hr y).
  destruct Hr as [k k' [Hc Ha]|]; constructor.
  split; [assumption|]. intros Hy. apply Ha. intros Hin. apply Hy, Hsub, Hin.
Qed.

Lemma reopen_toggled N h h' :
  heap_rel (@reopen_changed Date _) h h' -> toggled_in N h h'.
Proof.
  intros Hr y. specialize (Hr y).
  destruct Hr as [k k' [->|[Hn ->]]|]; constructor.
  - split; [apply status_changed_refl|auto].
  - split; reflexivity.
Qed.

Lemma toggled_lookup N h h' (y : nat) k :
  toggled_in N h h' -> h !! y = Some k ->
  exists k', h' !! y = Some k' /\ status_changed k k'
             /\ ((y ∉ N) -> Task2.status k = ACTIVE -> Task2.status k' = ACTIVE).
Proof.
  intros Hr Hk. specialize (Hr y). rewrite Hk in Hr.
  inversion Hr as [? k' [Hc Ha]|]; subst. eauto.
Qed.

Lemma toggled_is_Some N h h' (y : nat) :
  toggled_in N h h' -> is_Some (h !! y) <-> is_Some (h' !! y).
Proof.
  intros Hr. specialize (Hr y).
  destruct Hr; split; intros [? ?]; try discriminate; eauto.
Qed.

Lemma toggled_children N h h' (y : nat) :
  toggled_in N h h' -> Task2.children <$> h' !! y = Task2.children <$> h !! y.
Proof.
  intros Hr. specialize (Hr y). destruct Hr as [k k' [Hc _]|]; simpl;
    [|reflexivity].
  f_equal. by apply status_changed_children.
Qed.

Lemma shape_children h h' (t : tree) :
  (forall y, Task2.children <$> h' !! y = Task2.children <$> h !! y) ->
  shape h' t = shape h t.
Proof.
  intros Hc. induction t as [x kids IH] using tree_ind'. simpl.
  assert (Hkids : forallb (shape h') kids = forallb (shape h) kids).
  { induction IH as [|a kids Ha _ IHk]; simpl; [reflexivity|]. by rewrite Ha, IHk. }
  specialize (Hc x).
  destruct (h' !! x) as [k'|], (h !! x) as [k|]; simpl in Hc;
    try discriminate; [|reflexivity].
  injection Hc as ->. by rewrite Hkids.
Qed.

Lemma shapes_toggled N h h' (kids : list tree) :
  toggled_in N h h' -> forallb (shape h') kids = forallb (shape h) kids.
Proof.
  intros Hr. induction kids as [|a kids IH]; [reflexivity|]. simpl.
  rewrite IH. f_equal. apply shape_children. intros y.
  by eapply toggled_children.
Qed.

Lemma toggled_closed N h h' : toggled_in N h h' -> closed h -> closed h'.
Proof.
  intros Hr Hc x k' Hk'. pose proof (Hr x) as Hx. rewrite Hk' in Hx.
  inversion Hx as [k ? [Hkk _] Hk|]; subst. symmetry in Hk.
  specialize (Hc x k Hk). cbv beta in Hc. unfold refs_in in *.
  rewrite (status_changed_children _ _ Hkk), (status_changed_parent _ _ Hkk).
  apply andb_prop in Hc as [Hkids Hpar]. apply andb_true_intro. split.
  - rewrite forallb_forall in *. intros c Hc.
    specialize (Hkids c Hc). apply bool_decide_eq_true in Hkids.
    apply bool_decide_eq_true. by apply (toggled_is_Some _ _ _ _ Hr).
  - destruct (Task2.parent k) as [p|]; [|reflexivity].
    apply bool_decide_eq_true in Hpar.
    apply bool_decide_eq_true. by apply (toggled_is_Some _ _ _ _ Hr).
Qed.

Lemma toggled_size N h h' : toggled_in N h h' -> size h' = size h.
Proof.
  intros Hr. rewrite <- !size_dom. apply set_size_proper. intros y.
  rewrite !elem_of_dom. symmetry. by eapply toggled_is_Some.
Qed.

Lemma close_toggled today h (r : nat) k :
  h !! r = Some k -> toggled_in [r] h (alter (closed_on today) r h).
Proof.
  intros Hk y. destruct (decide (y = r)) as [->|Hne].
  - rewrite lookup_alter_eq, Hk. constructor. split; [reflexivity|].
    intros Hn. destruct Hn. by left.
  - rewrite lookup_alter_ne by congruence.
    destruct (h !! y); constructor. split; [apply status_changed_refl|auto].
Qed.

(** The step from a reopened task to its parent. *)
Local Abbreviation up_step d today k :=
  (match Task2.parent k with
   | Some p =>
       po <- deref p;;
       if negb (bool_decide (Task2.status po = ACTIVE))
       then Task2.toggle_status d today p false
       else ret tt
   | None => ret tt
   end).

Lemma up_step_frame today (d : nat) k h :
  heap_rel (@reopen_changed Date _) h (snd (up_step d today k h)).
Proof.
  destruct (Task2.parent k) as [p|]; [|reflexivity].
  unfold bind, deref. destruct (h !! p) as [po|] eqn:Hp; [|reflexivity].
  destruct (bool_decide (Task2.status po = ACTIVE)) eqn:Hs; simpl;
    [reflexivity|].
  apply bool_decide_eq_false in Hs.
  destruct d as [|d]; [reflexivity|].
  by apply (toggle_status_reopen_frame today d p h po).
Qed.

(** *** What a propagating call may change *)

Local Abbreviation walk_ok today t :=
  (forall d h, shape h t = true ->
     toggled_in (nodes t) h
                (snd (Task2.toggle_status d today (root t) true h))).

Lemma loop_frame today (kids : list tree) :
  Forall (fun t => walk_ok today t) kids ->
  forall d h, forallb (shape h) kids = true ->
    toggled_in (flat_map nodes kids) h
      (snd (for_each (List.map root kids)
                     (fun c => Task2.toggle_status d today c true) h)).
Proof.
  induction 1 as [|t0 kids Ht0 _ IHk]; intros d h Hs; [apply toggled_in_refl|].
  simpl in Hs. apply andb_prop in Hs as [Hs0 Hs].
  cbn [List.map for_each flat_map]. unfold bind.
  pose proof (Ht0 d h Hs0) as Hstep.
  destruct (Task2.toggle_status d today (root t0) true h) as [[[]|e] h1];
    simpl in *.
  - eapply toggled_in_trans.
    + eapply toggled_in_mono; [|exact Hstep].
      intros y Hy. apply elem_of_app. by left.
    + eapply toggled_in_mono; [|apply IHk].
      * intros y Hy. apply elem_of_app. by right.
      * rewrite <- Hs. by eapply shapes_toggled.
  - eapply toggled_in_mono; [|exact Hstep].
    intros y Hy. apply elem_of_app. by left.
Qed.

Lemma walk_frame today (t : tree) : walk_ok today t.
Proof.
  induction t as [r kids IH] using tree_ind'. intros d h Hshape.
  destruct d as [|d]; [apply toggled_in_refl|].
  simpl in Hshape. destruct (h !! r) as [k|] eqn:Hk; [|discriminate].
  apply andb_prop in Hshape as [Hkids Hshape].
  apply bool_decide_eq_true in Hkids.
  cbn [root nodes].
  destruct (decide (Task2.status k = ACTIVE)) as [Hact|Hna].
  - rewrite (toggle_status_active _ _ _ _ _ Hk Hact), Hkids.
    pose proof (close_toggled today _ _ _ Hk) as H01.
    eapply toggled_in_trans.
    + eapply toggled_in_mono; [|exact H01].
      intros y Hy. apply list_elem_of_singleton in Hy as ->. by left.
    + eapply toggled_in_mono; [|apply (loop_frame today kids IH)].
      * intros y Hy. by right.
      * rewrite <- Hshape. by eapply shapes_toggled.
  - rewrite (toggle_status_reopen_head _ _ _ _ _ _ Hk Hna).
    set (h1 := <[r := reopened k]> h).
    assert (H01 : toggled_in (r :: flat_map nodes kids) h h1)
      by (apply reopen_toggled, reopen_first; assumption).
    unfold bind at 1.
    pose proof (up_step_frame today d k h1) as Hup.
    destruct (up_step d today k h1) as [[[]|e] h2]; simpl in Hup.
    2: { simpl. eapply toggled_in_trans; [exact H01|]. by apply reopen_toggled. }
    assert (H12 : toggled_in (r :: flat_map nodes kids) h1 h2)
      by by apply reopen_toggled.
    pose proof (toggled_in_trans _ _ _ _ H01 H12) as H02.
    destruct (toggled_lookup _ _ _ _ _ H02 Hk) as (k2 & Hk2 & Hc2 & _).
    rewrite (bind_ok _ _ _ _ _ (deref_ok _ _ _ Hk2)).
    rewrite (status_changed_children _ _ Hc2), Hkids.
    eapply toggled_in_trans; [exact H02|].
    eapply toggled_in_mono; [|apply (loop_frame today kids IH)].
    + intros y Hy. by right.
    + rewrite <- Hshape. by eapply shapes_toggled.
Qed.

(** A propagating call on a task that is not active and is not among
    its own descendants leaves it active, whether it returns or
    raises. *)
Lemma toggle_status_leaves_active today (d : nat) (t : tree) h k :
  h !! root t = Some k -> Task2.status k <> ACTIVE ->
  shape h t = true -> NoDup (nodes t) ->
  status_at (snd (Task2.toggle_status (S d) today (root t) true h)) (root t)
  = Some ACTIVE.
Proof.
  destruct t as [r kids]. cbn [root nodes]. intros Hk Hna Hshape Hnd.
  simpl in Hshape. rewrite Hk in Hshape.
  apply andb_prop in Hshape as [Hkids Hshape].
  apply bool_decide_eq_true in Hkids.
  apply NoDup_cons in Hnd as [Hr _].
  rewrite (toggle_status_reopen_head _ _ _ _ _ _ Hk Hna).
  set (h1 := <[r := reopened k]> h).
  assert (H01 : toggled_in [] h h1)
    by (apply reopen_toggled, reopen_first; assumption).
  unfold bind at 1.
  pose proof (up_step_frame today d k h1) as Hup.
  assert (Hr2 : forall h2, heap_rel (@reopen_changed Date _) h1 h2 ->
            h2 !! r = Some (reopened k)).
  { intros h2 H12.
    destruct (heap_rel_lookup _ _ _ _ _ H12 (lookup_insert_eq h r (reopened k)))
      as (k2 & Hk2 & [->|[Hn _]]); [exact Hk2|]. by destruct Hn. }
  destruct (up_step d today k h1) as [[[]|e] h2]; simpl in Hup.
  2: { simpl. unfold status_at. by rewrite (Hr2 _ Hup). }
  rewrite (bind_ok _ _ _ _ _ (deref_ok _ _ _ (Hr2 _ Hup))).
  replace (Task2.children (reopened k)) with (List.map root kids)
    by (symmetry; exact Hkids).
  assert (Hwalk : toggled_in (flat_map nodes kids) h2
            (snd (for_each (List.map root kids)
                    (fun c => Task2.toggle_status d today c true) h2))).
  { apply loop_frame.
    - apply Forall_forall. intros t _. apply walk_frame.
    - rewrite <- Hshape.
      transitivity (forallb (shape h1) kids).
      + eapply shapes_toggled. by apply (reopen_toggled []).
      + by eapply shapes_toggled. }
  destruct (toggled_lookup _ _ _ _ _ Hwalk (Hr2 _ Hup)) as (k3 & Hk3 & _ & Hact).
  unfold status_at. rewrite Hk3. simpl. f_equal. by apply Hact.
Qed.

(** *** When a propagating call returns *)

Lemma bind_ret_fst {S} (c : M S unit) (s : S) :
  fst (c s) = Ok tt -> fst (bind c (fun _ => ret tt) s) = Ok tt.
Proof. unfold bind. destruct (c s) as [[[]|e] s']; simpl; congruence. Qed.

(** A non-propagating call on a task that is not active returns when
    the call depth is at least the number of tasks that are not
    active: every call up the parents reopens one of them. *)
Lemma climb_returns today (d : nat) :
  forall h (r : nat) k (I : gset nat),
    closed h -> h !! r = Some k -> Task2.status k <> ACTIVE ->
    (forall y ky, h !! y = Some ky -> Task2.status ky <> ACTIVE -> y ∈ I) ->
    size I <= d ->
    fst (Task2.toggle_status d today r false h) = Ok tt.
Proof.
  induction d as [|d IH]; intros h r k I Hcl Hk Hna Hidle Hsize.
  { pose proof (Hidle r k Hk Hna) as Hin.
    assert (size ({[r]} : gset nat) <= size I)
      by (apply subseteq_size; set_solver).
    rewrite size_singleton in *. lia. }
  rewrite (toggle_status_reopen_head _ _ _ _ _ _ Hk Hna).
  apply bind_ret_fst.
  set (h1 := <[r := reopened k]> h).
  destruct (Task2.parent k) as [p|] eqn:Hpar; [|reflexivity].
  assert (Hcl1 : closed h1).
  { eapply (toggled_closed []); [|exact Hcl].
    apply reopen_toggled, reopen_first; assumption. }
  assert (Hp1 : is_Some (h1 !! p)).
  { destruct (closed_parent _ _ _ _ Hcl Hk Hpar) as [po Hpo]. unfold h1.
    destruct (decide (p = r)) as [->|Hne].
    - rewrite lookup_insert_eq. eauto.
    - rewrite lookup_insert_ne by congruence. eauto. }
  destruct Hp1 as [po Hpo].
  rewrite (bind_ok _ _ _ _ _ (deref_ok _ _ _ Hpo)).
  destruct (bool_decide (Task2.status po = ACTIVE)) eqn:Hs; simpl; [reflexivity|].
  apply bool_decide_eq_false in Hs.
  apply (IH h1 p po (I ∖ {[r]})); try assumption.
  - intros y ky Hy Hyna. apply elem_of_difference. split.
    + destruct (decide (y = r)) as [->|Hne].
      * unfold h1 in Hy. rewrite lookup_insert_eq in Hy. injection Hy as <-.
        by destruct Hyna.
      * unfold h1 in Hy. rewrite lookup_insert_ne in Hy by congruence.
        by eapply Hidle.
    + intros Hyr. apply elem_of_singleton in Hyr as ->.
      unfold h1 in Hy. rewrite lookup_insert_eq in Hy. injection Hy as <-.
      by destruct Hyna.
  - pose proof (Hidle r k Hk Hna) as Hin.
    rewrite size_difference by set_solver. rewrite size_singleton. lia.
Qed.

Lemma up_step_returns today (d : nat) k h (I : gset nat) :
  closed h ->
  (forall p, Task2.parent k = Some p -> is_Some (h !! p)) ->
  (forall y ky, h !! y = Some ky -> Task2.status ky <> ACTIVE -> y ∈ I) ->
  size I <= d ->
  fst (up_step d today k h) = Ok tt.
Proof.
  intros Hcl Hp Hidle Hsize.
  destruct (Task2.parent k) as [p|]; [|reflexivity].
  destruct (Hp p eq_refl) as [po Hpo].
  rewrite (bind_ok _ _ _ _ _ (deref_ok _ _ _ Hpo)).
  destruct (bool_decide (Task2.status po = ACTIVE)) eqn:Hs; simpl; [reflexivity|].
  apply bool_decide_eq_false in Hs.
  by eapply climb_returns.
Qed.

Local Abbreviation returns_ok today t :=
  (forall d h, shape h t = true -> closed h -> height t + size h <= d ->
     fst (Task2.toggle_status d today (root t) true h) = Ok tt).

Lemma loop_returns today (kids : list tree) :
  Forall (fun t => returns_ok today t) kids ->
  forall d h, forallb (shape h) kids = true -> closed h ->
    (forall kid, kid ∈ kids -> height kid + size h <= d) ->
    fst (for_each (List.map root kids)
                  (fun c => Task2.toggle_status d today c true) h) = Ok tt.
Proof.
  induction 1 as [|t0 kids Ht0 _ IHk]; intros d h Hs Hcl Hd; [reflexivity|].
  simpl in Hs. apply andb_prop in Hs as [Hs0 Hs].
  cbn [List.map for_each]. unfold bind.
  pose proof (Ht0 d h Hs0 Hcl (Hd t0 ltac:(by left))) as Hret.
  pose proof (walk_frame today t0 d h Hs0) as Hfr.
  destruct (Task2.toggle_status d today (root t0) true h) as [[[]|e] h1];
    simpl in *; [|discriminate].
  apply IHk.
  - rewrite <- Hs. by eapply shapes_toggled.
  - by eapply toggled_closed.
  - intros kid Hkid. rewrite (toggled_size _ _ _ Hfr). apply Hd. by right.
Qed.

Lemma kid_depth (r : nat) (kids : list tree) (kid : tree) (n d : nat) :
  height (Node r kids) + n <= S d -> kid ∈ kids -> height kid + n <= d.
Proof.
  intros Hd Hin.
  assert (height kid <= d - n); [|simpl in Hd; lia].
  apply (height_kid r kids kid (d - n)); [|exact Hin]. simpl in *. lia.
Qed.

Lemma walk_returns today (t : tree) : returns_ok today t.
Proof.
  induction t as [r kids IH] using tree_ind'. intros d h Hshape Hcl Hd.
  destruct d as [|d]; [simpl in Hd; lia|].
  simpl in Hshape. destruct (h !! r) as [k|] eqn:Hk; [|discriminate].
  apply andb_prop in Hshape as [Hkids Hshape].
  apply bool_decide_eq_true in Hkids.
  cbn [root].
  destruct (decide (Task2.status k = ACTIVE)) as [Hact|Hna].
  - rewrite (toggle_status_active _ _ _ _ _ Hk Hact), Hkids.
    pose proof (close_toggled today _ _ _ Hk) as H01.
    apply loop_returns; [exact IH| | |].
    + rewrite <- Hshape. by eapply shapes_toggled.
    + by eapply toggled_closed.
    + intros kid Hkid. rewrite (toggled_size _ _ _ H01).
      by eapply kid_depth.
  - rewrite (toggle_status_reopen_head _ _ _ _ _ _ Hk Hna).
    set (h1 := <[r := reopened k]> h).
    assert (H01 : toggled_in [] h h1)
      by (apply reopen_toggled, reopen_first; assumption).
    assert (Hcl1 : closed h1) by by eapply toggled_closed.
    assert (Hr1 : h1 !! r = Some (reopened k)) by apply lookup_insert_eq.
    unfold bind at 1.
    pose proof (up_step_frame today d k h1) as Hup.
    assert (Hret : fst (up_step d today k h1) = Ok tt).
    { apply (up_step_returns today d k h1 (dom h1 ∖ {[r]})); [assumption| | |].
      - intros p Hp. apply (toggled_is_Some _ _ _ _ H01).
        by eapply closed_parent.
      - intros y ky Hy Hyna. apply elem_of_difference. split.
        + apply elem_of_dom. eauto.
        + intros Hyr. apply elem_of_singleton in Hyr as ->.
          rewrite Hr1 in Hy. injection Hy as <-. by destruct Hyna.
      - rewrite size_difference
          by (apply singleton_subseteq_l, elem_of_dom; eauto).
        rewrite size_singleton, size_dom, (toggled_size _ _ _ H01).
        simpl in Hd. lia. }
    destruct (up_step d today k h1) as [[[]|e] h2]; simpl in Hup, Hret;
      [|discriminate].
    assert (H12 : toggled_in [] h1 h2) by by apply reopen_toggled.
    destruct (toggled_lookup _ _ _ _ _ H12 Hr1) as (k2 & Hk2 & Hc2 & _).
    rewrite (bind_ok _ _ _ _ _ (deref_ok _ _ _ Hk2)).
    rewrite (status_changed_children _ _ Hc2).
    replace (Task2.children (reopened k)) with (List.map root kids)
      by (symmetry; exact Hkids).
    apply loop_returns; [exact IH| | |].
    + rewrite <- Hshape.
      transitivity (forallb (shape h1) kids); by eapply shapes_toggled.
    + by eapply toggled_closed.
    + intros kid Hkid.
      rewrite (toggled_size _ _ _ H12), (toggled_size _ _ _ H01).
      by eapply kid_depth.
Qed.
End Propagating.

(** C5, as amended.  A dismissed task stays dismissed through every
    sequence of [dismiss] calls, whatever the tasks and the call depths
    of the calls and whether they return or raise.  A [toggle_status]
    call on it then leaves it active, whether the call returns or
    raises: without propagation on any tasks, and with propagation
    (the default) when the descendants of the task form a tree.  The
    propagating call returns when no reference of a task dangles and
    the call depth is at least the height of the tree plus the number
    of tasks. *)
Theorem dismissed_until_toggled
  {Date : Type} `{DateOps Date} (today : Date)
  (calls : list (nat * nat)) (h : Task2.heap Date) (x : nat) :
  TaskTree.status_at h x = Some DISMISSED ->
  let h1 := TaskCalls.run_dismissals calls h in
  TaskTree.status_at h1 x = Some DISMISSED
  /\ (forall d,
        TaskTree.status_at (snd (Task2.toggle_status (S d) today x false h1)) x
        = Some ACTIVE)
  /\ (forall t,
        TaskTree.root t = x -> TaskTree.shape h1 t = true ->
        NoDup (TaskTree.nodes t) ->
        (forall d,
            TaskTree.status_at (snd (Task2.toggle_status (S d) today x true h1)) x
            = Some ACTIVE)
        /\ (forall d,
              TaskTree.closed h1 -> TaskTree.height t + size h1 <= d ->
              fst (Task2.toggle_status d today x true h1) = Ok tt)).
Proof.
  intros Hx h1. unfold TaskTree.status_at in Hx.
  destruct (h !! x) as [k|] eqn:Hk; [|discriminate]. simpl in Hx.
  destruct (heap_rel_lookup _ _ _ _ _ (run_dismissals_keeps calls h) Hk)
    as (k' & Hk' & Hst).
  assert (Hd : Task2.status k' = DISMISSED) by (apply Hst; congruence).
  assert (Hna : Task2.status k' <> ACTIVE) by congruence.
  split; [|split].
  - unfold TaskTree.status_at, h1. rewrite Hk'. simpl. congruence.
  - intros d. by eapply toggle_status_reopens.
  - intros t <- Hshape Hnd. split.
    + intros d. by eapply toggle_status_leaves_active.
    + intros d Hcl Hdepth. by apply walk_returns.
Qed.

Lemma dismissed_until_toggled_witness :
  TaskTree.status_at dismissed_top 0 = Some DISMISSED
  /\ let h1 := TaskCalls.run_dismissals [(2, 2); (0, 3)] dismissed_top in
     TaskTree.root family_tree = 0
     /\ TaskTree.shape h1 family_tree = true
     /\ NoDup (TaskTree.nodes family_tree)
     /\ TaskTree.closed h1
     /\ TaskTree.height family_tree + size h1 <= 7
     /\ TaskTree.status_at h1 0 = Some DISMISSED
     /\ (forall d,
           TaskTree.status_at
             (snd (Task2.toggle_status (S d) (Concrete 7) 0 false h1)) 0
           = Some ACTIVE)
     /\ (forall d,
           TaskTree.status_at
             (snd (Task2.toggle_status (S d) (Concrete 7) 0 true h1)) 0
           = Some ACTIVE)
     /\ fst (Task2.toggle_status 7 (Concrete 7) 0 true h1) = Ok tt.
Proof.
  split; [reflexivity|]. intros h1.
  assert (Hshape : TaskTree.shape h1 family_tree = true) by reflexivity.
  assert (Hnd : NoDup (TaskTree.nodes family_tree)) by (apply NoDup_ListNoDup; repeat constructor; simpl; intuition lia).
  assert (Hcl : TaskTree.closed h1) by compute_done.
  assert (Hsize : TaskTree.height family_tree + size h1 <= 7)
    by (vm_compute; lia).
  destruct (dismissed_until_toggled (Concrete 7) [(2, 2); (0, 3)] dismissed_top 0
              eq_refl) as (H1 & H2 & H3).
  destruct (H3 family_tree eq_refl Hshape Hnd) as [Ha Hb].
  split; [reflexivity|]. split; [exact Hshape|]. split; [exact Hnd|].
  split; [exact Hcl|]. split; [exact Hsize|]. split; [exact H1|].
  split; [exact H2|]. split; [exact Ha|]. exact (Hb 7 Hcl Hsize).
Defined.

(** C5, the claim as stated fails: a task is dismissed and then a
    [toggle_status] call (propagating, as by default) makes it active. *)
Lemma dismissed_task_reactivated_counterexample :
  TaskTree.status_at (snd (Task2.dismiss 5 0 (single ACTIVE))) 0 = Some DISMISSED
  /\ fst (Task2.toggle_status 5 (Concrete 7) 0 true
            (snd (Task2.dismiss 5 0 (single ACTIVE)))) = Ok tt
  /\ TaskTree.status_at
       (snd (Task2.toggle_status 5 (Concrete 7) 0 true
               (snd (Task2.dismiss 5 0 (single ACTIVE))))) 0
     = Some ACTIVE.
Proof. vm_compute. repeat split. Qed.
